(** * A shallow embedding of [js/fluid.js]

    The WebGL fluid background of the site: capability negotiation, the
    render-target pool, the fragment programs, the simulation stepper, the
    splat injector and the frame driver.

    Numbers are idealised as rationals ([Q]): JavaScript doubles, GLSL floats
    and half-float texels all become exact rationals, and precision
    qualifiers are dropped.  The one place where the rounding of doubles
    decides an integer result, the aspect ratio of [getResolution], is
    computed in binary64 ([float]) as JavaScript does.  The transcendental
    built-ins ([exp], [sqrt]) and the random source are an interface of the
    host ([Host]).  The WebGL machine is an explicit state: texture objects,
    texture units, the bound program and the per-program uniform values. *)

From Stdlib Require Import ZArith QArith Qround Qabs List Bool String Lia Lqa.
From Stdlib Require Import Floats.
From Equations Require Import Equations.
From Equations.Prop Require Import Logic.
Import ListNotations.

Open Scope Q_scope.

(* ------------------------------------------------------------------ *)
(** ** Numbers and vectors *)

(** [Math.floor] and [Math.round] (round half up), with integer results. *)
Definition Math_floor (x : Q) : Z := Qfloor x.
Definition Math_round (x : Q) : Z := Qfloor (x + (1#2)).
Definition Math_min (a b : Q) : Q := if Qle_bool a b then a else b.
Definition Math_abs (x : Q) : Q := Qabs x.

Definition Qltb (a b : Q) : bool := negb (Qle_bool b a).

(** JavaScript numbers where their rounding matters: binary64 doubles.
    [Number_of_Z n] is the double nearest to the integer [n] (ties to even,
    an infinity past the largest double), [n] itself below [2^53]. *)
Definition Number_of_Z (n : Z) : float :=
  SF2Prim (binary_normalize prec emax n 0 false).

(** The double nearest to the rational [q] whose numerator and denominator
    are below [2^53]: the quotient of two doubles is correctly rounded. *)
Definition Number_of_Q (q : Q) : float :=
  (Number_of_Z (Qnum q) / Number_of_Z (Zpos (Qden q)))%float.

(** The exact value of a finite double.  An infinity or a NaN reads as 0,
    the integer WebGL converts one to when it is passed as a size. *)
Definition Number_value (x : float) : Q :=
  match Prim2SF x with
  | S754_finite s m e =>
      let v := inject_Z (Zpos m) * Qpower 2 e in
      if s then - v else v
  | _ => 0
  end.

Record vec2 := V2 { vx : Q; vy : Q }.
Record vec3 := V3 { c_r : Q; c_g : Q; c_b : Q }.
Record vec4 := V4 { px : Q; py : Q; pz : Q; pw : Q }.

Definition v2add (a b : vec2) := V2 (vx a + vx b) (vy a + vy b).
Definition v2sub (a b : vec2) := V2 (vx a - vx b) (vy a - vy b).
Definition v2mul (a b : vec2) := V2 (vx a * vx b) (vy a * vy b).
Definition v2div (a b : vec2) := V2 (vx a / vx b) (vy a / vy b).
Definition v2scale (k : Q) (a : vec2) := V2 (k * vx a) (k * vy a).
Definition v2subs (a : vec2) (k : Q) := V2 (vx a - k) (vy a - k).
Definition dot2 (a b : vec2) : Q := vx a * vx b + vy a * vy b.

Definition v3add (a b : vec3) := V3 (c_r a + c_r b) (c_g a + c_g b) (c_b a + c_b b).
Definition v3scale (k : Q) (a : vec3) := V3 (k * c_r a) (k * c_g a) (k * c_b a).

Definition v4add (a b : vec4) := V4 (px a + px b) (py a + py b) (pz a + pz b) (pw a + pw b).
Definition v4scale (k : Q) (a : vec4) := V4 (k * px a) (k * py a) (k * pz a) (k * pw a).
Definition v4divs (a : vec4) (k : Q) := V4 (px a / k) (py a / k) (pz a / k) (pw a / k).

Definition xy (v : vec4) : vec2 := V2 (px v) (py v).
Definition xyz (v : vec4) : vec3 := V3 (px v) (py v) (pz v).

(** GLSL built-ins that are rational. *)
Definition glsl_floor (x : Q) : Q := inject_Z (Qfloor x).
Definition glsl_fract (x : Q) : Q := x - glsl_floor x.
Definition glsl_mix (a b t : Q) : Q := a * (1 - t) + b * t.
Definition mix4 (a b : vec4) (t : Q) : vec4 :=
  V4 (glsl_mix (px a) (px b) t) (glsl_mix (py a) (py b) t)
     (glsl_mix (pz a) (pz b) t) (glsl_mix (pw a) (pw b) t).
Definition floor2 (a : vec2) := V2 (glsl_floor (vx a)) (glsl_floor (vy a)).
Definition fract2 (a : vec2) := V2 (glsl_fract (vx a)) (glsl_fract (vy a)).

(** Component-wise equality up to the value of the rationals. *)
Definition v4eq (a b : vec4) : Prop :=
  px a == px b /\ py a == py b /\ pz a == pz b /\ pw a == pw b.

(** The host: the built-ins that are not rational, and [Math.random] as a
    stream of draws, the [n]-th call returning [Math_random n]. *)
Class Host := {
  Math_random : nat -> Q;
  glsl_exp : Q -> Q;
  glsl_sqrt : Q -> Q
}.

(* ------------------------------------------------------------------ *)
(** ** The WebGL machine *)

Module GL.
(** Enumerants, with their values from the WebGL headers. *)
Definition RED : Z := 6403.
Definition RG : Z := 33319.
Definition RGBA : Z := 6408.
Definition R16F : Z := 33325.
Definition RG16F : Z := 33327.
Definition RGBA16F : Z := 34842.
Definition HALF_FLOAT : Z := 5131.
Definition HALF_FLOAT_OES : Z := 36193.
Definition NEAREST : Z := 9728.
Definition LINEAR : Z := 9729.

(** Number of channels a texture of an internal format stores. *)
Definition channels (internalFormat : Z) : nat :=
  if (internalFormat =? R16F)%Z then 1%nat
  else if (internalFormat =? RG16F)%Z then 2%nat
  else 4%nat.

(** What a fetch returns for a stored texel: absent colour channels read
    0 and an absent alpha reads 1. *)
Definition expand (internalFormat : Z) (v : vec4) : vec4 :=
  match channels internalFormat with
  | 1%nat => V4 (px v) 0 0 1
  | 2%nat => V4 (px v) (py v) 0 1
  | _ => v
  end.

(** A texture object with its level-0 image.  All textures of the program
    use CLAMP_TO_EDGE and the same filter for minification and
    magnification. *)
Record Image := {
  img_w : Z;
  img_h : Z;
  img_ifmt : Z;
  img_filter : Z;
  img_texel : Z -> Z -> vec4
}.

Definition fetch (im : Image) (i j : Z) : vec4 :=
  expand (img_ifmt im) (img_texel im i j).

Definition clampZ (i n : Z) : Z := Z.max 0 (Z.min i (n - 1)).

Definition nearest (im : Image) (uv : vec2) : vec4 :=
  fetch im (clampZ (Qfloor (vx uv * inject_Z (img_w im))) (img_w im))
           (clampZ (Qfloor (vy uv * inject_Z (img_h im))) (img_h im)).

Definition linear (im : Image) (uv : vec2) : vec4 :=
  let u := vx uv * inject_Z (img_w im) - (1#2) in
  let v := vy uv * inject_Z (img_h im) - (1#2) in
  let i0 := clampZ (Qfloor u) (img_w im) in
  let i1 := clampZ (Qfloor u + 1) (img_w im) in
  let j0 := clampZ (Qfloor v) (img_h im) in
  let j1 := clampZ (Qfloor v + 1) (img_h im) in
  mix4 (mix4 (fetch im i0 j0) (fetch im i1 j0) (glsl_fract u))
       (mix4 (fetch im i0 j1) (fetch im i1 j1) (glsl_fract u))
       (glsl_fract v).

(** [texture2D] of a sampler bound to this texture. *)
Definition texture2D (im : Image) (uv : vec2) : vec4 :=
  if (img_filter im =? LINEAR)%Z then linear im uv else nearest im uv.

(** The interpolated [vUv] at the centre of pixel [(i, j)] of a [w] by [h]
    viewport covered by the full-screen quad. *)
Definition pixel_uv (w h i j : Z) : vec2 :=
  V2 ((inject_Z i + (1#2)) / inject_Z w) ((inject_Z j + (1#2)) / inject_Z h).

Definition in_viewport (w h i j : Z) : bool :=
  ((0 <=? i) && (i <? w) && (0 <=? j) && (j <? h))%Z.
End GL.

(* ------------------------------------------------------------------ *)
(** ** Programs, uniforms and the fragment shaders *)

Inductive Prog :=
| clearProgram | displayProgram | splatProgram | advectionProgram
| divergenceProgram | curlProgram | vorticityProgram | pressureProgram
| gradientSubtractProgram.

Inductive UName :=
| texelSize | uTexture | value | backColor | uTarget | aspectRatio | color
| point | radius | uVelocity | uSource | dyeTexelSize | dt | dissipation
| uCurl | curl_strength | uPressure | uDivergence.

Scheme Equality for Prog.
Scheme Equality for UName.

(** The value of a uniform; a fresh program has all of them zero. *)
Inductive UVal :=
| U1i (n : Z)
| U1f (a : Q)
| U2f (a b : Q)
| U3f (a b c : Q).

Definition as_int (u : UVal) : Z := match u with U1i n => n | _ => 0%Z end.
Definition as_float (u : UVal) : Q := match u with U1f a => a | _ => 0 end.
Definition as_vec2 (u : UVal) : vec2 := match u with U2f a b => V2 a b | _ => V2 0 0 end.
Definition as_vec3 (u : UVal) : vec3 := match u with U3f a b c => V3 a b c | _ => V3 0 0 0 end.

(** What a fragment shader sees: the uniforms of its program and, for a
    sampler uniform holding a unit number, the texture bound to that unit. *)
Record Env := {
  uniform : UName -> UVal;
  texture_unit : Z -> GL.Image
}.

Definition texture2D (e : Env) (sam : UName) (uv : vec2) : vec4 :=
  GL.texture2D (texture_unit e (as_int (uniform e sam))) uv.

Record Varyings := { vUv : vec2; vL : vec2; vR : vec2; vT : vec2; vB : vec2 }.

Definition baseVertexShader (e : Env) (uv : vec2) : Varyings :=
  let ts := as_vec2 (uniform e texelSize) in
  {| vUv := uv;
     vL := v2sub uv (V2 (vx ts) 0);
     vR := v2add uv (V2 (vx ts) 0);
     vT := v2add uv (V2 0 (vy ts));
     vB := v2sub uv (V2 0 (vy ts)) |}.

Definition clearShader (e : Env) (v : Varyings) : vec4 :=
  v4scale (as_float (uniform e value)) (texture2D e uTexture (vUv v)).

Definition displayShader (e : Env) (v : Varyings) : vec4 :=
  let c := xyz (texture2D e uTexture (vUv v)) in
  let s := v3add c (as_vec3 (uniform e backColor)) in
  V4 (c_r s) (c_g s) (c_b s) 1.

(** The weight of the splat kernel at [uv]. *)
Definition splat_kernel `{Host} (ar : Q) (pt : vec2) (rad : Q) (uv : vec2) : Q :=
  let p := v2sub uv pt in
  let p := V2 (vx p * ar) (vy p) in
  glsl_exp ((- dot2 p p) / rad).

Definition splatShader `{Host} (e : Env) (v : Varyings) : vec4 :=
  let splat :=
    v3scale (splat_kernel (as_float (uniform e aspectRatio))
                          (as_vec2 (uniform e point))
                          (as_float (uniform e radius)) (vUv v))
            (as_vec3 (uniform e color)) in
  let base := xyz (texture2D e uTarget (vUv v)) in
  let s := v3add base splat in
  V4 (c_r s) (c_g s) (c_b s) 1.

(** The shader's own bilinear filter: four fetches at the centres of the
    cells of a grid of pitch [tsize], blended by the fractional position.
    The quotient [uv / tsize] is the shader's where neither component of
    [tsize] is zero; at a zero pitch GLSL gives no finite number, and the
    rational quotient, which is 0 there, stands for none. *)
Definition bilerp (sam : vec2 -> vec4) (uv tsize : vec2) : vec4 :=
  let st := v2subs (v2div uv tsize) (1#2) in
  let iuv := floor2 st in
  let fuv := fract2 st in
  let a := sam (v2mul (v2add iuv (V2 (1#2) (1#2))) tsize) in
  let b := sam (v2mul (v2add iuv (V2 (3#2) (1#2))) tsize) in
  let c := sam (v2mul (v2add iuv (V2 (1#2) (3#2))) tsize) in
  let d := sam (v2mul (v2add iuv (V2 (3#2) (3#2))) tsize) in
  mix4 (mix4 a b (vx fuv)) (mix4 c d (vx fuv)) (vy fuv).

(** The advection shader as a function of its inputs. *)
Definition advect (vel src : vec2 -> vec4) (ts dts : vec2) (dt_ diss : Q)
    (uv : vec2) : vec4 :=
  let coord := v2sub uv (v2mul (v2scale dt_ (xy (bilerp vel uv ts))) ts) in
  let result := bilerp src coord dts in
  let decay := 1 + diss * dt_ in
  v4divs result decay.

Definition advectionShader (e : Env) (v : Varyings) : vec4 :=
  advect (texture2D e uVelocity) (texture2D e uSource)
         (as_vec2 (uniform e texelSize)) (as_vec2 (uniform e dyeTexelSize))
         (as_float (uniform e dt)) (as_float (uniform e dissipation)) (vUv v).

Definition divergenceShader (e : Env) (v : Varyings) : vec4 :=
  let L := px (texture2D e uVelocity (vL v)) in
  let R := px (texture2D e uVelocity (vR v)) in
  let T := py (texture2D e uVelocity (vT v)) in
  let B := py (texture2D e uVelocity (vB v)) in
  let C := xy (texture2D e uVelocity (vUv v)) in
  let L := if Qltb (vx (vL v)) 0 then - vx C else L in
  let R := if Qltb 1 (vx (vR v)) then - vx C else R in
  let T := if Qltb 1 (vy (vT v)) then - vy C else T in
  let B := if Qltb (vy (vB v)) 0 then - vy C else B in
  let div := (1#2) * (R - L + T - B) in
  V4 div 0 0 1.

Definition curlShader (e : Env) (v : Varyings) : vec4 :=
  let L := py (texture2D e uVelocity (vL v)) in
  let R := py (texture2D e uVelocity (vR v)) in
  let T := px (texture2D e uVelocity (vT v)) in
  let B := px (texture2D e uVelocity (vB v)) in
  let vorticity := R - L - T + B in
  V4 ((1#2) * vorticity) 0 0 1.

Definition vorticityShader `{Host} (e : Env) (v : Varyings) : vec4 :=
  let L := px (texture2D e uCurl (vL v)) in
  let R := px (texture2D e uCurl (vR v)) in
  let T := px (texture2D e uCurl (vT v)) in
  let B := px (texture2D e uCurl (vB v)) in
  let C := px (texture2D e uCurl (vUv v)) in
  let force := v2scale (1#2) (V2 (Qabs T - Qabs B) (Qabs R - Qabs L)) in
  let len := glsl_sqrt (dot2 force force) + (1#10000) in
  let force := V2 (vx force / len) (vy force / len) in
  let k := as_float (uniform e curl_strength) * C in
  let force := V2 (vx force * k) (vy force * k) in
  let force := V2 (vx force) (vy force * (-1)) in
  let vel := xy (texture2D e uVelocity (vUv v)) in
  let d := as_float (uniform e dt) in
  V4 (vx vel + vx force * d) (vy vel + vy force * d) 0 1.

Definition pressureShader (e : Env) (v : Varyings) : vec4 :=
  let L := px (texture2D e uPressure (vL v)) in
  let R := px (texture2D e uPressure (vR v)) in
  let T := px (texture2D e uPressure (vT v)) in
  let B := px (texture2D e uPressure (vB v)) in
  let divergence := px (texture2D e uDivergence (vUv v)) in
  let pressure := (L + R + B + T - divergence) * (1#4) in
  V4 pressure 0 0 1.

Definition gradientSubtractShader (e : Env) (v : Varyings) : vec4 :=
  let L := px (texture2D e uPressure (vL v)) in
  let R := px (texture2D e uPressure (vR v)) in
  let T := px (texture2D e uPressure (vT v)) in
  let B := px (texture2D e uPressure (vB v)) in
  let velocity := xy (texture2D e uVelocity (vUv v)) in
  let velocity := v2sub velocity (V2 (R - L) (T - B)) in
  V4 (vx velocity) (vy velocity) 0 1.

Definition fragmentShader `{Host} (p : Prog) : Env -> Varyings -> vec4 :=
  match p with
  | clearProgram => clearShader
  | displayProgram => displayShader
  | splatProgram => splatShader
  | advectionProgram => advectionShader
  | divergenceProgram => divergenceShader
  | curlProgram => curlShader
  | vorticityProgram => vorticityShader
  | pressureProgram => pressureShader
  | gradientSubtractProgram => gradientSubtractShader
  end.

(* ------------------------------------------------------------------ *)
(** ** Capability negotiation *)

(** What the page's device offers.  [renderable i f t] is the answer of
    [checkFramebufferStatus] being [FRAMEBUFFER_COMPLETE] for a 4x4 texture
    of internal format [i], format [f] and type [t] attached to a fresh
    framebuffer. *)
Record Device := {
  webgl2 : bool;
  webgl1 : bool;
  OES_texture_float_linear : bool;
  OES_texture_half_float : bool;
  OES_texture_half_float_linear : bool;
  renderable : Z -> Z -> option Z -> bool
}.

Record Format := { internalFormat : Z; format : Z }.

Record Ext := {
  formatRGBA : option Format;
  formatRG : option Format;
  formatR : option Format;
  halfFloatTexType : option Z;
  supportLinearFiltering : bool
}.

(** The probe creates a 4x4 texture and a framebuffer, asks for the status
    and deletes both; only the answer is kept. *)
Definition supportRenderTextureFormat (d : Device) (internalFormat format : Z)
    (type : option Z) : bool :=
  renderable d internalFormat format type.

(** [gl.R16F] and [gl.RG16F] exist on a WebGL2 context only; on WebGL1 the
    [case] labels are [undefined] and match no number. *)
Definition is_R16F (d : Device) (i : Z) : bool := webgl2 d && (i =? GL.R16F)%Z.
Definition is_RG16F (d : Device) (i : Z) : bool := webgl2 d && (i =? GL.RG16F)%Z.

Definition format_rank (i : Z) : nat :=
  if (i =? GL.R16F)%Z then 2 else if (i =? GL.RG16F)%Z then 1 else 0.

Equations? getSupportedFormat (d : Device) (internalFormat format : Z)
    (type : option Z) : option Format by wf (format_rank internalFormat) lt :=
  getSupportedFormat d i f t with inspect (supportRenderTextureFormat d i f t) := {
    | exist _ true _ => Some {| internalFormat := i; format := f |}
    | exist _ false _ with inspect (is_R16F d i) := {
      | exist _ true _ => getSupportedFormat d GL.RG16F GL.RG t
      | exist _ false _ with inspect (is_RG16F d i) := {
        | exist _ true _ => getSupportedFormat d GL.RGBA16F GL.RGBA t
        | exist _ false _ => None } } }.
Proof.
  - unfold is_R16F in *. apply andb_prop in e0 as [_ e0].
    apply Z.eqb_eq in e0. subst. cbv. lia.
  - unfold is_RG16F in *. apply andb_prop in e1 as [_ e1].
    apply Z.eqb_eq in e1. subst. cbv. lia.
Qed.

(* ------------------------------------------------------------------ *)
(** ** The program state *)

Record GLState := {
  clearColor : vec4;
  textures : nat -> GL.Image;       (* texture objects, by name *)
  texture_count : nat;              (* names handed out so far *)
  activeTexture : Z;                (* active unit, as an offset from TEXTURE0 *)
  bound : Z -> nat;                 (* TEXTURE_2D binding of each unit *)
  framebuffer : option nat;         (* colour attachment of the bound
                                       framebuffer; None is the drawing buffer *)
  viewport : Z * Z;
  program : option Prog;
  uniforms : Prog -> UName -> UVal
}.

(** A render target as [createFBO] returns it.  A framebuffer object is
    named after the texture attached to it. *)
Record FBO := { texture : nat; fbo : nat; fbo_width : Z; fbo_height : Z }.

Record DoubleFBO := {
  d_width : Z;
  d_height : Z;
  texelSizeX : Q;
  texelSizeY : Q;
  read : FBO;
  write : FBO
}.

Record Canvas := {
  width : Z;
  height : Z;
  clientWidth : Z;
  clientHeight : Z;
  devicePixelRatio : Q;
  pointerEvents : option string;              (* canvas.style.pointerEvents *)
  presented : option (Z -> Z -> vec4)         (* what was last drawn on it *)
}.

Record Pointer := {
  id : Z;
  texcoordX : Q; texcoordY : Q;
  prevTexcoordX : Q; prevTexcoordY : Q;
  deltaX : Q; deltaY : Q;
  down : bool;
  moved : bool;
  pcolor : vec3
}.

Inductive Field := Fdye | Fvelocity | Fpressure.

(** Observable actions, in program order. *)
Inductive Event :=
| EvSplat (x y dx dy : Q) (c : vec3)       (* splat entered *)
| EvDraw (p : Prog) (target : option nat)  (* drawElements *)
| EvSwap (f : Field)
| EvMovedCleared                           (* p.moved = false *)
| EvInitFramebuffers
| EvUpdate
| EvAutoSplat
| EvStep
| EvRender
| EvRequestFrame.                          (* requestAnimationFrame(update) *)

(** The five module variables [dye, velocity, divergence, curl, pressure];
    [None] is [undefined]. *)
Record Pool := {
  dye : option DoubleFBO;
  velocity : option DoubleFBO;
  divergence : option FBO;
  curl : option FBO;
  pressure : option DoubleFBO
}.

Record State := {
  canvas : Canvas;
  gl : GLState;
  pool : Pool;
  pointer0 : Pointer;                (* pointers[0] *)
  autoSplatTimer : Q;
  lastTime : Z;
  colorTimer : Q;
  random_calls : nat;                (* draws taken from Math.random *)
  listeners : list string;           (* window.addEventListener *)
  log : list Event
}.

Definition upd {A} (f : nat -> A) (k : nat) (v : A) : nat -> A :=
  fun n => if Nat.eqb n k then v else f n.
Definition updZ {A} (f : Z -> A) (k : Z) (v : A) : Z -> A :=
  fun n => if (n =? k)%Z then v else f n.

Definition gl_with_textures t n (g : GLState) : GLState :=
  {| clearColor := clearColor g; textures := t; texture_count := n;
     activeTexture := activeTexture g; bound := bound g;
     framebuffer := framebuffer g; viewport := viewport g;
     program := program g; uniforms := uniforms g |}.
Definition gl_with_units a b (g : GLState) : GLState :=
  {| clearColor := clearColor g; textures := textures g;
     texture_count := texture_count g;
     activeTexture := a; bound := b;
     framebuffer := framebuffer g; viewport := viewport g;
     program := program g; uniforms := uniforms g |}.
Definition gl_with_target f v (g : GLState) : GLState :=
  {| clearColor := clearColor g; textures := textures g;
     texture_count := texture_count g;
     activeTexture := activeTexture g; bound := bound g;
     framebuffer := f; viewport := v;
     program := program g; uniforms := uniforms g |}.
Definition gl_with_program p u (g : GLState) : GLState :=
  {| clearColor := clearColor g; textures := textures g;
     texture_count := texture_count g;
     activeTexture := activeTexture g; bound := bound g;
     framebuffer := framebuffer g; viewport := viewport g;
     program := p; uniforms := u |}.
Definition gl_with_clearColor c (g : GLState) : GLState :=
  {| clearColor := c; textures := textures g;
     texture_count := texture_count g;
     activeTexture := activeTexture g; bound := bound g;
     framebuffer := framebuffer g; viewport := viewport g;
     program := program g; uniforms := uniforms g |}.

Definition with_gl g (s : State) : State :=
  {| canvas := canvas s; gl := g; pool := pool s; pointer0 := pointer0 s;
     autoSplatTimer := autoSplatTimer s; lastTime := lastTime s;
     colorTimer := colorTimer s; random_calls := random_calls s;
     listeners := listeners s; log := log s |}.
Definition with_canvas c (s : State) : State :=
  {| canvas := c; gl := gl s; pool := pool s; pointer0 := pointer0 s;
     autoSplatTimer := autoSplatTimer s; lastTime := lastTime s;
     colorTimer := colorTimer s; random_calls := random_calls s;
     listeners := listeners s; log := log s |}.
Definition with_pool p (s : State) : State :=
  {| canvas := canvas s; gl := gl s; pool := p; pointer0 := pointer0 s;
     autoSplatTimer := autoSplatTimer s; lastTime := lastTime s;
     colorTimer := colorTimer s; random_calls := random_calls s;
     listeners := listeners s; log := log s |}.
Definition with_pointer0 p (s : State) : State :=
  {| canvas := canvas s; gl := gl s; pool := pool s; pointer0 := p;
     autoSplatTimer := autoSplatTimer s; lastTime := lastTime s;
     colorTimer := colorTimer s; random_calls := random_calls s;
     listeners := listeners s; log := log s |}.
Definition with_timers a l c (s : State) : State :=
  {| canvas := canvas s; gl := gl s; pool := pool s; pointer0 := pointer0 s;
     autoSplatTimer := a; lastTime := l; colorTimer := c;
     random_calls := random_calls s;
     listeners := listeners s; log := log s |}.
Definition with_random_calls n (s : State) : State :=
  {| canvas := canvas s; gl := gl s; pool := pool s; pointer0 := pointer0 s;
     autoSplatTimer := autoSplatTimer s; lastTime := lastTime s;
     colorTimer := colorTimer s; random_calls := n;
     listeners := listeners s; log := log s |}.
Definition with_listeners l (s : State) : State :=
  {| canvas := canvas s; gl := gl s; pool := pool s; pointer0 := pointer0 s;
     autoSplatTimer := autoSplatTimer s; lastTime := lastTime s;
     colorTimer := colorTimer s; random_calls := random_calls s;
     listeners := l; log := log s |}.
Definition with_log l (s : State) : State :=
  {| canvas := canvas s; gl := gl s; pool := pool s; pointer0 := pointer0 s;
     autoSplatTimer := autoSplatTimer s; lastTime := lastTime s;
     colorTimer := colorTimer s; random_calls := random_calls s;
     listeners := listeners s; log := l |}.

Definition with_moved (b : bool) (p : Pointer) : Pointer :=
  {| id := id p; texcoordX := texcoordX p; texcoordY := texcoordY p;
     prevTexcoordX := prevTexcoordX p; prevTexcoordY := prevTexcoordY p;
     deltaX := deltaX p; deltaY := deltaY p; down := down p;
     moved := b; pcolor := pcolor p |}.
Definition with_pcolor (c : vec3) (p : Pointer) : Pointer :=
  {| id := id p; texcoordX := texcoordX p; texcoordY := texcoordY p;
     prevTexcoordX := prevTexcoordX p; prevTexcoordY := prevTexcoordY p;
     deltaX := deltaX p; deltaY := deltaY p; down := down p;
     moved := moved p; pcolor := c |}.

(** *** A state and exception monad *)

Inductive JsError := TypeError (what : string).

Inductive Outcome (A : Type) :=
| Ok (a : A) (s : State)
| Throw (e : JsError) (s : State).
Arguments Ok {A} a s.
Arguments Throw {A} e s.

Definition M (A : Type) := State -> Outcome A.

Definition ret {A} (a : A) : M A := fun s => Ok a s.
Definition bind {A B} (m : M A) (k : A -> M B) : M B :=
  fun s => match m s with
           | Ok a s' => k a s'
           | Throw e s' => Throw e s'
           end.
Definition throw {A} (e : JsError) : M A := fun s => Throw e s.
Definition gets {A} (f : State -> A) : M A := fun s => Ok (f s) s.
Definition modify (f : State -> State) : M unit := fun s => Ok tt (f s).

Declare Scope js_scope.
Delimit Scope js_scope with js.
Notation "x <- m ;; k" := (bind m (fun x => k))
  (at level 61, m at next level, right associativity) : js_scope.
Notation "m ;; k" := (bind m (fun _ => k))
  (at level 61, right associativity) : js_scope.
Open Scope js_scope.

Definition final {A} (o : Outcome A) : State :=
  match o with Ok _ s => s | Throw _ s => s end.
Definition returns {A} (o : Outcome A) : bool :=
  match o with Ok _ _ => true | Throw _ _ => false end.

Definition emit (e : Event) : M unit :=
  modify (fun s => with_log (log s ++ [e]) s).
Definition modify_gl (f : GLState -> GLState) : M unit :=
  modify (fun s => with_gl (f (gl s)) s).

(** [when c m]: an [if] without [else]. *)
Definition when (c : bool) (m : M unit) : M unit := if c then m else ret tt.

(** [for (let i = 0; i < n; i++) body]. *)
Fixpoint repeatM (k : nat) (body : M unit) : M unit :=
  match k with
  | O => ret tt
  | S k' => body ;; repeatM k' body
  end.
Definition for_lt (n : Z) (body : M unit) : M unit := repeatM (Z.to_nat n) body.

(** *** The WebGL calls the program makes *)

Definition image_with_texels (t : Z -> Z -> vec4) (im : GL.Image) : GL.Image :=
  {| GL.img_w := GL.img_w im; GL.img_h := GL.img_h im;
     GL.img_ifmt := GL.img_ifmt im; GL.img_filter := GL.img_filter im;
     GL.img_texel := t |}.
Definition image_with_filter (f : Z) (im : GL.Image) : GL.Image :=
  {| GL.img_w := GL.img_w im; GL.img_h := GL.img_h im;
     GL.img_ifmt := GL.img_ifmt im; GL.img_filter := f;
     GL.img_texel := GL.img_texel im |}.

Definition current_texture (g : GLState) : nat := bound g (activeTexture g).

Definition gl_activeTexture (n : Z) : M unit :=
  modify_gl (fun g => gl_with_units n (bound g) g).

Definition gl_createTexture : M nat :=
  n <- gets (fun s => texture_count (gl s)) ;;
  modify_gl (fun g => gl_with_textures (textures g) (S n) g) ;;
  ret n.

Definition gl_bindTexture (t : nat) : M unit :=
  modify_gl (fun g => gl_with_units (activeTexture g)
                        (updZ (bound g) (activeTexture g) t) g).

(** [texParameteri] for TEXTURE_MIN_FILTER and TEXTURE_MAG_FILTER, always
    set together and to the same filter. *)
Definition gl_texParameteri_filter (f : Z) : M unit :=
  modify_gl (fun g =>
    let t := current_texture g in
    gl_with_textures (upd (textures g) t (image_with_filter f (textures g t)))
                     (texture_count g) g).

(** [texImage2D(TEXTURE_2D, 0, internalFormat, w, h, 0, format, type, null)]:
    a new image, which WebGL fills with zeros. *)
Definition gl_texImage2D (internalFormat w h : Z) : M unit :=
  modify_gl (fun g =>
    let t := current_texture g in
    gl_with_textures
      (upd (textures g) t
         {| GL.img_w := w; GL.img_h := h; GL.img_ifmt := internalFormat;
            GL.img_filter := GL.img_filter (textures g t);
            GL.img_texel := fun _ _ => V4 0 0 0 0 |})
      (texture_count g) g).

(** [createFramebuffer], [bindFramebuffer] and [framebufferTexture2D] of the
    texture as COLOR_ATTACHMENT0; the framebuffer takes the texture's name. *)
Definition gl_createFramebuffer_for (t : nat) : M nat :=
  modify_gl (fun g => gl_with_target (Some t) (viewport g) g) ;;
  ret t.

Definition gl_bindFramebuffer (f : option nat) : M unit :=
  modify_gl (fun g => gl_with_target f (viewport g) g).

Definition gl_viewport (w h : Z) : M unit :=
  modify_gl (fun g => gl_with_target (framebuffer g) (w, h) g).

(** [clear(COLOR_BUFFER_BIT)]: every texel of the attachment takes the clear
    colour (no scissor, no colour mask is ever set). *)
Definition gl_clear : M unit :=
  modify_gl (fun g =>
    match framebuffer g with
    | Some t =>
        gl_with_textures
          (upd (textures g) t
               (image_with_texels (fun _ _ => clearColor g) (textures g t)))
          (texture_count g) g
    | None => g
    end).

Definition gl_useProgram (p : Prog) : M unit :=
  modify_gl (fun g => gl_with_program (Some p) (uniforms g) g).

(** [gl.uniform*(location, ...)]: a location belongs to a program, and the
    call only acts on the program in use. *)
Definition gl_uniform (p : Prog) (u : UName) (v : UVal) : M unit :=
  modify_gl (fun g =>
    match program g with
    | Some q =>
        if Prog_beq p q
        then gl_with_program (program g)
               (fun p' u' => if Prog_beq p' p && UName_beq u' u then v
                             else uniforms g p' u') g
        else g
    | None => g
    end).

(** The colour the program in use writes at pixel [(i, j)] of a [w] by [h]
    viewport. *)
Definition fragment_at `{Host} (g : GLState) (p : Prog) (w h i j : Z) : vec4 :=
  let e := {| uniform := uniforms g p;
              texture_unit := fun u => textures g (bound g u) |} in
  fragmentShader p e (baseVertexShader e (GL.pixel_uv w h i j)).

(** The attachment [t] after the full-screen quad was drawn over a [w] by
    [h] viewport: the pixels of the viewport take the fragment colours, which
    are computed from the textures as they were before the draw. *)
Definition draw_texture `{Host} (g : GLState) (p : Prog) (t : nat) (w h : Z)
    : GLState :=
  gl_with_textures
    (upd (textures g) t
       (image_with_texels
          (fun i j => if GL.in_viewport w h i j
                      then fragment_at g p w h i j
                      else GL.img_texel (textures g t) i j)
          (textures g t)))
    (texture_count g) g.

Definition present (img : Z -> Z -> vec4) (c : Canvas) : Canvas :=
  {| width := width c; height := height c;
     clientWidth := clientWidth c; clientHeight := clientHeight c;
     devicePixelRatio := devicePixelRatio c;
     pointerEvents := pointerEvents c;
     presented := Some img |}.

(** [drawElements] of the full-screen quad. *)
Definition gl_drawElements `{Host} : M unit :=
  g <- gets gl ;;
  match program g with
  | None => ret tt
  | Some p =>
      emit (EvDraw p (framebuffer g)) ;;
      let (w, h) := viewport g in
      match framebuffer g with
      | Some t => modify_gl (fun _ => draw_texture g p t w h)
      | None =>
          modify (fun s =>
            with_canvas (present (fun i j => fragment_at g p w h i j) (canvas s)) s)
      end
  end.

(* ------------------------------------------------------------------ *)
(** ** The module [fluid.js] *)

Record Config := {
  SIM_RESOLUTION : Q;
  DYE_RESOLUTION : Q;
  DENSITY_DISSIPATION : Q;
  VELOCITY_DISSIPATION : Q;
  PRESSURE : Q;
  PRESSURE_ITERATIONS : Z;
  CURL : Q;
  SPLAT_RADIUS : Q;
  SPLAT_FORCE : Q;
  COLOR_UPDATE_SPEED : Q;
  BACK_COLOR : vec3
}.

(** The table of the source. *)
Definition config : Config :=
  {| SIM_RESOLUTION := 128;
     DYE_RESOLUTION := 1024;
     DENSITY_DISSIPATION := 15#10;
     VELOCITY_DISSIPATION := 6#10;
     PRESSURE := 8#10;
     PRESSURE_ITERATIONS := 20;
     CURL := 30;
     SPLAT_RADIUS := 3#10;
     SPLAT_FORCE := 6000;
     COLOR_UPDATE_SPEED := 10;
     BACK_COLOR := V3 (2#100) (2#100) (2#100) |}.

Definition PALETTE : list vec3 :=
  [ V3 0 (91#100) (43#100);
    V3 0 (7#10) (35#100);
    V3 0 (55#100) (28#100);
    V3 (8#100) (95#100) (55#100);
    V3 0 (4#10) (2#10) ].

Definition random `{Host} : M Q :=
  n <- gets random_calls ;;
  modify (with_random_calls (S n)) ;;
  ret (Math_random n).

Definition getRandomColor `{Host} : M vec3 :=
  r <- random ;;
  let k := Math_floor (r * inject_Z (Z.of_nat (List.length PALETTE))) in
  if (k <? 0)%Z then throw (TypeError "c is undefined")
  else match nth_error PALETTE (Z.to_nat k) with
       | Some c => ret (V3 (c_r c * (25#100)) (c_g c * (25#100)) (c_b c * (25#100)))
       | None => throw (TypeError "c is undefined")
       end.

(** *** WebGL setup *)

Record Context := { ctx_gl : GLState; ctx_ext : Ext }.

Definition blank_image : GL.Image :=
  {| GL.img_w := 0; GL.img_h := 0; GL.img_ifmt := GL.RGBA;
     GL.img_filter := GL.NEAREST; GL.img_texel := fun _ _ => V4 0 0 0 0 |}.

(** A context as [getContext] hands it out. *)
Definition fresh_gl : GLState :=
  {| clearColor := V4 0 0 0 0;
     textures := fun _ => blank_image;
     texture_count := 1;
     activeTexture := 0;
     bound := fun _ => O;
     framebuffer := None;
     viewport := (0%Z, 0%Z);
     program := None;
     uniforms := fun _ _ => U1i 0 |}.

Definition getWebGLContext (d : Device) : option Context :=
  let isWebGL2 := webgl2 d in
  if negb (isWebGL2 || webgl1 d) then None
  else
    let supportLinearFiltering :=
      if isWebGL2 then OES_texture_float_linear d
      else OES_texture_half_float_linear d in
    let g := gl_with_clearColor (V4 0 0 0 1) fresh_gl in
    let halfFloatTexType :=
      if isWebGL2 then Some GL.HALF_FLOAT
      else if OES_texture_half_float d then Some GL.HALF_FLOAT_OES else None in
    let formatRGBA :=
      if isWebGL2 then getSupportedFormat d GL.RGBA16F GL.RGBA halfFloatTexType
      else getSupportedFormat d GL.RGBA GL.RGBA halfFloatTexType in
    let formatRG :=
      if isWebGL2 then getSupportedFormat d GL.RG16F GL.RG halfFloatTexType
      else formatRGBA in
    let formatR :=
      if isWebGL2 then getSupportedFormat d GL.R16F GL.RED halfFloatTexType
      else formatRGBA in
    Some {| ctx_gl := g;
            ctx_ext := {| formatRGBA := formatRGBA; formatRG := formatRG;
                          formatR := formatR;
                          halfFloatTexType := halfFloatTexType;
                          supportLinearFiltering := supportLinearFiltering |} |}.

(** Assigning [canvas.width] or [canvas.height] also resets its bitmap. *)
Definition canvas_with_size (w h : Z) (c : Canvas) : Canvas :=
  {| width := w; height := h;
     clientWidth := clientWidth c; clientHeight := clientHeight c;
     devicePixelRatio := devicePixelRatio c;
     pointerEvents := pointerEvents c; presented := None |}.
Definition canvas_with_pointerEvents (v : string) (c : Canvas) : Canvas :=
  {| width := width c; height := height c;
     clientWidth := clientWidth c; clientHeight := clientHeight c;
     devicePixelRatio := devicePixelRatio c;
     pointerEvents := Some v; presented := presented c |}.

(** [Math.min(window.devicePixelRatio || 1, 2)]. *)
Definition pixel_ratio (c : Canvas) : Q :=
  Math_min (if Qeq_bool (devicePixelRatio c) 0 then 1 else devicePixelRatio c) 2.

(** The client size in device pixels, [Math.floor(canvas.clientWidth * dpr)]
    and the same for the height. *)
Definition client_pixels (c : Canvas) : Z * Z :=
  (Math_floor (inject_Z (clientWidth c) * pixel_ratio c),
   Math_floor (inject_Z (clientHeight c) * pixel_ratio c)).

Definition resizeCanvas : M bool :=
  c <- gets canvas ;;
  let (w, h) := client_pixels c in
  if negb (width c =? w)%Z || negb (height c =? h)%Z then
    modify (fun s => with_canvas (canvas_with_size w h (canvas s)) s) ;;
    ret true
  else ret false.

Record Resolution := { res_width : Z; res_height : Z }.

(** The aspect ratio of [getResolution], for a drawing buffer of [W] by
    [H]: a quotient of doubles, replaced by its reciprocal, a second
    rounding, when it is below 1. *)
Definition buffer_aspectRatio (W H : Z) : float :=
  let aspectRatio := (Number_of_Z W / Number_of_Z H)%float in
  if (aspectRatio <? 1)%float then (1 / aspectRatio)%float else aspectRatio.

(** The body of [getResolution], for a drawing buffer of [W] by [H].  The
    product is a double as well; [Math.round] is exact on it. *)
Definition resolution_for (W H : Z) (resolution : Q) : Resolution :=
  let resolution := Number_of_Q resolution in
  let aspectRatio := buffer_aspectRatio W H in
  let min := Math_round (Number_value resolution) in
  let max := Math_round (Number_value (resolution * aspectRatio)%float) in
  if (W >? H)%Z
  then {| res_width := max; res_height := min |}
  else {| res_width := min; res_height := max |}.

(** [gl.drawingBufferWidth] and [gl.drawingBufferHeight] are the canvas's
    [width] and [height]. *)
Definition getResolution (resolution : Q) : M Resolution :=
  c <- gets canvas ;;
  ret (resolution_for (width c) (height c) resolution).

Definition swap (d : DoubleFBO) : DoubleFBO :=
  {| d_width := d_width d; d_height := d_height d;
     texelSizeX := texelSizeX d; texelSizeY := texelSizeY d;
     read := write d; write := read d |}.

Definition pool_with_dye v (p : Pool) : Pool :=
  {| dye := v; velocity := velocity p; divergence := divergence p;
     curl := curl p; pressure := pressure p |}.
Definition pool_with_velocity v (p : Pool) : Pool :=
  {| dye := dye p; velocity := v; divergence := divergence p;
     curl := curl p; pressure := pressure p |}.
Definition pool_with_divergence v (p : Pool) : Pool :=
  {| dye := dye p; velocity := velocity p; divergence := v;
     curl := curl p; pressure := pressure p |}.
Definition pool_with_curl v (p : Pool) : Pool :=
  {| dye := dye p; velocity := velocity p; divergence := divergence p;
     curl := v; pressure := pressure p |}.
Definition pool_with_pressure v (p : Pool) : Pool :=
  {| dye := dye p; velocity := velocity p; divergence := divergence p;
     curl := curl p; pressure := v |}.

(** Reading a property of a module variable that is still [undefined]
    throws. *)
Definition deref {A} (name : string) (f : Pool -> option A) : M A :=
  fun s => match f (pool s) with
           | Some v => Ok v s
           | None => Throw (TypeError name) s
           end.

Definition the_dye : M DoubleFBO := deref "dye" dye.
Definition the_velocity : M DoubleFBO := deref "velocity" velocity.
Definition the_divergence : M FBO := deref "divergence" divergence.
Definition the_curl : M FBO := deref "curl" curl.
Definition the_pressure : M DoubleFBO := deref "pressure" pressure.

Definition assign (f : Pool -> Pool) : M unit :=
  modify (fun s => with_pool (f (pool s)) s).

Definition dye_swap : M unit :=
  d <- the_dye ;; assign (pool_with_dye (Some (swap d))) ;; emit (EvSwap Fdye).
Definition velocity_swap : M unit :=
  d <- the_velocity ;; assign (pool_with_velocity (Some (swap d))) ;;
  emit (EvSwap Fvelocity).
Definition pressure_swap : M unit :=
  d <- the_pressure ;; assign (pool_with_pressure (Some (swap d))) ;;
  emit (EvSwap Fpressure).

(** The [attach] method of a render target. *)
Definition attach (t : FBO) (n : Z) : M Z :=
  gl_activeTexture n ;;
  gl_bindTexture (texture t) ;;
  ret n.

Section Fluid.
Context `{Host}.
Variable cfg : Config.
Variable ext : Ext.

Definition blit (target : option FBO) : M unit :=
  match target with
  | None =>
      c <- gets canvas ;;
      gl_viewport (width c) (height c) ;;
      gl_bindFramebuffer None
  | Some t =>
      gl_viewport (fbo_width t) (fbo_height t) ;;
      gl_bindFramebuffer (Some (fbo t))
  end ;;
  gl_drawElements.

(** *** Framebuffers *)

Definition createFBO (w h internalFormat format : Z) (type : option Z)
    (filtering : Z) : M FBO :=
  gl_activeTexture 0 ;;
  texture <- gl_createTexture ;;
  gl_bindTexture texture ;;
  gl_texParameteri_filter filtering ;;
  gl_texImage2D internalFormat w h ;;
  fbo <- gl_createFramebuffer_for texture ;;
  gl_viewport w h ;;
  gl_clear ;;
  ret {| texture := texture; fbo := fbo; fbo_width := w; fbo_height := h |}.

Definition createDoubleFBO (w h internalFormat format : Z) (type : option Z)
    (filtering : Z) : M DoubleFBO :=
  fbo1 <- createFBO w h internalFormat format type filtering ;;
  fbo2 <- createFBO w h internalFormat format type filtering ;;
  ret {| d_width := w; d_height := h;
         texelSizeX := 1 / inject_Z w;
         texelSizeY := 1 / inject_Z h;
         read := fbo1; write := fbo2 |}.

Definition initFramebuffers : M unit :=
  emit EvInitFramebuffers ;;
  simRes <- getResolution (SIM_RESOLUTION cfg) ;;
  dyeRes <- getResolution (DYE_RESOLUTION cfg) ;;
  let texType := halfFloatTexType ext in
  let filtering := if supportLinearFiltering ext then GL.LINEAR else GL.NEAREST in
  match formatRGBA ext, formatRG ext with
  | Some rgba, Some rg =>
      d <- createDoubleFBO (res_width dyeRes) (res_height dyeRes)
             (internalFormat rgba) (format rgba) texType filtering ;;
      assign (pool_with_dye (Some d)) ;;
      v <- createDoubleFBO (res_width simRes) (res_height simRes)
             (internalFormat rg) (format rg) texType filtering ;;
      assign (pool_with_velocity (Some v)) ;;
      match formatR ext with
      | None => throw (TypeError "r")
      | Some r =>
          dv <- createFBO (res_width simRes) (res_height simRes)
                  (internalFormat r) (format r) texType GL.NEAREST ;;
          assign (pool_with_divergence (Some dv)) ;;
          c <- createFBO (res_width simRes) (res_height simRes)
                 (internalFormat r) (format r) texType GL.NEAREST ;;
          assign (pool_with_curl (Some c)) ;;
          p <- createDoubleFBO (res_width simRes) (res_height simRes)
                 (internalFormat r) (format r) texType GL.NEAREST ;;
          assign (pool_with_pressure (Some p))
      end
  | _, _ => ret tt
  end.

(** *** Pointer tracking *)

Definition correctDeltaX (delta : Q) : M Q :=
  c <- gets canvas ;;
  let aspectRatio := inject_Z (width c) / inject_Z (height c) in
  ret (if Qltb aspectRatio 1 then delta * aspectRatio else delta).

Definition correctDeltaY (delta : Q) : M Q :=
  c <- gets canvas ;;
  let aspectRatio := inject_Z (width c) / inject_Z (height c) in
  ret (if Qltb 1 aspectRatio then delta / aspectRatio else delta).

(** The body shared by the [pointermove] and [touchmove] listeners. *)
Definition pointer_moved_to (clientX clientY : Q) : M unit :=
  c <- gets canvas ;;
  p <- gets pointer0 ;;
  let tx := clientX / inject_Z (clientWidth c) in
  let ty := 1 - clientY / inject_Z (clientHeight c) in
  dx <- correctDeltaX (tx - texcoordX p) ;;
  dy <- correctDeltaY (ty - texcoordY p) ;;
  modify (with_pointer0
    {| id := id p; texcoordX := tx; texcoordY := ty;
       prevTexcoordX := texcoordX p; prevTexcoordY := texcoordY p;
       deltaX := dx; deltaY := dy; down := true;
       moved := Qltb 0 (Qabs dx) || Qltb 0 (Qabs dy);
       pcolor := pcolor p |}).

Definition on_pointermove (clientX clientY : Q) : M unit :=
  pointer_moved_to clientX clientY.

(** [e.touches[0]] of an empty list is [undefined]: the listener stores the
    previous coordinates and then throws at [touch.clientX]. *)
Definition on_touchmove (touches : list (Q * Q)) : M unit :=
  match touches with
  | [] =>
      modify (fun s =>
        let p := pointer0 s in
        with_pointer0
          {| id := id p; texcoordX := texcoordX p; texcoordY := texcoordY p;
             prevTexcoordX := texcoordX p; prevTexcoordY := texcoordY p;
             deltaX := deltaX p; deltaY := deltaY p; down := down p;
             moved := moved p; pcolor := pcolor p |} s) ;;
      throw (TypeError "touch")
  | (clientX, clientY) :: _ => pointer_moved_to clientX clientY
  end.

(** *** Splats *)

Definition correctRadius (radius : Q) : M Q :=
  c <- gets canvas ;;
  let aspectRatio := inject_Z (width c) / inject_Z (height c) in
  ret (if Qltb 1 aspectRatio then radius * aspectRatio else radius).

Definition splat (x y dx dy : Q) (color_ : vec3) : M unit :=
  emit (EvSplat x y dx dy color_) ;;
  gl_useProgram splatProgram ;;
  v <- the_velocity ;;
  n <- attach (read v) 0 ;;
  gl_uniform splatProgram uTarget (U1i n) ;;
  c <- gets canvas ;;
  gl_uniform splatProgram aspectRatio
    (U1f (inject_Z (width c) / inject_Z (height c))) ;;
  gl_uniform splatProgram point (U2f x y) ;;
  gl_uniform splatProgram color
    (U3f (dx * SPLAT_FORCE cfg) (dy * SPLAT_FORCE cfg) 0) ;;
  r <- correctRadius (SPLAT_RADIUS cfg / 100) ;;
  gl_uniform splatProgram radius (U1f r) ;;
  v <- the_velocity ;;
  blit (Some (write v)) ;;
  velocity_swap ;;
  d <- the_dye ;;
  n <- attach (read d) 0 ;;
  gl_uniform splatProgram uTarget (U1i n) ;;
  gl_uniform splatProgram color (U3f (c_r color_) (c_g color_) (c_b color_)) ;;
  d <- the_dye ;;
  blit (Some (write d)) ;;
  dye_swap.

Definition autoSplat (dt_ : Q) : M unit :=
  emit EvAutoSplat ;;
  modify (fun s => with_timers (autoSplatTimer s + dt_) (lastTime s)
                               (colorTimer s) s) ;;
  t <- gets autoSplatTimer ;;
  when (Qltb (4#10) t)
    (modify (fun s => with_timers 0 (lastTime s) (colorTimer s) s) ;;
     x <- random ;;
     y <- random ;;
     r1 <- random ;;
     let dx := (r1 - (1#2)) * (3#10000) in
     r2 <- random ;;
     let dy := (r2 - (1#2)) * (3#10000) in
     c <- getRandomColor ;;
     splat x y dx dy c).

(** *** The simulation step, one definition per block of [step] *)

Definition step_curl : M unit :=
  gl_useProgram curlProgram ;;
  v <- the_velocity ;;
  gl_uniform curlProgram texelSize (U2f (texelSizeX v) (texelSizeY v)) ;;
  v <- the_velocity ;;
  n <- attach (read v) 0 ;;
  gl_uniform curlProgram uVelocity (U1i n) ;;
  c <- the_curl ;;
  blit (Some c).

Definition step_vorticity (dt_ : Q) : M unit :=
  gl_useProgram vorticityProgram ;;
  v <- the_velocity ;;
  gl_uniform vorticityProgram texelSize (U2f (texelSizeX v) (texelSizeY v)) ;;
  v <- the_velocity ;;
  n <- attach (read v) 0 ;;
  gl_uniform vorticityProgram uVelocity (U1i n) ;;
  c <- the_curl ;;
  n <- attach c 1 ;;
  gl_uniform vorticityProgram uCurl (U1i n) ;;
  gl_uniform vorticityProgram curl_strength (U1f (CURL cfg)) ;;
  gl_uniform vorticityProgram dt (U1f dt_) ;;
  v <- the_velocity ;;
  blit (Some (write v)) ;;
  velocity_swap.

Definition step_divergence : M unit :=
  gl_useProgram divergenceProgram ;;
  v <- the_velocity ;;
  gl_uniform divergenceProgram texelSize (U2f (texelSizeX v) (texelSizeY v)) ;;
  v <- the_velocity ;;
  n <- attach (read v) 0 ;;
  gl_uniform divergenceProgram uVelocity (U1i n) ;;
  d <- the_divergence ;;
  blit (Some d).

Definition step_clear_pressure : M unit :=
  gl_useProgram clearProgram ;;
  p <- the_pressure ;;
  n <- attach (read p) 0 ;;
  gl_uniform clearProgram uTexture (U1i n) ;;
  gl_uniform clearProgram value (U1f (PRESSURE cfg)) ;;
  p <- the_pressure ;;
  blit (Some (write p)) ;;
  pressure_swap.

(** One turn of the Jacobi loop. *)
Definition pressure_iteration : M unit :=
  p <- the_pressure ;;
  n <- attach (read p) 1 ;;
  gl_uniform pressureProgram uPressure (U1i n) ;;
  p <- the_pressure ;;
  blit (Some (write p)) ;;
  pressure_swap.

Definition step_pressure_solve : M unit :=
  gl_useProgram pressureProgram ;;
  v <- the_velocity ;;
  gl_uniform pressureProgram texelSize (U2f (texelSizeX v) (texelSizeY v)) ;;
  d <- the_divergence ;;
  n <- attach d 0 ;;
  gl_uniform pressureProgram uDivergence (U1i n) ;;
  for_lt (PRESSURE_ITERATIONS cfg) pressure_iteration.

Definition step_gradient_subtract : M unit :=
  gl_useProgram gradientSubtractProgram ;;
  v <- the_velocity ;;
  gl_uniform gradientSubtractProgram texelSize
    (U2f (texelSizeX v) (texelSizeY v)) ;;
  p <- the_pressure ;;
  n <- attach (read p) 0 ;;
  gl_uniform gradientSubtractProgram uPressure (U1i n) ;;
  v <- the_velocity ;;
  n <- attach (read v) 1 ;;
  gl_uniform gradientSubtractProgram uVelocity (U1i n) ;;
  v <- the_velocity ;;
  blit (Some (write v)) ;;
  velocity_swap.

Definition step_advect_velocity (dt_ : Q) : M unit :=
  gl_useProgram advectionProgram ;;
  v <- the_velocity ;;
  gl_uniform advectionProgram texelSize (U2f (texelSizeX v) (texelSizeY v)) ;;
  when (negb (supportLinearFiltering ext))
    (v <- the_velocity ;;
     gl_uniform advectionProgram dyeTexelSize
       (U2f (texelSizeX v) (texelSizeY v))) ;;
  v <- the_velocity ;;
  velocityId <- attach (read v) 0 ;;
  gl_uniform advectionProgram uVelocity (U1i velocityId) ;;
  gl_uniform advectionProgram uSource (U1i velocityId) ;;
  gl_uniform advectionProgram dt (U1f dt_) ;;
  gl_uniform advectionProgram dissipation (U1f (VELOCITY_DISSIPATION cfg)) ;;
  v <- the_velocity ;;
  blit (Some (write v)) ;;
  velocity_swap.

Definition step_advect_dye : M unit :=
  d <- the_dye ;;
  gl_uniform advectionProgram dyeTexelSize (U2f (texelSizeX d) (texelSizeY d)) ;;
  v <- the_velocity ;;
  n <- attach (read v) 0 ;;
  gl_uniform advectionProgram uVelocity (U1i n) ;;
  d <- the_dye ;;
  n <- attach (read d) 1 ;;
  gl_uniform advectionProgram uSource (U1i n) ;;
  gl_uniform advectionProgram dissipation (U1f (DENSITY_DISSIPATION cfg)) ;;
  d <- the_dye ;;
  blit (Some (write d)) ;;
  dye_swap.

(** [gl.disable(gl.BLEND)] has no state here: blending is never enabled. *)
Definition step (dt_ : Q) : M unit :=
  emit EvStep ;;
  step_curl ;;
  step_vorticity dt_ ;;
  step_divergence ;;
  step_clear_pressure ;;
  step_pressure_solve ;;
  step_gradient_subtract ;;
  step_advect_velocity dt_ ;;
  step_advect_dye.

Definition render (target : option FBO) : M unit :=
  emit EvRender ;;
  gl_useProgram displayProgram ;;
  gl_uniform displayProgram backColor
    (U3f (c_r (BACK_COLOR cfg)) (c_g (BACK_COLOR cfg)) (c_b (BACK_COLOR cfg))) ;;
  d <- the_dye ;;
  n <- attach (read d) 0 ;;
  gl_uniform displayProgram uTexture (U1i n) ;;
  blit target.

(** *** The animation loop *)

(** One call of [update], [now] being what [Date.now()] returns in it. *)
Definition update (now : Z) : M unit :=
  emit EvUpdate ;;
  last <- gets lastTime ;;
  let dt_ := inject_Z (now - last) / 1000 in
  let dt_ := Math_min dt_ (16667#1000000) in
  modify (fun s => with_timers (autoSplatTimer s) now (colorTimer s) s) ;;
  resized <- resizeCanvas ;;
  when resized initFramebuffers ;;
  p <- gets pointer0 ;;
  when (moved p)
    (modify (fun s => with_pointer0 (with_moved false (pointer0 s)) s) ;;
     emit EvMovedCleared ;;
     modify (fun s => with_timers (autoSplatTimer s) (lastTime s)
                        (colorTimer s + dt_ * COLOR_UPDATE_SPEED cfg) s) ;;
     c <- getRandomColor ;;
     modify (fun s => with_pointer0 (with_pcolor c (pointer0 s)) s) ;;
     p <- gets pointer0 ;;
     splat (texcoordX p) (texcoordY p) (deltaX p) (deltaY p) (pcolor p)) ;;
  autoSplat dt_ ;;
  step dt_ ;;
  render None ;;
  emit EvRequestFrame.

(** One turn of the loop [for (let i = 0; i < 4; i++)] of initial splats. *)
Definition initial_splat : M unit :=
  c <- getRandomColor ;;
  x <- random ;;
  y <- random ;;
  r1 <- random ;;
  let dx := (r1 - (1#2)) * (1#1000) in
  r2 <- random ;;
  let dy := (r2 - (1#2)) * (1#1000) in
  splat x y dx dy c.

(** The module body from [resizeCanvas()] up to the call of [update], the
    context being there; [t0] is the clock when [lastTime] is
    initialised. *)
Definition module_init (t0 : Z) : M unit :=
  resizeCanvas ;;
  initFramebuffers ;;
  modify (fun s => with_canvas (canvas_with_pointerEvents "none" (canvas s)) s) ;;
  modify (fun s => with_listeners (listeners s ++ ["pointermove"%string]) s) ;;
  modify (fun s => with_listeners (listeners s ++ ["touchmove"%string]) s) ;;
  modify (fun s => with_timers 0 t0 0 s) ;;
  for_lt 4 initial_splat.

(** The module body, [t1] being the clock in the first call of [update]. *)
Definition module_body (t0 t1 : Z) : M unit :=
  module_init t0 ;;
  update t1.
End Fluid.

Definition initial_pointer : Pointer :=
  {| id := -1; texcoordX := 0; texcoordY := 0;
     prevTexcoordX := 0; prevTexcoordY := 0;
     deltaX := 0; deltaY := 0; down := false; moved := false;
     pcolor := V3 0 0 0 |}.

Definition no_pool : Pool :=
  {| dye := None; velocity := None; divergence := None; curl := None;
     pressure := None |}.

Definition initial_state (c : Canvas) (g : GLState) : State :=
  {| canvas := c; gl := g; pool := no_pool; pointer0 := initial_pointer;
     autoSplatTimer := 0; lastTime := 0; colorTimer := 0;
     random_calls := 0; listeners := []; log := [] |}.

(** The whole module run on a page whose canvas is [c], on device [d].  The
    shaders are taken to compile and link.  Without a context the module
    returns at once and the page is as it was. *)
Definition main `{Host} (cfg : Config) (d : Device) (c : Canvas) (t0 t1 : Z)
    : Outcome unit :=
  match getWebGLContext d with
  | None => Ok tt (initial_state c fresh_gl)
  | Some ctx =>
      module_body cfg (ctx_ext ctx) t0 t1 (initial_state c (ctx_gl ctx))
  end.

(* ------------------------------------------------------------------ *)
(** ** The vocabulary of the properties *)

Definition random_in_range (H : Host) : Prop :=
  forall n, 0 <= Math_random n /\ Math_random n < 1.

Definition cleared (w h i filt : Z) (c : vec4) : GL.Image :=
  {| GL.img_w := w; GL.img_h := h; GL.img_ifmt := i; GL.img_filter := filt;
     GL.img_texel := fun _ _ => c |}.

Definition target (n : nat) (w h : Z) : FBO :=
  {| texture := n; fbo := n; fbo_width := w; fbo_height := h |}.

Definition double_target (n : nat) (w h : Z) : DoubleFBO :=
  {| d_width := w; d_height := h;
     texelSizeX := 1 / inject_Z w; texelSizeY := 1 / inject_Z h;
     read := target n w h; write := target (S n) w h |}.

(** A double target of the pool and its two textures agree: each target is
    attached to its own texture, the two textures differ, and both have the
    target's size and store at least [n] channels. *)
Record double_ok (g : GLState) (d : DoubleFBO) (n : nat) : Prop := {
  ok_fbo_read : fbo (read d) = texture (read d);
  ok_fbo_write : fbo (write d) = texture (write d);
  ok_distinct : texture (read d) <> texture (write d);
  ok_width : (0 < d_width d)%Z;
  ok_height : (0 < d_height d)%Z;
  ok_read_width : fbo_width (read d) = d_width d;
  ok_read_height : fbo_height (read d) = d_height d;
  ok_write_width : fbo_width (write d) = d_width d;
  ok_write_height : fbo_height (write d) = d_height d;
  ok_read_w : GL.img_w (textures g (texture (read d))) = d_width d;
  ok_read_h : GL.img_h (textures g (texture (read d))) = d_height d;
  ok_write_w : GL.img_w (textures g (texture (write d))) = d_width d;
  ok_write_h : GL.img_h (textures g (texture (write d))) = d_height d;
  ok_read_channels :
    (n <= GL.channels (GL.img_ifmt (textures g (texture (read d)))))%nat;
  ok_write_channels :
    (n <= GL.channels (GL.img_ifmt (textures g (texture (write d)))))%nat
}.

(** [correctRadius(config.SPLAT_RADIUS / 100.0)] on canvas [c]. *)
Definition splat_radius (cfg : Config) (c : Canvas) : Q :=
  let ar := inject_Z (width c) / inject_Z (height c) in
  if Qltb 1 ar then SPLAT_RADIUS cfg / 100 * ar else SPLAT_RADIUS cfg / 100.

(** The kernel weight of a splat at [(x, y)] at texel [(i, j)] of a [w] by
    [h] field, on canvas [c]. *)
Definition splat_weight `{Host} (cfg : Config) (c : Canvas) (x y : Q)
    (w h i j : Z) : Q :=
  splat_kernel (inject_Z (width c) / inject_Z (height c)) (V2 x y)
               (splat_radius cfg c) (GL.pixel_uv w h i j).

(** A texture coordinate that lies outside [0, 1]. *)
Definition outside_unit (q : Q) : bool := Qltb q 0 || Qltb 1 q.

(** One Jacobi sweep on a [w] by [h] grid: the four neighbours of the
    previous iterate, clamped at the edges, minus the divergence, over 4. *)
Definition jacobi (w h : Z) (D P : Z -> Z -> Q) : Z -> Z -> Q :=
  fun i j =>
    (P (GL.clampZ (i - 1) w) j + P (GL.clampZ (i + 1) w) j
     + P i (GL.clampZ (j - 1) h) + P i (GL.clampZ (j + 1) h) - D i j) / 4.

(** The draws and swaps of [n] turns of the Jacobi loop. *)
Fixpoint sweeps_log (n : nat) (p : DoubleFBO) : list Event :=
  match n with
  | O => []
  | S k => EvDraw pressureProgram (Some (fbo (write p))) :: EvSwap Fpressure
           :: sweeps_log k (swap p)
  end.

(** Number of draws made with program [p]. *)
Definition draws_with (p : Prog) (l : list Event) : nat :=
  List.length (filter (fun e => match e with
                                | EvDraw q _ => Prog_beq p q
                                | _ => false
                                end) l).

(** The state in which the Jacobi loop runs: the pressure program in use,
    its texel size the pitch of the pressure grid, its divergence sampler on
    unit 0 where the divergence texture is bound, and the three textures of
    one size, distinct, and fetched texel by texel (NEAREST). *)
Record jacobi_ready (g : GLState) (p : DoubleFBO) (tdv : nat) : Prop := {
  jr_program : program g = Some pressureProgram;
  jr_texelSize : uniforms g pressureProgram texelSize =
                 U2f (1 / inject_Z (d_width p)) (1 / inject_Z (d_height p));
  jr_uDivergence : uniforms g pressureProgram uDivergence = U1i 0;
  jr_unit0 : bound g 0%Z = tdv;
  jr_double : double_ok g p 1;
  jr_div_w : GL.img_w (textures g tdv) = d_width p;
  jr_div_h : GL.img_h (textures g tdv) = d_height p;
  jr_div_read : tdv <> texture (read p);
  jr_div_write : tdv <> texture (write p);
  jr_nearest_read :
    (GL.img_filter (textures g (texture (read p))) =? GL.LINEAR)%Z = false;
  jr_nearest_write :
    (GL.img_filter (textures g (texture (write p))) =? GL.LINEAR)%Z = false;
  jr_nearest_div : (GL.img_filter (textures g tdv) =? GL.LINEAR)%Z = false
}.

(** The pressure and the divergence held by two textures, as grids. *)
Definition grid (g : GLState) (t : nat) : Z -> Z -> Q :=
  fun i j => px (GL.fetch (textures g t) i j).

(** The pool as the pressure stage needs it: the pressure pair sound, the
    divergence target of the same size and apart from it, all three textures
    fetched texel by texel, and the velocity texel size the pitch of the
    pressure grid. *)
Record pressure_ready (g : GLState) (p : DoubleFBO) (dv : FBO) (v : DoubleFBO)
    : Prop := {
  pr_double : double_ok g p 1;
  pr_div_w : GL.img_w (textures g (texture dv)) = d_width p;
  pr_div_h : GL.img_h (textures g (texture dv)) = d_height p;
  pr_div_read : texture dv <> texture (read p);
  pr_div_write : texture dv <> texture (write p);
  pr_nearest_read :
    (GL.img_filter (textures g (texture (read p))) =? GL.LINEAR)%Z = false;
  pr_nearest_write :
    (GL.img_filter (textures g (texture (write p))) =? GL.LINEAR)%Z = false;
  pr_nearest_div :
    (GL.img_filter (textures g (texture dv)) =? GL.LINEAR)%Z = false;
  pr_texelSizeX : texelSizeX v = 1 / inject_Z (d_width p);
  pr_texelSizeY : texelSizeY v = 1 / inject_Z (d_height p)
}.

(** All five module variables hold a target. *)
Definition allocated (pl : Pool) : Prop :=
  dye pl <> None /\ velocity pl <> None /\ divergence pl <> None /\
  curl pl <> None /\ pressure pl <> None.

(** [s'] comes after [s]: the pool is still there, the pointer is as it
    was, and the log has only grown. *)
Definition extends (s s' : State) : Prop :=
  allocated (pool s') /\ pointer0 s' = pointer0 s /\
  exists l, log s' = log s ++ l.

(** [m] returns from every state with a pool, without touching the pointer. *)
Definition runs {A} (m : M A) : Prop :=
  forall s, allocated (pool s) -> exists a s', m s = Ok a s' /\ extends s s'.

Definition is_splat (e : Event) : bool :=
  match e with EvSplat _ _ _ _ _ => true | _ => false end.

(** Number of calls of [splat] in a log. *)
Definition splat_count (l : list Event) : nat := List.length (filter is_splat l).

(** The part of a tick's log before the ambient-splat block is entered:
    what the pointer block (and a resize) did. *)
Fixpoint before_ambient (l : list Event) : list Event :=
  match l with
  | [] => []
  | EvAutoSplat :: _ => []
  | e :: r => e :: before_ambient r
  end.

(** The formats of a device on which the pool can be built. *)
Definition usable (ext : Ext) : Prop :=
  exists rgba rg r,
    formatRGBA ext = Some rgba /\ formatRG ext = Some rg /\ formatR ext = Some r.



(** A colour of the palette, scaled as [getRandomColor] does. *)
Definition palette_colour (col : vec3) : Prop :=
  exists p, In p PALETTE /\
    col = V3 (c_r p * (25#100)) (c_g p * (25#100)) (c_b p * (25#100)).




(** [s] after code that drew and swapped: a new canvas, WebGL state and
    pool, [l] appended to the log, and nothing else changed. *)
Definition after (s : State) (cv : Canvas) (g : GLState) (P : Pool)
    (l : list Event) : State :=
  with_log (log s ++ l) (with_pool P (with_gl g (with_canvas cv s))).

(** The pool with its five targets. *)
Definition pool_of (d v : DoubleFBO) (dv c : FBO) (p : DoubleFBO) : Pool :=
  {| dye := Some d; velocity := Some v; divergence := Some dv;
     curl := Some c; pressure := Some p |}.

(** The draws and swaps of one step on the pool [pool_of d v dv c p], with
    [n] turns of the Jacobi loop. *)
Definition step_events (n : nat) (d v : DoubleFBO) (dv c : FBO) (p : DoubleFBO)
    : list Event :=
  [EvStep;
   EvDraw curlProgram (Some (fbo c));
   EvDraw vorticityProgram (Some (fbo (write v))); EvSwap Fvelocity;
   EvDraw divergenceProgram (Some (fbo dv));
   EvDraw clearProgram (Some (fbo (write p))); EvSwap Fpressure]
  ++ sweeps_log n (swap p)
  ++ [EvDraw gradientSubtractProgram (Some (fbo (read v))); EvSwap Fvelocity;
      EvDraw advectionProgram (Some (fbo (write v))); EvSwap Fvelocity;
      EvDraw advectionProgram (Some (fbo (write d))); EvSwap Fdye].

(** The time step of a tick: the clock difference in seconds, at most
    0.016667. *)
Definition tick_dt (now : Z) (s : State) : Q :=
  Math_min (inject_Z (now - lastTime s) / 1000) (16667#1000000).

(** The five events of a splat on the velocity [v] and the dye [d]. *)
Definition splat_events (x y dx dy : Q) (col : vec3) (d v : DoubleFBO)
    : list Event :=
  [EvSplat x y dx dy col;
   EvDraw splatProgram (Some (fbo (write v))); EvSwap Fvelocity;
   EvDraw splatProgram (Some (fbo (write d))); EvSwap Fdye].

(** The events of a tick: a rebuild of the pool [rs], the pointer block
    [pp], the ambient splat [amb], the step [stp], the draw to the canvas
    and the request for the next frame. *)
Definition tick_events (rs pp amb stp : list Event) : list Event :=
  EvUpdate :: rs ++ pp ++ EvAutoSplat :: amb ++ stp
    ++ [EvRender; EvDraw displayProgram None; EvRequestFrame].

(** The events a tick can be made of. *)
Definition rebuild_events (rs : list Event) : Prop :=
  rs = [] \/ rs = [EvInitFramebuffers].
Definition splat_or_nothing (l : list Event) : Prop :=
  l = [] \/ exists x y dx dy col d v, l = splat_events x y dx dy col d v.
Definition pointer_events (pp : list Event) : Prop :=
  pp = [] \/ exists x y dx dy col d v,
               pp = EvMovedCleared :: splat_events x y dx dy col d v.
Definition some_step (stp : list Event) : Prop :=
  exists n d v dv c p, stp = step_events n d v dv c p.

(** Recognisers of events, and the number of events a recogniser accepts. *)
Definition is_step (e : Event) : bool :=
  match e with EvStep => true | _ => false end.
Definition is_canvas_draw (e : Event) : bool :=
  match e with EvDraw _ None => true | _ => false end.
Definition is_frame_request (e : Event) : bool :=
  match e with EvRequestFrame => true | _ => false end.
Definition count (f : Event -> bool) (l : list Event) : nat :=
  List.length (filter f l).

(** What happens on the page: the browser runs a frame callback at clock
    [now], or the pointer moves to a client position. *)
Inductive PageEvent :=
| Frame (now : Z)
| PointerMove (clientX clientY : Q).

(** The page over a sequence of happenings.  [update] asks for the next
    frame as its last action, so a tick that throws ends the loop. *)
Fixpoint page `{Host} (cfg : Config) (ext : Ext) (evs : list PageEvent)
    : M unit :=
  match evs with
  | [] => ret tt
  | Frame now :: r => update cfg ext now ;; page cfg ext r
  | PointerMove x y :: r => on_pointermove x y ;; page cfg ext r
  end.

Definition frames_in (evs : list PageEvent) : nat :=
  List.length (filter (fun e => match e with Frame _ => true | _ => false end) evs).

(** Logs made of ticks without an ambient splat. *)
Inductive no_ambient_splat : list Event -> Prop :=
| no_ambient_nil : no_ambient_splat []
| no_ambient_tick rs pp stp l :
    rebuild_events rs -> pointer_events pp -> some_step stp ->
    no_ambient_splat l ->
    no_ambient_splat (tick_events rs pp [] stp ++ l).

(** The pitch of the grid on which the velocity pass of [step] interpolates
    its source: the uniform [dyeTexelSize], which [step] sets to the texel
    size of the velocity only without linear filtering, and which is
    otherwise what it was when the pass begins. *)
Definition velocity_source_grid (ext : Ext) (s : State) (v : DoubleFBO) : vec2 :=
  if supportLinearFiltering ext
  then as_vec2 (uniforms (gl s) advectionProgram dyeTexelSize)
  else V2 (texelSizeX v) (texelSizeY v).

(** A field that is zero in x and y at all its texels is sampled as zero. *)
Definition at_rest (im : GL.Image) : Prop :=
  forall x y, (0 <= x < GL.img_w im)%Z -> (0 <= y < GL.img_h im)%Z ->
    px (GL.fetch im x y) == 0 /\ py (GL.fetch im x y) == 0.

(** The second half of the rounding of binary64 ([binary_round_aux]): the
    mantissa that rounding to nearest produced is shifted once more if the
    rounding carried into a new digit, and packed. *)
Definition round_finish (s : bool) (m e : Z) : spec_float :=
  let '(mrs, e') := shr_fexp prec emax m e loc_Exact in
  match shr_m mrs with
  | Z0 => S754_zero s
  | Zpos m => if (e' <=? emax - prec)%Z then S754_finite s m e' else S754_infinity s
  | Zneg _ => S754_nan
  end.

(* ------------------------------------------------------------------ *)
(** ** Sample pages

    Concrete hosts, devices and pages on which the properties below are
    instantiated. *)

(** A host whose random stream alternates between 1/4 and 3/4 and whose
    [exp] is a positive rational bump. *)
Definition sample_host : Host :=
  {| Math_random := fun n => if Nat.even n then 1#4 else 3#4;
     glsl_exp := fun q => 1 / (1 + q * q);
     glsl_sqrt := Qabs |}.

(** A WebGL2 device that renders to every format. *)
Definition desktop : Device :=
  {| webgl2 := true; webgl1 := true; OES_texture_float_linear := true;
     OES_texture_half_float := true; OES_texture_half_float_linear := true;
     renderable := fun _ _ _ => true |}.

(** A WebGL2 device that renders to no half-float format. *)
Definition no_float_target : Device :=
  {| webgl2 := true; webgl1 := true; OES_texture_float_linear := true;
     OES_texture_half_float := true; OES_texture_half_float_linear := true;
     renderable := fun _ _ _ => false |}.

(** A WebGL2 device that renders to all formats but the 1-channel one. *)
Definition two_channel_device : Device :=
  {| webgl2 := true; webgl1 := true; OES_texture_float_linear := true;
     OES_texture_half_float := true; OES_texture_half_float_linear := true;
     renderable := fun i _ _ => negb (i =? GL.R16F)%Z |}.

(** A canvas of the default size, laid out in a box of 800 by 600. *)
Definition sample_canvas : Canvas :=
  {| width := 300; height := 150; clientWidth := 800; clientHeight := 600;
     devicePixelRatio := 1; pointerEvents := None; presented := None |}.

(** What [getWebGLContext] finds on [desktop] and on [no_float_target]. *)
Definition desktop_ext : Ext :=
  {| formatRGBA := Some {| internalFormat := GL.RGBA16F; format := GL.RGBA |};
     formatRG := Some {| internalFormat := GL.RG16F; format := GL.RG |};
     formatR := Some {| internalFormat := GL.R16F; format := GL.RED |};
     halfFloatTexType := Some GL.HALF_FLOAT;
     supportLinearFiltering := true |}.
Definition no_ext : Ext :=
  {| formatRGBA := None; formatRG := None; formatR := None;
     halfFloatTexType := Some GL.HALF_FLOAT; supportLinearFiltering := true |}.

(** The page as the module finds it, with its context. *)
Definition sample_page : State :=
  initial_state sample_canvas (gl_with_clearColor (V4 0 0 0 1) fresh_gl).

(** The page once the canvas is sized and the pool built. *)
Definition sample_started : State :=
  final ((resizeCanvas ;; initFramebuffers config desktop_ext)%js sample_page).

(** A WebGL2 device that renders to every format and has no linear
    filtering of float textures, what [getWebGLContext] finds on it, and the
    page started there. *)
Definition unfiltered : Device :=
  {| webgl2 := true; webgl1 := true; OES_texture_float_linear := false;
     OES_texture_half_float := true; OES_texture_half_float_linear := true;
     renderable := fun _ _ _ => true |}.
Definition unfiltered_ext : Ext :=
  {| formatRGBA := Some {| internalFormat := GL.RGBA16F; format := GL.RGBA |};
     formatRG := Some {| internalFormat := GL.RG16F; format := GL.RG |};
     formatR := Some {| internalFormat := GL.R16F; format := GL.RED |};
     halfFloatTexType := Some GL.HALF_FLOAT;
     supportLinearFiltering := false |}.
Definition sample_unfiltered : State :=
  final ((resizeCanvas ;; initFramebuffers config unfiltered_ext)%js sample_page).

Definition sample_dye : DoubleFBO := double_target 1 1365 1024.
Definition sample_velocity : DoubleFBO := double_target 3 171 128.
Definition sample_divergence : FBO := target 5 171 128.
Definition sample_curl : FBO := target 6 171 128.
Definition sample_pressure : DoubleFBO := double_target 7 171 128.

(** The started page with the pointer moved over it. *)
Definition sample_moved : State :=
  final (on_pointermove 400 300 sample_started).

Definition sample_step_time : Q := 1 # 60.

(** The started page after one whole step. *)
Definition sample_stepped : State :=
  final (@step sample_host config desktop_ext sample_step_time sample_started).

(** The second step, up to its velocity advection. *)
Definition sample_before_advection : State :=
  final ((emit EvStep ;; @step_curl sample_host ;;
          @step_vorticity sample_host config sample_step_time ;;
          @step_divergence sample_host ;;
          @step_clear_pressure sample_host config ;;
          @step_pressure_solve sample_host config ;;
          @step_gradient_subtract sample_host)%js sample_stepped).

(** A device without WebGL. *)
Definition no_webgl : Device :=
  {| webgl2 := false; webgl1 := false; OES_texture_float_linear := false;
     OES_texture_half_float := false; OES_texture_half_float_linear := false;
     renderable := fun _ _ _ => false |}.

Definition desktop_context : Context :=
  {| ctx_gl := gl_with_clearColor (V4 0 0 0 1) fresh_gl; ctx_ext := desktop_ext |}.

(** A pointer motion, then twenty-three frames 16 ms apart. *)
Definition sample_happenings : list PageEvent :=
  PointerMove 400 300 :: map (fun k => Frame (16 * Z.of_nat k)) (seq 1 23).

(** The four formats the two-channel device ends up with for [R16F]. *)
Definition rg_format : Format := {| internalFormat := GL.RG16F; format := GL.RG |}.

(* ================================================================== *)
(** * Properties *)

(** ** Capability negotiation *)

(** The recursion of [getSupportedFormat], one step unfolded. *)
Lemma getSupportedFormat_step (d : Device) (i f : Z) (t : option Z) :
  getSupportedFormat d i f t =
  if supportRenderTextureFormat d i f t
  then Some {| internalFormat := i; format := f |}
  else if is_R16F d i then getSupportedFormat d GL.RG16F GL.RG t
  else if is_RG16F d i then getSupportedFormat d GL.RGBA16F GL.RGBA t
  else None.
Proof.
  funelim (getSupportedFormat d i f t); rewrite <- ?Heqcall;
    repeat match goal with
           | E : supportRenderTextureFormat _ _ _ _ = _ |- _ => progress rewrite E
           | E : is_R16F _ _ = _ |- _ => progress rewrite E
           | E : is_RG16F _ _ = _ |- _ => progress rewrite E
           end; reflexivity.
Qed.

(** C7. When the device cannot render to the requested combination, a
    1-channel request is retried as the 2-channel one, a 2-channel request
    as the 4-channel one, and a failed 4-channel request gives no format; a
    successful probe returns the requested pair as it is; and on a WebGL1
    context the 2- and 1-channel records are the 4-channel record. *)
Theorem getSupportedFormat_escalates (d : Device) (t : option Z) :
  (forall i f, supportRenderTextureFormat d i f t = true ->
     getSupportedFormat d i f t = Some {| internalFormat := i; format := f |}) /\
  (webgl2 d = true ->
     (forall f, supportRenderTextureFormat d GL.R16F f t = false ->
        getSupportedFormat d GL.R16F f t = getSupportedFormat d GL.RG16F GL.RG t) /\
     (forall f, supportRenderTextureFormat d GL.RG16F f t = false ->
        getSupportedFormat d GL.RG16F f t =
        getSupportedFormat d GL.RGBA16F GL.RGBA t)) /\
  (forall f, supportRenderTextureFormat d GL.RGBA16F f t = false ->
     getSupportedFormat d GL.RGBA16F f t = None) /\
  (forall f, supportRenderTextureFormat d GL.RGBA f t = false ->
     getSupportedFormat d GL.RGBA f t = None) /\
  (webgl2 d = false ->
     forall ctx, getWebGLContext d = Some ctx ->
       formatRG (ctx_ext ctx) = formatRGBA (ctx_ext ctx) /\
       formatR (ctx_ext ctx) = formatRGBA (ctx_ext ctx) /\
       formatRGBA (ctx_ext ctx) =
         getSupportedFormat d GL.RGBA GL.RGBA (halfFloatTexType (ctx_ext ctx))).
Proof.
  repeat split.
  - intros i f E. rewrite getSupportedFormat_step, E. reflexivity.
  - intros f E. rewrite getSupportedFormat_step, E.
    unfold is_R16F. rewrite H. reflexivity.
  - intros f E. rewrite getSupportedFormat_step, E.
    unfold is_R16F, is_RG16F. rewrite H. reflexivity.
  - intros f E. rewrite getSupportedFormat_step, E.
    unfold is_R16F, is_RG16F. rewrite !andb_false_r. reflexivity.
  - intros f E. rewrite getSupportedFormat_step, E.
    unfold is_R16F, is_RG16F. rewrite !andb_false_r. reflexivity.
  - unfold getWebGLContext in H0. rewrite H in H0. simpl in H0.
    destruct (webgl1 d); simpl in H0; [|discriminate].
    injection H0 as <-. reflexivity.
  - unfold getWebGLContext in H0. rewrite H in H0. simpl in H0.
    destruct (webgl1 d); simpl in H0; [|discriminate].
    injection H0 as <-. reflexivity.
  - unfold getWebGLContext in H0. rewrite H in H0. simpl in H0.
    destruct (webgl1 d); simpl in H0; [|discriminate].
    injection H0 as <-. reflexivity.
Qed.

(** ** Resolution of the render targets *)

Lemma Qltb_lt (a b : Q) : Qltb a b = true <-> a < b.
Proof.
  unfold Qltb. rewrite negb_true_iff. split.
  - intros E. apply Qnot_le_lt. intros L.
    apply Qle_bool_iff in L. congruence.
  - intros L. destruct (Qle_bool b a) eqn:E; [|reflexivity].
    apply Qle_bool_iff in E. apply Qle_not_lt in E. contradiction.
Qed.

Lemma Qltb_ge (a b : Q) : Qltb a b = false <-> b <= a.
Proof.
  unfold Qltb. rewrite negb_false_iff. apply Qle_bool_iff.
Qed.

Lemma inject_Z_pos (n : Z) : (0 < n)%Z -> 0 < inject_Z n.
Proof.
  intros L. change 0 with (inject_Z 0). rewrite <- Zlt_Qlt. exact L.
Qed.

(** *** Doubles

    What [getResolution] needs of binary64, from the specification of the
    primitive operations ([FloatAxioms]). *)

(** A mantissa that is canonical already is rounded to itself. *)
Lemma round_canonical (s : bool) (m : positive) (e : Z) :
  bounded prec emax m e = true ->
  binary_round_aux prec emax s (Zpos m) e loc_Exact = S754_finite s m e.
Proof.
  unfold bounded, canonical_mantissa. intros B.
  apply andb_true_iff in B. destruct B as [C L]. apply Z.eqb_eq in C.
  unfold binary_round_aux, shr_fexp. cbn [Zdigits2 shr_record_of_loc].
  rewrite C, Z.sub_diag. cbn [shr loc_of_shr_record shr_m round_nearest_even].
  cbn [Zdigits2 shr_record_of_loc]. rewrite C, Z.sub_diag.
  cbn [shr shr_m]. rewrite L. reflexivity.
Qed.

Lemma digits2_iter_xO (p : positive) (k : positive) :
  digits2_pos (Pos.iter xO p k) = (digits2_pos p + k)%positive.
Proof.
  revert p. induction k using Pos.peano_ind; intros p.
  - cbn. lia.
  - rewrite Pos.iter_succ. cbn [digits2_pos]. rewrite IHk. lia.
Qed.

Lemma iter_xO_value (p : positive) (k : positive) :
  Zpos (Pos.iter xO p k) = (Zpos p * 2 ^ Zpos k)%Z.
Proof.
  revert p. induction k using Pos.peano_ind; intros p.
  - cbn. lia.
  - rewrite Pos.iter_succ, Pos2Z.inj_xO, IHk, Pos2Z.inj_succ, Z.pow_succ_r by lia. lia.
Qed.

(** A positive number of [d] binary digits lies in [2^(d-1), 2^d). *)
Lemma digits2_bounds (p : positive) :
  (2 ^ (Zpos (digits2_pos p) - 1) <= Zpos p < 2 ^ Zpos (digits2_pos p))%Z.
Proof.
  induction p as [p IH|p IH|]; cbn [digits2_pos].
  - rewrite Pos2Z.inj_succ, (Pos2Z.inj_xI p).
    replace (Z.succ (Zpos (digits2_pos p)) - 1)%Z with (Z.succ (Zpos (digits2_pos p) - 1)) by lia.
    rewrite !Z.pow_succ_r by lia.
    revert IH. generalize (2 ^ (Zpos (digits2_pos p) - 1))%Z (2 ^ Zpos (digits2_pos p))%Z.
    intros a b IH. lia.
  - rewrite Pos2Z.inj_succ, (Pos2Z.inj_xO p).
    replace (Z.succ (Zpos (digits2_pos p)) - 1)%Z with (Z.succ (Zpos (digits2_pos p) - 1)) by lia.
    rewrite !Z.pow_succ_r by lia.
    revert IH. generalize (2 ^ (Zpos (digits2_pos p) - 1))%Z (2 ^ Zpos (digits2_pos p))%Z.
    intros a b IH. lia.
  - cbn. lia.
Qed.

Lemma digits2_unique (p : positive) (d : Z) :
  (2 ^ (d - 1) <= Zpos p < 2 ^ d)%Z -> Zpos (digits2_pos p) = d.
Proof.
  intros [L U]. pose proof (digits2_bounds p) as [L' U'].
  assert (0 < d)%Z.
  { destruct (Z.lt_ge_cases 0 d) as [A|A]; [exact A|].
    destruct (Z.eq_dec d 0) as [->|N]; [cbn in U; lia|].
    rewrite Z.pow_neg_r in U by lia. lia. }
  destruct (Z.lt_trichotomy (Zpos (digits2_pos p)) d) as [A|[A|A]]; [|exact A|].
  - assert (2 ^ Zpos (digits2_pos p) <= 2 ^ (d - 1))%Z by (apply Z.pow_le_mono_r; lia). lia.
  - assert (2 ^ d <= 2 ^ (Zpos (digits2_pos p) - 1))%Z by (apply Z.pow_le_mono_r; lia). lia.
Qed.

(** The double of a buffer size: 53 digits and a shift. *)
Lemma Number_of_Z_finite (W : Z) :
  (0 < W < 2 ^ 53)%Z ->
  exists m k, Prim2SF (Number_of_Z W) = S754_finite false m (- k) /\
              Zpos (digits2_pos m) = 53%Z /\ (0 <= k <= 52)%Z /\
              Zpos m = (W * 2 ^ k)%Z.
Proof.
  intros [P L]. destruct W as [|p|p]; try lia.
  unfold Number_of_Z. cbn [binary_normalize].
  pose proof (digits2_bounds p) as [DL DU].
  assert (D : (1 <= Zpos (digits2_pos p) <= 53)%Z).
  { split; [lia|].
    destruct (Z.le_gt_cases (Zpos (digits2_pos p)) 53) as [A|A]; [exact A|exfalso].
    assert (T : (2 ^ 53 <= 2 ^ (Zpos (digits2_pos p) - 1))%Z) by (apply Z.pow_le_mono_r; lia).
    lia. }
  assert (E : exists m k, binary_round prec emax false p 0 = S754_finite false m (- k)
                          /\ bounded prec emax m (- k) = true
                          /\ Zpos (digits2_pos m) = 53%Z /\ (0 <= k <= 52)%Z
                          /\ Zpos m = (Zpos p * 2 ^ k)%Z).
  { unfold binary_round, shl_align, fexp. rewrite Z.add_0_r.
    change (SpecFloat.emin prec emax) with (-1074)%Z. change prec with 53%Z.
    rewrite Z.max_l by lia. rewrite Z.sub_0_r.
    destruct (Z.pos (digits2_pos p) - 53)%Z as [|k|k] eqn:K; try lia.
    - exists p, 0%Z. assert (B : bounded 53 emax p 0 = true).
      { unfold bounded, canonical_mantissa, fexp. apply andb_true_iff. split.
        - apply Z.eqb_eq. change (SpecFloat.emin 53 emax) with (-1074)%Z. lia.
        - reflexivity. }
      change (- 0)%Z with 0%Z.
      split; [apply round_canonical; exact B|]. split; [exact B|].
      split; [lia|]. split; [lia|]. rewrite Z.pow_0_r. lia.
    - exists (Pos.iter xO p k), (Zpos k).
      assert (B : bounded 53 emax (Pos.iter xO p k) (Z.neg k) = true).
      { unfold bounded, canonical_mantissa, fexp. apply andb_true_iff. split.
        - apply Z.eqb_eq. rewrite digits2_iter_xO.
          change (SpecFloat.emin 53 emax) with (-1074)%Z. lia.
        - apply Z.leb_le. change (emax - 53)%Z with 971%Z. lia. }
      change (- Zpos k)%Z with (Z.neg k).
      split; [apply round_canonical; exact B|]. split; [exact B|].
      split; [rewrite digits2_iter_xO; lia|]. split; [lia|].
      apply iter_xO_value. }
  destruct E as (m & k & E & B & R). exists m, k.
  split; [|exact R]. rewrite E. apply Prim2SF_SF2Prim. exact B.
Qed.

Lemma binary_round_aux_split (s : bool) (m e : Z) (l : location) :
  binary_round_aux prec emax s m e l =
  let '(mrs, e') := shr_fexp prec emax m e l in
  round_finish s (round_nearest_even (shr_m mrs) (loc_of_shr_record mrs)) e'.
Proof. reflexivity. Qed.

Lemma round_finish_53 (s : bool) (m : positive) (e : Z) :
  Zpos (digits2_pos m) = 53%Z -> (-1074 <= e <= 971)%Z ->
  round_finish s (Zpos m) e = S754_finite s m e.
Proof.
  intros D [L U]. unfold round_finish, shr_fexp. cbn [Zdigits2]. rewrite D.
  unfold fexp. change (SpecFloat.emin prec emax) with (-1074)%Z. change prec with 53%Z.
  replace (Z.max (53 + e - 53) (-1074) - e)%Z with 0%Z by lia.
  cbn [shr shr_record_of_loc shr_m].
  replace (e <=? emax - 53)%Z with true; [reflexivity|].
  symmetry. apply Z.leb_le. change (emax - 53)%Z with 971%Z. lia.
Qed.

Lemma round_finish_carry (s : bool) (e : Z) :
  (-1074 <= e <= 970)%Z ->
  round_finish s (2 ^ 53) e = S754_finite s 4503599627370496 (e + 1).
Proof.
  intros [L U]. unfold round_finish, shr_fexp.
  change (Zdigits2 (2 ^ 53)) with 54%Z.
  unfold fexp. change (SpecFloat.emin prec emax) with (-1074)%Z. change prec with 53%Z.
  replace (Z.max (54 + e - 53) (-1074) - e)%Z with 1%Z by lia.
  cbn [shr shr_record_of_loc shr_m iter_pos shr_1]. change (emax - 53)%Z with 971%Z.
  assert (T : (e + 1 <=? 971)%Z = true) by (apply Z.leb_le; lia).
  cbn. rewrite T. reflexivity.
Qed.

Lemma round_nearest_even_range (m : Z) (l : location) :
  round_nearest_even m l = m \/ round_nearest_even m l = (m + 1)%Z.
Proof.
  destruct l as [|[| |]]; cbn; auto. destruct (Z.even m); auto.
Qed.

Lemma loc_of_record_of_loc (m : Z) (l : location) :
  loc_of_shr_record (shr_record_of_loc m l) = l /\ shr_m (shr_record_of_loc m l) = m.
Proof. destruct l as [|[| |]]; split; reflexivity. Qed.

(** The quotient [q], of 53 or 54 digits, is rounded to 53 digits: the
    exponent goes up by one for 54 digits, and by one more when the rounding
    carries into a new digit, which takes a quotient of all ones. *)
Lemma round_quotient (s : bool) (q : positive) (e : Z) (l : location) :
  (2 ^ 52 <= Zpos q < 2 ^ 54)%Z -> (-1074 <= e <= 900)%Z ->
  exists m e',
    binary_round_aux prec emax s (Zpos q) e l = S754_finite s m e' /\
    Zpos (digits2_pos m) = 53%Z /\
    ((Zpos q < 2 ^ 53 /\ (e' = e \/ e' = e + 1 /\ Zpos q = 2 ^ 53 - 1))%Z \/
     (2 ^ 53 <= Zpos q /\ (e' = e + 1 \/ e' = e + 2 /\ Zpos q = 2 ^ 54 - 1))%Z).
Proof.
  intros [QL QU] [EL EU]. rewrite binary_round_aux_split.
  destruct (Z.lt_ge_cases (Zpos q) (2 ^ 53)) as [A|A].
  - (* 53 digits: no shift *)
    assert (D : Zpos (digits2_pos q) = 53%Z) by (apply digits2_unique; split; assumption).
    unfold shr_fexp. cbn [Zdigits2]. rewrite D.
    unfold fexp. change (SpecFloat.emin prec emax) with (-1074)%Z. change prec with 53%Z.
    replace (Z.max (53 + e - 53) (-1074) - e)%Z with 0%Z by lia.
    cbn [shr]. destruct (loc_of_record_of_loc (Zpos q) l) as [-> ->].
    destruct (round_nearest_even_range (Zpos q) l) as [-> | ->].
    + exists q, e. split; [apply round_finish_53; [exact D|lia]|]. split; [exact D|].
      left. split; [exact A|]. left. reflexivity.
    + destruct (Z.eq_dec (Zpos q + 1) (2 ^ 53)) as [C|C].
      * rewrite C. exists 4503599627370496%positive, (e + 1)%Z.
        split; [apply round_finish_carry; lia|]. split; [reflexivity|].
        left. split; [exact A|]. right. split; [reflexivity|lia].
      * change (Zpos q + 1)%Z with (Zpos (q + 1)).
        assert (D' : Zpos (digits2_pos (q + 1)) = 53%Z) by (apply digits2_unique; lia).
        exists (q + 1)%positive, e. split; [apply round_finish_53; [exact D'|lia]|].
        split; [exact D'|]. left. split; [exact A|]. left. reflexivity.
  - (* 54 digits: one shift *)
    assert (D : Zpos (digits2_pos q) = 54%Z) by (apply digits2_unique; split; assumption).
    unfold shr_fexp. cbn [Zdigits2]. rewrite D.
    unfold fexp. change (SpecFloat.emin prec emax) with (-1074)%Z. change prec with 53%Z.
    replace (Z.max (54 + e - 53) (-1074) - e)%Z with 1%Z by lia.
    cbn [shr iter_pos].
    destruct q as [p|p|]; [| |cbn in QL; lia].
    + (* odd quotient *)
      assert (D' : Zpos (digits2_pos p) = 53%Z) by (apply digits2_unique; lia).
      assert (R : exists r' s', shr_1 (shr_record_of_loc (Zpos p~1) l)
                  = Build_shr_record (Zpos p) r' s')
        by (destruct l as [|[| |]]; cbn; eauto).
      destruct R as (r' & s' & ->). cbn [shr_m].
      destruct (round_nearest_even_range (Zpos p)
                  (loc_of_shr_record (Build_shr_record (Zpos p) r' s'))) as [-> | ->].
      * exists p, (e + 1)%Z. split; [apply round_finish_53; [exact D'|lia]|]. split; [exact D'|].
        right. split; [exact A|]. left. reflexivity.
      * destruct (Z.eq_dec (Zpos p + 1) (2 ^ 53)) as [C|C].
        -- rewrite C. exists 4503599627370496%positive, (e + 1 + 1)%Z.
           split; [apply round_finish_carry; lia|]. split; [reflexivity|].
           right. split; [exact A|]. right. split; [lia|]. rewrite Pos2Z.inj_xI. lia.
        -- change (Zpos p + 1)%Z with (Zpos (p + 1)).
           assert (D'' : Zpos (digits2_pos (p + 1)) = 53%Z) by (apply digits2_unique; lia).
           exists (p + 1)%positive, (e + 1)%Z. split; [apply round_finish_53; [exact D''|lia]|].
           split; [exact D''|]. right. split; [exact A|]. left. reflexivity.
    + (* even quotient: the round bit is clear and nothing is added *)
      assert (D' : Zpos (digits2_pos p) = 53%Z) by (apply digits2_unique; lia).
      assert (R : round_nearest_even (shr_m (shr_1 (shr_record_of_loc (Zpos p~0) l)))
                    (loc_of_shr_record (shr_1 (shr_record_of_loc (Zpos p~0) l))) = Zpos p)
        by (destruct l as [|[| |]]; reflexivity).
      rewrite R. exists p, (e + 1)%Z. split; [apply round_finish_53; [exact D'|lia]|].
      split; [exact D'|]. right. split; [exact A|]. left. reflexivity.
Qed.

Lemma ltb_one (x : float) (m : positive) (e : Z) :
  Prim2SF x = S754_finite false m e -> (2 ^ 52 <= Zpos m)%Z ->
  (x <? 1)%float = (e <? -52)%Z.
Proof.
  intros E D. rewrite ltb_spec.
  change (Prim2SF 1) with (S754_finite false 4503599627370496 (-52)).
  rewrite E. unfold SFltb, SFcompare.
  destruct (Z.compare_spec e (-52)) as [C|C|C].
  - subst e. rewrite Z.ltb_irrefl.
    rewrite Pos.compare_cont_spec. unfold Pos.switch_Eq.
    destruct (Pos.compare_spec m 4503599627370496) as [A|A|A].
    + reflexivity.
    + exfalso. apply Pos2Z.pos_lt_pos in A.
      change (2 ^ 52)%Z with 4503599627370496%Z in D. lia.
    + reflexivity.
  - symmetry. apply Z.ltb_lt. exact C.
  - symmetry. apply Z.ltb_ge. lia.
Qed.

Lemma pow2_split (a b : Z) :
  (0 <= a <= b)%Z ->
  exists D, (2 ^ b = 2 ^ a * D /\ 1 <= D /\ (a < b -> 2 <= D) /\ (b = a + 1 -> D = 2))%Z.
Proof.
  intros [A B]. exists (2 ^ (b - a))%Z. split.
  - rewrite <- Z.pow_add_r by lia. f_equal. lia.
  - split; [|split].
    + pose proof (Z.pow_pos_nonneg 2 (b - a)). lia.
    + intros L. change 2%Z with (2 ^ 1)%Z at 1. apply Z.pow_le_mono_r; lia.
    + intros ->. replace (a + 1 - a)%Z with 1%Z by lia. reflexivity.
Qed.

(** The test [aspectRatio < 1] on the quotient of two sizes is the test
    [W < H] on the sizes. *)
Lemma quotient_below_one (W H : Z) :
  (0 < W < 2 ^ 53)%Z -> (0 < H < 2 ^ 53)%Z ->
  (Number_of_Z W / Number_of_Z H <? 1)%float = (W <? H)%Z.
Proof.
  intros BW BH.
  destruct (Number_of_Z_finite W BW) as (mw & kw & Ew & Dw & Kw & Vw).
  destruct (Number_of_Z_finite H BH) as (mh & kh & Eh & Dh & Kh & Vh).
  pose proof (digits2_bounds mw) as Rw. rewrite Dw in Rw.
  pose proof (digits2_bounds mh) as Rh. rewrite Dh in Rh.
  change (2 ^ (53 - 1))%Z with 4503599627370496%Z in Rw, Rh.
  change (2 ^ 53)%Z with 9007199254740992%Z in *.
  assert (Q : exists q r l, Prim2SF (Number_of_Z W / Number_of_Z H)
                = binary_round_aux prec emax false q (kh - kw - 53) l /\
                (Zpos mw * 9007199254740992 = Zpos mh * q + r /\ 0 <= r < Zpos mh)%Z).
  { rewrite div_spec, Ew, Eh. unfold SF64div, SFdiv, SFdiv_core_binary.
    cbn [Zdigits2 xorb]. rewrite Dw, Dh.
    replace (Z.min (fexp prec emax (53 + - kw - (53 + - kh))) (- kw - - kh)) with (kh - kw - 53)%Z.
    2:{ unfold fexp. change (SpecFloat.emin prec emax) with (-1074)%Z.
        change prec with 53%Z. lia. }
    replace (- kw - - kh - (kh - kw - 53))%Z with 53%Z by lia.
    cbv iota. rewrite Z.shiftl_mul_pow2 by lia.
    change (2 ^ 53)%Z with 9007199254740992%Z.
    pose proof (Z.div_eucl_eq (Zpos mw * 9007199254740992) (Zpos mh) ltac:(lia)) as E.
    pose proof (Z.mod_pos_bound (Zpos mw * 9007199254740992) (Zpos mh) ltac:(lia)) as B.
    unfold Z.modulo in B.
    destruct (Z.div_eucl (Zpos mw * 9007199254740992) (Zpos mh)) as [q r].
    exists q, r, (new_location (Zpos mh) r). split; [reflexivity|]. split; assumption. }
  destruct Q as (q & r & l & Eq & E & R).
  assert (Bq : (4503599627370496 <= q < 18014398509481984)%Z) by nia.
  destruct q as [|q|q]; try lia.
  destruct (round_quotient false q (kh - kw - 53) l) as (m & e & Er & Dm & C).
  { change (2 ^ 52)%Z with 4503599627370496%Z.
    change (2 ^ 54)%Z with 18014398509481984%Z. exact Bq. }
  { lia. }
  rewrite Er in Eq. rewrite (ltb_one _ m e Eq).
  2:{ pose proof (digits2_bounds m) as [L _]. rewrite Dm in L. exact L. }
  clear Eq Er Ew Eh.
  change (2 ^ 53)%Z with 9007199254740992%Z in C.
  change (2 ^ 54)%Z with 18014398509481984%Z in C.
  destruct (Z.lt_trichotomy kw kh) as [T|[T|T]].
  - (* H has fewer digits than W *)
    destruct (pow2_split kw kh ltac:(lia)) as (D & PD & D1 & D2 & _).
    specialize (D2 T). rewrite PD in Vh.
    pose proof (Z.pow_pos_nonneg 2 kw ltac:(lia) ltac:(lia)) as PP.
    set (P := (2 ^ kw)%Z) in *.
    assert (HW : (H <= W)%Z) by nia.
    replace (W <? H)%Z with false by (symmetry; apply Z.ltb_ge; exact HW).
    apply Z.ltb_ge. lia.
  - (* as many digits *)
    subst kh.
    pose proof (Z.pow_pos_nonneg 2 kw ltac:(lia) ltac:(lia)) as PP.
    set (P := (2 ^ kw)%Z) in *.
    destruct C as [[A C]|[A C]].
    + assert (WH : (W < H)%Z) by nia.
      replace (W <? H)%Z with true by (symmetry; apply Z.ltb_lt; exact WH).
      apply Z.ltb_lt. destruct C as [->|[-> C]]; [lia|]. exfalso. nia.
    + assert (HW : (H <= W)%Z) by nia.
      replace (W <? H)%Z with false by (symmetry; apply Z.ltb_ge; exact HW).
      apply Z.ltb_ge. lia.
  - (* W has fewer digits than H *)
    destruct (pow2_split kh kw ltac:(lia)) as (D & PD & D1 & D2 & D3).
    specialize (D2 T). rewrite PD in Vw.
    pose proof (Z.pow_pos_nonneg 2 kh ltac:(lia) ltac:(lia)) as PP.
    set (P := (2 ^ kh)%Z) in *.
    assert (WH : (W < H)%Z) by nia.
    replace (W <? H)%Z with true by (symmetry; apply Z.ltb_lt; exact WH).
    apply Z.ltb_lt.
    destruct (Z.eq_dec kw (kh + 1)) as [K1|K1]; [|lia].
    specialize (D3 K1). subst D.
    destruct C as [[A C]|[A C]]; [lia|].
    destruct C as [->|[-> C]]; [lia|]. exfalso. nia.
Qed.

(** A finite double over itself is 1. *)
Lemma div_eucl_shift (m : positive) :
  Z.div_eucl (Z.shiftl (Zpos m) 53) (Zpos m) = (2 ^ 53, 0)%Z.
Proof.
  rewrite Z.shiftl_mul_pow2 by lia.
  pose proof (Z.div_eucl_eq (Zpos m * 2 ^ 53) (Zpos m) ltac:(lia)) as E.
  pose proof (Z.mod_pos_bound (Zpos m * 2 ^ 53) (Zpos m) ltac:(lia)) as B.
  unfold Z.modulo in B.
  destruct (Z.div_eucl (Zpos m * 2 ^ 53) (Zpos m)) as [q r].
  assert (q = 2 ^ 53)%Z by nia. subst q. f_equal. lia.
Qed.

Lemma div_self (x : float) (s : bool) (m : positive) (e : Z) :
  Prim2SF x = S754_finite s m e -> (x / x)%float = 1%float.
Proof.
  intros E. apply Prim2SF_inj. rewrite div_spec, E.
  unfold SF64div, SFdiv, SFdiv_core_binary.
  rewrite Z.sub_diag, Z.sub_diag.
  change (Z.min (fexp prec emax 0) 0) with (-53)%Z.
  change (0 - -53)%Z with 53%Z. cbv iota beta.
  rewrite div_eucl_shift.
  replace (new_location (Zpos m) 0) with loc_Exact
    by (unfold new_location; destruct (Z.even (Zpos m)); reflexivity).
  rewrite xorb_nilpotent. vm_compute. reflexivity.
Qed.

(** A double times 1 is itself, whatever the double. *)
Lemma mul_one (b : float) : (b * 1)%float = b.
Proof.
  apply Prim2SF_inj. rewrite mul_spec. pose proof (Prim2SF_valid b) as V.
  change (Prim2SF 1) with (S754_finite false 4503599627370496 (-52)).
  destruct (Prim2SF b) as [s|s| |s m e]; try (destruct s; reflexivity); try reflexivity.
  unfold SF64mul, SFmul. rewrite xorb_false_r.
  cbn [valid_binary] in V. pose proof V as B.
  unfold bounded, canonical_mantissa in B.
  apply andb_true_iff in B. destruct B as [C L]. apply Z.eqb_eq in C.
  rewrite Pos.mul_comm.
  change (4503599627370496 * m)%positive with (Pos.iter xO m 52).
  unfold binary_round_aux at 1.
  unfold shr_fexp at 1. cbn [Zdigits2 shr_record_of_loc].
  rewrite digits2_iter_xO.
  replace (Z.pos (digits2_pos m + 52) + (e + -52))%Z with (Z.pos (digits2_pos m) + e)%Z by lia.
  rewrite C. replace (e - (e + -52))%Z with 52%Z by lia.
  cbv beta iota delta [shr iter_pos Pos.iter shr_1 orb].
  replace (e + -52 + 52)%Z with e by lia.
  cbn [shr_m loc_of_shr_record round_nearest_even].
  unfold shr_fexp. cbn [Zdigits2 shr_record_of_loc].
  rewrite C, Z.sub_diag. cbn [shr shr_m]. rewrite L. reflexivity.
Qed.

(** The aspect ratio of a drawing buffer whose sizes are exact doubles: the
    quotient of the sizes when the buffer is landscape, the reciprocal of
    that quotient when it is portrait, and 1 when it is square. *)
Lemma aspectRatio_cases (W H : Z) :
  (0 < W < 2 ^ 53)%Z -> (0 < H < 2 ^ 53)%Z ->
  ((H < W)%Z -> buffer_aspectRatio W H = (Number_of_Z W / Number_of_Z H)%float) /\
  ((W < H)%Z ->
   buffer_aspectRatio W H = (1 / (Number_of_Z W / Number_of_Z H))%float) /\
  (W = H -> buffer_aspectRatio W H = 1%float).
Proof.
  intros BW BH. unfold buffer_aspectRatio. cbv zeta.
  rewrite (quotient_below_one W H BW BH). repeat split.
  - intros L. replace (W <? H)%Z with false by (symmetry; apply Z.ltb_ge; lia).
    reflexivity.
  - intros L. replace (W <? H)%Z with true by (symmetry; apply Z.ltb_lt; lia).
    reflexivity.
  - intros <-. rewrite Z.ltb_irrefl.
    destruct (Number_of_Z_finite W BW) as (m & k & E & _).
    exact (div_self _ _ _ _ E).
Qed.

(** C4. The axis of the drawing buffer that is larger gets
    [round(base * aspectRatio)] and the other one [round(base)], whether the
    buffer is landscape or portrait, the numbers being the doubles of the
    code: the aspect ratio is the quotient [W / H] when the buffer is
    landscape and [1 / (W / H)], which is rounded twice, when it is
    portrait, and the product with [base] is rounded once more before
    [Math.round].  For a square buffer the aspect ratio is exactly 1, width
    and height are the same number [round(base)], and exchanging the two
    labels changes nothing.  The sizes of the buffer are integers that a
    double holds exactly. *)
Theorem getResolution_axes (s : State) (base : Q) :
  let W := width (canvas s) in
  let H := height (canvas s) in
  (0 < W < 2 ^ 53)%Z -> (0 < H < 2 ^ 53)%Z ->
  exists r, getResolution base s = Ok r s /\
    let b := Number_of_Q base in
    let w := Number_of_Z W in
    let h := Number_of_Z H in
    ((H < W)%Z ->
       buffer_aspectRatio W H = (w / h)%float /\
       res_width r = Math_round (Number_value (b * (w / h))%float) /\
       res_height r = Math_round (Number_value b)) /\
    ((W < H)%Z ->
       buffer_aspectRatio W H = (1 / (w / h))%float /\
       res_height r = Math_round (Number_value (b * (1 / (w / h)))%float) /\
       res_width r = Math_round (Number_value b)) /\
    (W = H ->
       buffer_aspectRatio W H = 1%float /\
       res_width r = res_height r /\
       res_width r = Math_round (Number_value b) /\
       r = resolution_for H W base).
Proof.
  intros W H BW BH.
  exists (resolution_for W H base). split; [reflexivity|].
  destruct (aspectRatio_cases W H BW BH) as (AL & AP & AS).
  cbv zeta. unfold resolution_for. repeat split.
  - apply AL; assumption.
  - rewrite (AL H0).
    replace (W >? H)%Z with true by (symmetry; apply Z.gtb_lt; lia). reflexivity.
  - replace (W >? H)%Z with true by (symmetry; apply Z.gtb_lt; lia). reflexivity.
  - apply AP; assumption.
  - rewrite (AP H0).
    replace (W >? H)%Z with false by (symmetry; rewrite Z.gtb_ltb; apply Z.ltb_ge; lia).
    reflexivity.
  - replace (W >? H)%Z with false by (symmetry; rewrite Z.gtb_ltb; apply Z.ltb_ge; lia).
    reflexivity.
  - apply AS; assumption.
  - rewrite (AS H0), mul_one.
    replace (W >? H)%Z with false by (symmetry; rewrite Z.gtb_ltb; apply Z.ltb_ge; lia).
    reflexivity.
  - replace (W >? H)%Z with false by (symmetry; rewrite Z.gtb_ltb; apply Z.ltb_ge; lia).
    reflexivity.
  - rewrite <- H0. reflexivity.
Qed.

(** ** Startup on a device without a float render target *)

Lemma getRandomColor_palette `{Host} (s : State) :
  random_in_range _ ->
  exists c, In c PALETTE /\
    getRandomColor s =
    Ok (V3 (c_r c * (25#100)) (c_g c * (25#100)) (c_b c * (25#100)))
       (with_random_calls (S (random_calls s)) s).
Proof.
  intros R. destruct (R (random_calls s)) as [R0 R1].
  unfold getRandomColor, random, bind, gets, modify, ret. cbv beta iota.
  change (Z.of_nat (List.length PALETTE)) with 5%Z.
  set (r := Math_random (random_calls s)) in *.
  remember (Math_floor (r * inject_Z 5)) as k eqn:Ek.
  assert (K : (0 <= k < 5)%Z).
  { rewrite Ek. unfold Math_floor. split.
    - change 0%Z with (Qfloor 0). apply Qfloor_resp_le.
      apply Qmult_le_0_compat; [exact R0|]. discriminate.
    - rewrite Zlt_Qlt. eapply Qle_lt_trans; [apply Qfloor_le|].
      change (inject_Z 5) with (5:Q).
      setoid_replace (5:Q) with (1 * 5) at 2 by reflexivity.
      apply Qmult_lt_r; [reflexivity|exact R1]. }
  replace (k <? 0)%Z with false by (symmetry; apply Z.ltb_ge; lia).
  clear Ek.
  assert (C : (k = 0 \/ k = 1 \/ k = 2 \/ k = 3 \/ k = 4)%Z) by lia.
  destruct C as [-> | [-> | [-> | [-> | ->]]]]; cbn;
    eexists (V3 _ _ _); (split; [|reflexivity]); cbn; tauto.
Qed.

Lemma getWebGLContext_some (d : Device) :
  webgl2 d || webgl1 d = true ->
  exists ext, getWebGLContext d =
    Some {| ctx_gl := gl_with_clearColor (V4 0 0 0 1) fresh_gl; ctx_ext := ext |} /\
    formatRGBA ext =
      getSupportedFormat d (if webgl2 d then GL.RGBA16F else GL.RGBA) GL.RGBA
        (halfFloatTexType ext).
Proof.
  intros C. unfold getWebGLContext. rewrite C. cbn [negb].
  eexists. split; [reflexivity|]. cbn [formatRGBA halfFloatTexType].
  destruct (webgl2 d); reflexivity.
Qed.

Lemma initFramebuffers_declines (cfg : Config) (ext : Ext) (s : State) :
  formatRGBA ext = None \/ formatRG ext = None ->
  initFramebuffers cfg ext s = Ok tt (with_log (log s ++ [EvInitFramebuffers]) s).
Proof.
  intros N. unfold initFramebuffers.
  destruct N as [E | E]; rewrite E; [reflexivity|].
  destruct (formatRGBA ext); reflexivity.
Qed.

(** ** The render-target allocator *)

Lemma upd_same {A} (f : nat -> A) k v : upd f k v k = v.
Proof. unfold upd. rewrite Nat.eqb_refl. reflexivity. Qed.

Lemma upd_other {A} (f : nat -> A) k v n : n <> k -> upd f k v n = f n.
Proof.
  intros N. unfold upd. destruct (Nat.eqb_spec n k); [contradiction|reflexivity].
Qed.

Lemma updZ_same {A} (f : Z -> A) k v : updZ f k v k = v.
Proof. unfold updZ. rewrite Z.eqb_refl. reflexivity. Qed.

(** What [createFBO] leaves behind: one more texture, holding the clear
    colour everywhere, and nothing else of the program's state touched. *)
Lemma createFBO_spec (w h i f : Z) (ty : option Z) (filt : Z) (s : State) :
  exists g',
    createFBO w h i f ty filt s =
      Ok (target (texture_count (gl s)) w h) (with_gl g' s) /\
    texture_count g' = S (texture_count (gl s)) /\
    textures g' (texture_count (gl s)) = cleared w h i filt (clearColor (gl s)) /\
    (forall m, m <> texture_count (gl s) -> textures g' m = textures (gl s) m) /\
    clearColor g' = clearColor (gl s) /\
    program g' = program (gl s) /\
    uniforms g' = uniforms (gl s).
Proof.
  eexists. split; [destruct s; reflexivity|].
  cbn. unfold current_texture. cbn. repeat split.
  - rewrite !upd_same. reflexivity.
  - intros m N. rewrite !upd_other by exact N. reflexivity.
Qed.

Lemma createDoubleFBO_spec (w h i f : Z) (ty : option Z) (filt : Z) (s : State) :
  exists g',
    createDoubleFBO w h i f ty filt s =
      Ok (double_target (texture_count (gl s)) w h) (with_gl g' s) /\
    texture_count g' = S (S (texture_count (gl s))) /\
    textures g' (texture_count (gl s)) = cleared w h i filt (clearColor (gl s)) /\
    textures g' (S (texture_count (gl s))) = cleared w h i filt (clearColor (gl s)) /\
    (forall m, m <> texture_count (gl s) -> m <> S (texture_count (gl s)) ->
       textures g' m = textures (gl s) m) /\
    clearColor g' = clearColor (gl s) /\
    program g' = program (gl s) /\
    uniforms g' = uniforms (gl s).
Proof.
  unfold createDoubleFBO.
  destruct (createFBO_spec w h i f ty filt s) as (g1 & E1 & C1 & I1 & O1 & K1 & P1 & U1).
  destruct (createFBO_spec w h i f ty filt (with_gl g1 s))
    as (g2 & E2 & C2 & I2 & O2 & K2 & P2 & U2).
  cbn [gl with_gl] in *.
  exists g2. unfold bind. rewrite E1, E2. rewrite C1 in *. split; [reflexivity|].
  repeat split.
  - rewrite C2. reflexivity.
  - rewrite O2 by lia. exact I1.
  - rewrite I2, K1. reflexivity.
  - intros m N1 N2. rewrite O2 by exact N2. apply O1. exact N1.
  - congruence.
  - congruence.
  - congruence.
Qed.

Lemma bind_Ok {A B} (m : M A) (k : A -> M B) (s s' : State) (a : A) :
  m s = Ok a s' -> bind m k s = k a s'.
Proof. intros E. unfold bind. rewrite E. reflexivity. Qed.

Lemma bind_Throw {A B} (m : M A) (k : A -> M B) (s s' : State) (e : JsError) :
  m s = Throw e s' -> bind m k s = Throw e s'.
Proof. intros E. unfold bind. rewrite E. reflexivity. Qed.

Lemma bind_deref {A B} (name : string) (f : Pool -> option A) (k : A -> M B)
    (s : State) :
  bind (deref name f) k s =
  match f (pool s) with
  | Some v => k v s
  | None => Throw (TypeError name) s
  end.
Proof. unfold bind, deref. destruct (f (pool s)); reflexivity. Qed.

Lemma deref_eq {A} (name : string) (f : Pool -> option A) (s : State) :
  deref name f s =
  match f (pool s) with
  | Some v => Ok v s
  | None => Throw (TypeError name) s
  end.
Proof. reflexivity. Qed.

Lemma bind_assoc {A B C} (m : M A) (k1 : A -> M B) (k2 : B -> M C) (s : State) :
  bind (bind m k1) k2 s = bind m (fun a => bind (k1 a) k2) s.
Proof. unfold bind. destruct (m s); reflexivity. Qed.

Lemma bind_ret {A B} (a : A) (k : A -> M B) (s : State) :
  bind (ret a) k s = k a s.
Proof. reflexivity. Qed.

Lemma bind_gets {A B} (f : State -> A) (k : A -> M B) (s : State) :
  bind (gets f) k s = k (f s) s.
Proof. reflexivity. Qed.

Lemma bind_modify {B} (f : State -> State) (k : unit -> M B) (s : State) :
  bind (modify f) k s = k tt (f s).
Proof. reflexivity. Qed.

Lemma bind_modify_gl {B} (f : GLState -> GLState) (k : unit -> M B) (s : State) :
  bind (modify_gl f) k s = k tt (with_gl (f (gl s)) s).
Proof. reflexivity. Qed.

Lemma bind_emit {B} (e : Event) (k : unit -> M B) (s : State) :
  bind (emit e) k s = k tt (with_log (log s ++ [e]) s).
Proof. reflexivity. Qed.

Lemma bind_assign {B} (f : Pool -> Pool) (k : unit -> M B) (s : State) :
  bind (assign f) k s = k tt (with_pool (f (pool s)) s).
Proof. reflexivity. Qed.

(** Run the state-passing plumbing, leaving the WebGL calls alone. *)
Ltac run_monad :=
  unfold the_dye, the_velocity, the_divergence, the_curl, the_pressure;
  repeat first
    [ rewrite bind_assoc
    | rewrite bind_ret
    | rewrite bind_gets
    | rewrite bind_modify
    | rewrite bind_modify_gl
    | rewrite bind_emit
    | rewrite bind_assign
    | rewrite bind_deref
    | rewrite deref_eq
    | progress cbn [when ret gets modify modify_gl emit assign throw
         canvas gl pool pointer0 autoSplatTimer lastTime colorTimer random_calls
         listeners log
         dye velocity divergence curl pressure
         pool_with_dye pool_with_velocity pool_with_divergence pool_with_curl
         pool_with_pressure
         with_gl with_canvas with_pool with_pointer0 with_timers
         with_random_calls with_listeners with_log] ].

Ltac run_createDoubleFBO g E C I0 I1 O K P U :=
  match goal with
  | |- context [bind (createDoubleFBO ?w ?h ?i ?f ?t ?fl) ?k ?s] =>
      destruct (createDoubleFBO_spec w h i f t fl s)
        as (g & E & C & I0 & I1 & O & K & P & U);
      cbn [gl with_gl with_pool with_log pool texture_count] in E, C, I0, I1, O, K, P, U;
      rewrite (bind_Ok _ k s _ _ E); clear E
  end.

Ltac run_createFBO g E C I0 O K P U :=
  match goal with
  | |- context [bind (createFBO ?w ?h ?i ?f ?t ?fl) ?k ?s] =>
      destruct (createFBO_spec w h i f t fl s)
        as (g & E & C & I0 & O & K & P & U);
      cbn [gl with_gl with_pool with_log pool texture_count] in E, C, I0, O, K, P, U;
      rewrite (bind_Ok _ k s _ _ E); clear E
  end.

Lemma initFramebuffers_allocates (cfg : Config) (ext : Ext) (s : State)
    (rgba rg r : Format) :
  formatRGBA ext = Some rgba -> formatRG ext = Some rg -> formatR ext = Some r ->
  let n := texture_count (gl s) in
  let sim := resolution_for (width (canvas s)) (height (canvas s)) (SIM_RESOLUTION cfg) in
  let dyr := resolution_for (width (canvas s)) (height (canvas s)) (DYE_RESOLUTION cfg) in
  let filt := if supportLinearFiltering ext then GL.LINEAR else GL.NEAREST in
  exists g',
    initFramebuffers cfg ext s =
      Ok tt (with_log (log s ++ [EvInitFramebuffers])
              (with_pool
                 {| dye := Some (double_target n (res_width dyr) (res_height dyr));
                    velocity := Some (double_target (2 + n) (res_width sim) (res_height sim));
                    divergence := Some (target (4 + n) (res_width sim) (res_height sim));
                    curl := Some (target (5 + n) (res_width sim) (res_height sim));
                    pressure := Some (double_target (6 + n) (res_width sim) (res_height sim)) |}
                 (with_gl g' s))) /\
    (forall k, (k < 2)%nat -> textures g' (k + n) =
       cleared (res_width dyr) (res_height dyr) (internalFormat rgba) filt (clearColor (gl s))) /\
    (forall k, (2 <= k < 4)%nat -> textures g' (k + n) =
       cleared (res_width sim) (res_height sim) (internalFormat rg) filt (clearColor (gl s))) /\
    (forall k, (4 <= k < 8)%nat -> textures g' (k + n) =
       cleared (res_width sim) (res_height sim) (internalFormat r) GL.NEAREST (clearColor (gl s))) /\
    (forall m, (m < n)%nat -> textures g' m = textures (gl s) m) /\
    texture_count g' = (8 + n)%nat /\
    clearColor g' = clearColor (gl s) /\
    program g' = program (gl s) /\
    uniforms g' = uniforms (gl s).
Proof.
  intros E1 E2 E3 n sim dyr filt. subst n.
  unfold initFramebuffers. rewrite E1, E2, E3.
  cbn [bind emit modify getResolution gets ret assign
       canvas with_log with_pool with_gl pool gl log].
  fold sim dyr filt.
  run_createDoubleFBO g1 F1 T1 I1 J1 O1 K1 P1 U1. run_monad.
  run_createDoubleFBO g2 F2 T2 I2 J2 O2 K2 P2 U2. run_monad.
  run_createFBO g3 F3 T3 I3 O3 K3 P3 U3. run_monad.
  run_createFBO g4 F4 T4 I4 O4 K4 P4 U4. run_monad.
  run_createDoubleFBO g5 F5 T5 I5 J5 O5 K5 P5 U5. run_monad.
  rewrite T2 in *. rewrite T3 in *. rewrite T4 in *. rewrite T1 in *.
  exists g5. split; [reflexivity|].
  repeat split.
  - intros k K. assert (C' : (k = 0 \/ k = 1)%nat) by lia.
    destruct C' as [-> | ->]; cbn [Nat.add];
      rewrite O5, O4, O3, O2 by lia; assumption.
  - intros k K. assert (C' : (k = 2 \/ k = 3)%nat) by lia.
    destruct C' as [-> | ->]; cbn [Nat.add];
      rewrite O5, O4, O3 by lia; congruence.
  - intros k K. assert (C' : (k = 4 \/ k = 5 \/ k = 6 \/ k = 7)%nat) by lia.
    destruct C' as [-> | [-> | [-> | ->]]]; cbn [Nat.add].
    + rewrite O5, O4 by lia. congruence.
    + rewrite O5 by lia. congruence.
    + congruence.
    + congruence.
  - intros m M. rewrite O5, O4, O3, O2, O1 by lia. reflexivity.
  - exact T5.
  - congruence.
  - congruence.
  - congruence.
Qed.

Lemma fetch_cleared (w h i filt x y : Z) :
  GL.fetch (cleared w h i filt (V4 0 0 0 1)) x y = V4 0 0 0 1.
Proof.
  unfold GL.fetch, cleared, GL.expand. cbn [GL.img_ifmt GL.img_texel].
  destruct (GL.channels i) as [|[|[|k]]]; reflexivity.
Qed.

(** C5, as the code has it.  A render target just created reads as the
    clear colour (0, 0, 0, 1) at every texel: zero in its colour channels,
    one in alpha.  After a rebuild of the pool all eight targets are new
    textures that read so, whatever the old ones held. *)
Theorem fresh_targets_read_clear_colour (cfg : Config) (ext : Ext) (s : State) :
  clearColor (gl s) = V4 0 0 0 1 ->
  (forall w h i f ty filt, exists t s',
     createFBO w h i f ty filt s = Ok t s' /\
     forall x y, GL.fetch (textures (gl s') (texture t)) x y = V4 0 0 0 1) /\
  (forall rgba rg r,
     formatRGBA ext = Some rgba -> formatRG ext = Some rg -> formatR ext = Some r ->
     exists s' d v dv c p,
       initFramebuffers cfg ext s = Ok tt s' /\
       pool s' = {| dye := Some d; velocity := Some v; divergence := Some dv;
                    curl := Some c; pressure := Some p |} /\
       forall t, In t [read d; write d; read v; write v; dv; c; read p; write p] ->
         (texture_count (gl s) <= texture t)%nat /\
         forall x y, GL.fetch (textures (gl s') (texture t)) x y = V4 0 0 0 1).
Proof.
  intros CC. split.
  - intros w h i f ty filt.
    destruct (createFBO_spec w h i f ty filt s) as (g & E & C & I & O & K & P & U).
    eexists. eexists. split; [exact E|]. intros x y.
    cbn [gl with_gl texture target]. rewrite I, CC. apply fetch_cleared.
  - intros rgba rg r E1 E2 E3.
    destruct (initFramebuffers_allocates cfg ext s rgba rg r E1 E2 E3)
      as (g & E & D & V & R & O & C & K & P & U).
    cbv zeta in *. rewrite CC in *.
    do 6 eexists. split; [exact E|]. split; [reflexivity|].
    cbn [gl with_gl with_log with_pool read write double_target target].
    intros t [<- | [<- | [<- | [<- | [<- | [<- | [<- | [<- | []]]]]]]]];
      cbn [texture target read write double_target Nat.add]; (split; [lia|]);
      intros x y.
    + pose proof (D 0%nat ltac:(lia)) as X. cbn [Nat.add] in X. rewrite X.
      apply fetch_cleared.
    + pose proof (D 1%nat ltac:(lia)) as X. cbn [Nat.add] in X. rewrite X.
      apply fetch_cleared.
    + pose proof (V 2%nat ltac:(lia)) as X. cbn [Nat.add] in X. rewrite X.
      apply fetch_cleared.
    + pose proof (V 3%nat ltac:(lia)) as X. cbn [Nat.add] in X. rewrite X.
      apply fetch_cleared.
    + pose proof (R 4%nat ltac:(lia)) as X. cbn [Nat.add] in X. rewrite X.
      apply fetch_cleared.
    + pose proof (R 5%nat ltac:(lia)) as X. cbn [Nat.add] in X. rewrite X.
      apply fetch_cleared.
    + pose proof (R 6%nat ltac:(lia)) as X. cbn [Nat.add] in X. rewrite X.
      apply fetch_cleared.
    + pose proof (R 7%nat ltac:(lia)) as X. cbn [Nat.add] in X. rewrite X.
      apply fetch_cleared.
Qed.

(** ** Startup *)

Lemma resizeCanvas_spec (s : State) :
  exists b c',
    resizeCanvas s = Ok b (with_canvas c' s) /\
    (width c', height c') = client_pixels (canvas s) /\
    clientWidth c' = clientWidth (canvas s) /\
    clientHeight c' = clientHeight (canvas s) /\
    devicePixelRatio c' = devicePixelRatio (canvas s) /\
    pointerEvents c' = pointerEvents (canvas s) /\
    (b = false -> c' = canvas s).
Proof.
  unfold resizeCanvas. run_monad.
  destruct (client_pixels (canvas s)) as [w h] eqn:E.
  destruct (negb (width (canvas s) =? w)%Z || negb (height (canvas s) =? h)%Z) eqn:B.
  - exists true. eexists. run_monad. split; [reflexivity|].
    cbn. repeat split; try reflexivity. discriminate.
  - exists false. exists (canvas s). run_monad. split.
    + destruct s; reflexivity.
    + apply orb_false_elim in B as [B1 B2].
      apply negb_false_iff, Z.eqb_eq in B1, B2. rewrite B1, B2.
      repeat split; reflexivity.
Qed.

Lemma random_spec `{Host} (s : State) :
  random s = Ok (Math_random (random_calls s))
                (with_random_calls (S (random_calls s)) s).
Proof. reflexivity. Qed.

(** A splat before the pool exists stops at [velocity.read]. *)
Lemma splat_throws `{Host} (cfg : Config) (x y dx dy : Q) (c : vec3) (s : State) :
  velocity (pool s) = None ->
  exists g',
    splat cfg x y dx dy c s =
      Throw (TypeError "velocity")
            (with_gl g' (with_log (log s ++ [EvSplat x y dx dy c]) s)) /\
    texture_count g' = texture_count (gl s).
Proof.
  intros V. unfold splat, gl_useProgram. run_monad.
  rewrite V. eexists. split; reflexivity.
Qed.

Lemma initial_splat_throws `{Host} (cfg : Config) (s : State) :
  random_in_range _ ->
  velocity (pool s) = None ->
  exists g' x y dx dy c,
    initial_splat cfg s =
      Throw (TypeError "velocity")
            (with_gl g' (with_random_calls (5 + random_calls s)
               (with_log (log s ++ [EvSplat x y dx dy c]) s))) /\
    texture_count g' = texture_count (gl s).
Proof.
  intros R V. unfold initial_splat.
  destruct (getRandomColor_palette s R) as (c & _ & E).
  rewrite (bind_Ok _ _ _ _ _ E).
  repeat (rewrite (bind_Ok _ _ _ _ _ (random_spec _)); run_monad).
  match goal with
  | |- context [splat cfg ?x ?y ?dx ?dy ?c ?s] =>
      destruct (splat_throws cfg x y dx dy c s V) as (g & F & T)
  end.
  exists g. do 5 eexists. rewrite F. run_monad. split; [reflexivity|exact T].
Qed.

(** C1 does not hold of the code.  When the 4-channel probe fails,
    [initFramebuffers] declines: its guard returns before any render target
    is allocated.  But only that function returns, and the module runs on.
    The canvas was given the size of its client box in device pixels before
    the pool was attempted; after [initFramebuffers] has returned the module
    sets the [pointer-events] style of the canvas to ["none"], registers the
    two listeners on the window and runs the first initial splat, which stops
    at [velocity.read] of the pool that was never assigned with a
    [TypeError] that nothing catches.  So the module does not decline to
    start, the host surface is not left as it was, and what ends the module
    is a crash, not a reported failure; nothing is drawn and the frame loop
    is never entered. *)
Theorem startup_without_float_target `{Host} (cfg : Config) (d : Device)
    (c : Canvas) (t0 t1 : Z) :
  random_in_range _ ->
  webgl2 d || webgl1 d = true ->
  (forall ty, renderable d (if webgl2 d then GL.RGBA16F else GL.RGBA) GL.RGBA ty
              = false) ->
  exists s' x y dx dy col,
    main cfg d c t0 t1 = Throw (TypeError "velocity") s' /\
    log s' = [EvInitFramebuffers; EvSplat x y dx dy col] /\
    pool s' = no_pool /\
    texture_count (gl s') = 1%nat /\
    (width (canvas s'), height (canvas s')) = client_pixels c /\
    pointerEvents (canvas s') = Some "none"%string /\
    listeners s' = ["pointermove"; "touchmove"]%string.
Proof.
  intros R C P.
  destruct (getWebGLContext_some d C) as (ext & E & F).
  unfold main. rewrite E. cbn [ctx_gl ctx_ext].
  assert (N : formatRGBA ext = None).
  { rewrite F, getSupportedFormat_step.
    unfold supportRenderTextureFormat. rewrite P.
    unfold is_R16F, is_RG16F. destruct (webgl2 d); reflexivity. }
  unfold module_body, module_init. rewrite !bind_assoc.
  set (s0 := initial_state c (gl_with_clearColor (V4 0 0 0 1) fresh_gl)).
  destruct (resizeCanvas_spec s0) as (b & c' & E0 & S0 & _ & _ & _ & PE & _).
  rewrite (bind_Ok _ _ _ _ _ E0). rewrite !bind_assoc.
  rewrite (bind_Ok _ _ _ _ _ (initFramebuffers_declines cfg ext _ (or_introl N))).
  run_monad. unfold for_lt. change (Z.to_nat 4) with 4%nat. cbn [repeatM].
  rewrite !bind_assoc.
  match goal with
  | |- context [bind (initial_splat cfg) ?k ?s] =>
      destruct (initial_splat_throws cfg s R eq_refl)
        as (g & x & y & dx & dy & col & T & TC);
      rewrite (bind_Throw _ k s _ _ T)
  end.
  eexists. exists x, y, dx, dy, col. split; [reflexivity|].
  run_monad. cbn [canvas_with_pointerEvents width height pointerEvents].
  repeat split; try reflexivity.
  - exact TC.
  - exact S0.
Qed.

(** ** Draw calls *)

(** Run straight-line code on a state in constructor form: the plumbing and
    the WebGL calls are unfolded, arithmetic, samplers and shaders are left
    as they are. *)
Ltac run_flat :=
  cbv beta iota zeta delta
    [bind emit modify modify_gl gets ret assign when throw deref
     the_dye the_velocity the_divergence the_curl the_pressure
     canvas gl pool pointer0 autoSplatTimer lastTime colorTimer random_calls
     listeners log
     dye velocity divergence curl pressure
     pool_with_dye pool_with_velocity pool_with_divergence pool_with_curl
     pool_with_pressure
     with_gl with_canvas with_pool with_pointer0 with_timers
     with_random_calls with_listeners with_log
     blit attach gl_activeTexture gl_bindTexture gl_viewport
     gl_bindFramebuffer gl_useProgram gl_uniform gl_drawElements
     dye_swap velocity_swap pressure_swap swap
     read write d_width d_height texelSizeX texelSizeY
     texture fbo fbo_width fbo_height
     clearColor textures texture_count activeTexture bound program viewport
     framebuffer uniforms
     gl_with_units gl_with_target gl_with_program gl_with_textures
     draw_texture Prog_beq].

(** *** Sampling at texel centres *)

Lemma Qfloor_unique (x : Q) (n : Z) :
  inject_Z n <= x -> x < inject_Z (n + 1) -> Qfloor x = n.
Proof.
  intros L U.
  pose proof (Qfloor_le x) as L'. pose proof (Qlt_floor x) as U'.
  assert (A : (n < Qfloor x + 1)%Z).
  { rewrite Zlt_Qlt. eapply Qle_lt_trans; [exact L|exact U']. }
  assert (B : (Qfloor x < n + 1)%Z).
  { rewrite Zlt_Qlt. eapply Qle_lt_trans; [exact L'|exact U]. }
  lia.
Qed.

Lemma Qfloor_plus_half (i : Z) : Qfloor (inject_Z i + (1#2)) = i.
Proof.
  apply Qfloor_unique.
  - rewrite <- (Qplus_0_r (inject_Z i)) at 1.
    apply Qplus_le_r. discriminate.
  - rewrite inject_Z_plus. apply Qplus_lt_r. reflexivity.
Qed.

Lemma Qfloor_minus_half (i : Z) : Qfloor (inject_Z i - (1#2)) = (i - 1)%Z.
Proof.
  apply Qfloor_unique.
  - unfold Z.sub. rewrite inject_Z_plus. unfold Qminus.
    apply Qplus_le_r. discriminate.
  - replace (i - 1 + 1)%Z with i by lia.
    rewrite <- (Qplus_0_r (inject_Z i)) at 2. unfold Qminus.
    apply Qplus_lt_r. reflexivity.
Qed.

Lemma clampZ_inside (i n : Z) : (0 <= i < n)%Z -> GL.clampZ i n = i.
Proof. unfold GL.clampZ. lia. Qed.

Lemma inject_Z_nonzero (n : Z) : (0 < n)%Z -> ~ inject_Z n == 0.
Proof.
  intros P E. apply inject_Z_pos in P. rewrite E in P.
  exact (Qlt_irrefl _ P).
Qed.

Lemma centre_scaled (i w : Z) :
  (0 < w)%Z ->
  (inject_Z i + (1#2)) / inject_Z w * inject_Z w == inject_Z i + (1#2).
Proof. intros P. field. apply inject_Z_nonzero. exact P. Qed.

Lemma mix_0 (a b t : Q) : t == 0 -> glsl_mix a b t == a.
Proof. intros E. unfold glsl_mix. rewrite E. ring. Qed.

Lemma mix4_0 (a b : vec4) (t : Q) : t == 0 -> v4eq (mix4 a b t) a.
Proof.
  intros E. unfold v4eq, mix4. cbn [px py pz pw].
  repeat split; apply mix_0; exact E.
Qed.

Lemma v4eq_refl (a : vec4) : v4eq a a.
Proof. unfold v4eq. repeat split; reflexivity. Qed.

Lemma v4eq_trans (a b c : vec4) : v4eq a b -> v4eq b c -> v4eq a c.
Proof.
  unfold v4eq. intros (A1 & A2 & A3 & A4) (B1 & B2 & B3 & B4).
  repeat split; etransitivity; eassumption.
Qed.

Lemma mix4_cong (a a' b : vec4) (t : Q) :
  v4eq a a' -> t == 0 -> v4eq (mix4 a b t) a'.
Proof.
  intros A E. eapply v4eq_trans; [apply mix4_0; exact E|exact A].
Qed.

(** A texture sampled at the centre of one of its texels gives that texel,
    with either filter. *)
Lemma texture2D_centre (im : GL.Image) (i j : Z) :
  (0 <= i < GL.img_w im)%Z -> (0 <= j < GL.img_h im)%Z ->
  v4eq (GL.texture2D im (GL.pixel_uv (GL.img_w im) (GL.img_h im) i j))
       (GL.fetch im i j).
Proof.
  intros I J. unfold GL.texture2D.
  destruct (GL.img_filter im =? GL.LINEAR)%Z.
  - unfold GL.linear, GL.pixel_uv. cbn [vx vy].
    set (u := (inject_Z i + (1#2)) / inject_Z (GL.img_w im) * inject_Z (GL.img_w im) - (1#2)).
    set (v := (inject_Z j + (1#2)) / inject_Z (GL.img_h im) * inject_Z (GL.img_h im) - (1#2)).
    assert (PW : (0 < GL.img_w im)%Z) by lia.
    assert (PH : (0 < GL.img_h im)%Z) by lia.
    assert (U : u == inject_Z i).
    { unfold u. rewrite (centre_scaled i _ PW). ring. }
    assert (V : v == inject_Z j).
    { unfold v. rewrite (centre_scaled j _ PH). ring. }
    assert (FU : Qfloor u = i) by (rewrite (Qfloor_comp _ _ U); apply Qfloor_Z).
    assert (FV : Qfloor v = j) by (rewrite (Qfloor_comp _ _ V); apply Qfloor_Z).
    assert (RU : glsl_fract u == 0).
    { unfold glsl_fract, glsl_floor. rewrite FU, U. ring. }
    assert (RV : glsl_fract v == 0).
    { unfold glsl_fract, glsl_floor. rewrite FV, V. ring. }
    rewrite FU, FV. rewrite !(clampZ_inside i), !(clampZ_inside j) by lia.
    apply mix4_cong; [|exact RV]. apply mix4_0. exact RU.
  - unfold GL.nearest, GL.pixel_uv. cbn [vx vy].
    assert (PW : (0 < GL.img_w im)%Z) by lia.
    assert (PH : (0 < GL.img_h im)%Z) by lia.
    rewrite (Qfloor_comp _ _ (centre_scaled i _ PW)).
    rewrite (Qfloor_comp _ _ (centre_scaled j _ PH)).
    rewrite !Qfloor_plus_half.
    rewrite (clampZ_inside i), (clampZ_inside j) by lia.
    apply v4eq_refl.
Qed.

(** *** What a draw leaves in its target *)

Lemma fetch_drawn (f : Z -> Z -> vec4) (im : GL.Image) (i j : Z) :
  GL.fetch (image_with_texels f im) i j = GL.expand (GL.img_ifmt im) (f i j).
Proof. reflexivity. Qed.

Lemma px_expand (i : Z) (v : vec4) : px (GL.expand i v) = px v.
Proof. unfold GL.expand. destruct (GL.channels i) as [|[|[|k]]]; reflexivity. Qed.

Lemma py_expand (i : Z) (v : vec4) :
  (2 <= GL.channels i)%nat -> py (GL.expand i v) = py v.
Proof.
  unfold GL.expand. destruct (GL.channels i) as [|[|[|k]]]; try reflexivity; lia.
Qed.

Lemma pz_expand (i : Z) (v : vec4) :
  (3 <= GL.channels i)%nat -> pz (GL.expand i v) = pz v.
Proof.
  unfold GL.expand. destruct (GL.channels i) as [|[|[|k]]]; try reflexivity; lia.
Qed.

Lemma in_viewport_true (w h i j : Z) :
  (0 <= i < w)%Z -> (0 <= j < h)%Z -> GL.in_viewport w h i j = true.
Proof.
  intros I J. unfold GL.in_viewport.
  rewrite !andb_true_iff, !Z.leb_le, !Z.ltb_lt. lia.
Qed.

(** Look the uniforms and the texture units up in an explicit WebGL state. *)
Ltac lookup_uniforms :=
  cbv beta iota zeta delta
    [uniforms bound textures as_float as_vec2 as_vec3 as_int
     UName_beq Prog_beq andb updZ Z.eqb Pos.eqb].

(** The splat shader, in terms of the uniforms and of the bound target. *)
Lemma fragment_at_splat `{Host} (g : GLState) (w h i j : Z) :
  fragment_at g splatProgram w h i j =
  let u := uniforms g splatProgram in
  let uv := GL.pixel_uv w h i j in
  let k := splat_kernel (as_float (u aspectRatio)) (as_vec2 (u point))
                        (as_float (u radius)) uv in
  let base := GL.texture2D (textures g (bound g (as_int (u uTarget)))) uv in
  V4 (px base + k * c_r (as_vec3 (u color)))
     (py base + k * c_g (as_vec3 (u color)))
     (pz base + k * c_b (as_vec3 (u color))) 1.
Proof. reflexivity. Qed.

(** ** Splats *)

(** Facts about a texture after draws into other textures. *)
Ltac solve_image :=
  repeat first
    [ rewrite upd_same
    | rewrite upd_other by congruence
    | progress cbn [image_with_texels GL.img_w GL.img_h GL.img_ifmt
                    GL.img_filter textures gl] ];
  first [reflexivity | assumption | congruence | lia].

(** What one call of [splat] does, the pool being there. *)
Lemma splat_spec `{Host} (cfg : Config) (x y dx dy : Q) (c : vec3) (s : State)
    (v d : DoubleFBO) :
  velocity (pool s) = Some v -> dye (pool s) = Some d ->
  double_ok (gl s) v 2 -> double_ok (gl s) d 3 ->
  NoDup [texture (read v); texture (write v); texture (read d); texture (write d)] ->
  exists s',
    splat cfg x y dx dy c s = Ok tt s' /\
    pool s' = pool_with_dye (Some (swap d))
                (pool_with_velocity (Some (swap v)) (pool s)) /\
    log s' = log s ++ [EvSplat x y dx dy c;
                       EvDraw splatProgram (Some (fbo (write v)));
                       EvSwap Fvelocity;
                       EvDraw splatProgram (Some (fbo (write d)));
                       EvSwap Fdye] /\
    (forall i j, (0 <= i < d_width v)%Z -> (0 <= j < d_height v)%Z ->
       let k := splat_weight cfg (canvas s) x y (d_width v) (d_height v) i j in
       let old := GL.fetch (textures (gl s) (texture (read v))) i j in
       let new := GL.fetch (textures (gl s') (texture (write v))) i j in
       px new == px old + k * (dx * SPLAT_FORCE cfg) /\
       py new == py old + k * (dy * SPLAT_FORCE cfg)) /\
    (forall i j, (0 <= i < d_width d)%Z -> (0 <= j < d_height d)%Z ->
       let k := splat_weight cfg (canvas s) x y (d_width d) (d_height d) i j in
       let old := GL.fetch (textures (gl s) (texture (read d))) i j in
       let new := GL.fetch (textures (gl s') (texture (write d))) i j in
       px new == px old + k * c_r c /\
       py new == py old + k * c_g c /\
       pz new == pz old + k * c_b c) /\
    double_ok (gl s') (swap v) 2 /\
    double_ok (gl s') (swap d) 3 /\
    (forall t, t <> texture (write v) -> t <> texture (write d) ->
       textures (gl s') t = textures (gl s) t) /\
    clearColor (gl s') = clearColor (gl s) /\
    with_gl (gl s) (with_pool (pool s) (with_log (log s) s')) = s.
Proof.
  intros V D [] [] ND.
  destruct s as [cv g pl ptr at_ lt ct rc ls lg].
  destruct g as [cc tx tc au bd fb vp pg un].
  destruct pl as [pd pv pdv pc pp].
  destruct v as [vw vh vtx vty [rt rf rw rh] [wt wf ww wh]].
  destruct d as [dw dh dtx dty [drt drf drw drh] [dwt dwf dww dwh]].
  cbn [pool gl velocity dye read write fbo texture d_width d_height fbo_width
       fbo_height textures] in *.
  subst.
  assert (N : rt <> wt /\ rt <> drt /\ rt <> dwt /\ wt <> drt /\ wt <> dwt /\
              drt <> dwt).
  { inversion ND as [|? ? A1 ND1]; subst. inversion ND1 as [|? ? A2 ND2]; subst.
    inversion ND2 as [|? ? A3 ND3]; subst. cbn in A1, A2, A3. intuition congruence. }
  destruct N as (N1 & N2 & N3 & N4 & N5 & N6).
  unfold splat, correctRadius. run_flat.
  eexists. split; [reflexivity|].
  cbn [pool gl log canvas textures clearColor]. split; [reflexivity|].
  split; [rewrite <- !app_assoc; reflexivity|].
  split; [|split; [|split; [|split; [|split; [|split]]]]].
  - intros i j I J. cbv zeta.
    rewrite (upd_other _ dwt) by congruence. rewrite upd_same, fetch_drawn.
    rewrite in_viewport_true by assumption.
    rewrite fragment_at_splat. lookup_uniforms.
    pose proof (texture2D_centre (tx rt) i j I J) as (B1 & B2 & _).
    rewrite px_expand, py_expand by assumption. cbn [px py c_r c_g c_b].
    rewrite B1, B2. split; reflexivity.
  - intros i j I J. cbv zeta.
    rewrite upd_same, fetch_drawn.
    rewrite in_viewport_true by assumption.
    rewrite fragment_at_splat. lookup_uniforms.
    rewrite !(upd_other _ wt _ drt), !(upd_other _ wt _ dwt) by congruence.
    pose proof (texture2D_centre (tx drt) i j I J) as (B1 & B2 & B3 & _).
    rewrite px_expand, py_expand, pz_expand by lia.
    cbn [px py pz c_r c_g c_b].
    rewrite B1, B2, B3. repeat split; reflexivity.
  - split; cbn [swap read write texture fbo fbo_width fbo_height d_width
                d_height]; solve_image.
  - split; cbn [swap read write texture fbo fbo_width fbo_height d_width
                d_height]; solve_image.
  - intros t T1 T2. rewrite !upd_other by assumption. reflexivity.
  - reflexivity.
  - reflexivity.
Qed.

(** C8.  With the pool in place, [splat(x, y, dx, dy, color)] returns for
    every position; at every texel the new velocity is the old velocity plus
    the kernel weight times [(dx, dy) * SPLAT_FORCE] and the new dye is the
    old dye plus the same kernel weight times the colour.  The weight is
    [exp(-|p|^2 / radius)] for [p] the offset of the texel centre from
    [(x, y)] with its x component multiplied by the canvas aspect ratio:
    one aspect ratio and one radius serve both passes.  Each of the two
    fields is swapped exactly once. *)
Theorem splat_adds_kernel `{Host} (cfg : Config) (s : State) (v d : DoubleFBO)
    (x y dx dy : Q) (c : vec3) :
  velocity (pool s) = Some v -> dye (pool s) = Some d ->
  double_ok (gl s) v 2 -> double_ok (gl s) d 3 ->
  NoDup [texture (read v); texture (write v); texture (read d); texture (write d)] ->
  let ar := inject_Z (width (canvas s)) / inject_Z (height (canvas s)) in
  let weight (w h i j : Z) :=
    let p := V2 ((vx (GL.pixel_uv w h i j) - x) * ar) (vy (GL.pixel_uv w h i j) - y) in
    glsl_exp ((- dot2 p p) / splat_radius cfg (canvas s)) in
  exists s',
    splat cfg x y dx dy c s = Ok tt s' /\
    velocity (pool s') = Some (swap v) /\
    dye (pool s') = Some (swap d) /\
    log s' = log s ++ [EvSplat x y dx dy c;
                       EvDraw splatProgram (Some (fbo (write v)));
                       EvSwap Fvelocity;
                       EvDraw splatProgram (Some (fbo (write d)));
                       EvSwap Fdye] /\
    (forall i j, (0 <= i < d_width v)%Z -> (0 <= j < d_height v)%Z ->
       let old := GL.fetch (textures (gl s) (texture (read v))) i j in
       let new := GL.fetch (textures (gl s') (texture (read (swap v)))) i j in
       px new == px old + weight (d_width v) (d_height v) i j * (dx * SPLAT_FORCE cfg) /\
       py new == py old + weight (d_width v) (d_height v) i j * (dy * SPLAT_FORCE cfg)) /\
    (forall i j, (0 <= i < d_width d)%Z -> (0 <= j < d_height d)%Z ->
       let old := GL.fetch (textures (gl s) (texture (read d))) i j in
       let new := GL.fetch (textures (gl s') (texture (read (swap d)))) i j in
       px new == px old + weight (d_width d) (d_height d) i j * c_r c /\
       py new == py old + weight (d_width d) (d_height d) i j * c_g c /\
       pz new == pz old + weight (d_width d) (d_height d) i j * c_b c).
Proof.
  intros V D OV OD ND ar weight.
  destruct (splat_spec cfg x y dx dy c s v d V D OV OD ND)
    as (s' & E & P & L & TV & TD & _).
  exists s'. split; [exact E|]. rewrite P. cbn [velocity dye pool_with_dye pool_with_velocity].
  split; [reflexivity|]. split; [reflexivity|]. split; [exact L|].
  split.
  - intros i j I J. exact (TV i j I J).
  - intros i j I J. exact (TD i j I J).
Qed.

(** ** The divergence pass *)

Lemma centre_in_unit (i w : Z) :
  (0 <= i < w)%Z ->
  0 < (inject_Z i + (1#2)) / inject_Z w /\ (inject_Z i + (1#2)) / inject_Z w < 1.
Proof.
  intros I. assert (P : 0 < inject_Z w) by (apply inject_Z_pos; lia).
  assert (I0 : 0 <= inject_Z i) by (change 0 with (inject_Z 0); rewrite <- Zle_Qle; lia).
  assert (I1 : inject_Z i + 1 <= inject_Z w).
  { change 1 with (inject_Z 1). rewrite <- inject_Z_plus, <- Zle_Qle. lia. }
  split.
  - apply Qlt_shift_div_l; [exact P|]. rewrite Qmult_0_l.
    apply Qlt_le_trans with (1#2); [reflexivity|].
    rewrite <- (Qplus_0_l (1#2)) at 1. apply Qplus_le_l. exact I0.
  - apply Qlt_shift_div_r; [exact P|]. rewrite Qmult_1_l.
    eapply Qlt_le_trans; [|exact I1]. apply Qplus_lt_r. reflexivity.
Qed.

(** C6.  The divergence pass writes, at every texel,
    [0.5 * (R - L + T - B)], where L and R are the x components of the
    velocity sampled one velocity-texel to the left and to the right and T
    and B the y components sampled one above and one below; a left or right
    sample whose x coordinate is outside [0, 1] is replaced by minus the x
    component of the centre velocity, and a top or bottom sample whose y
    coordinate is outside [0, 1] by minus its y component. *)
Theorem divergence_pass `{Host} (s : State)
    (v : DoubleFBO) (dv : FBO) :
  velocity (pool s) = Some v -> divergence (pool s) = Some dv ->
  fbo dv = texture dv ->
  texture dv <> texture (read v) ->
  0 <= texelSizeX v -> 0 <= texelSizeY v ->
  let vel := GL.texture2D (textures (gl s) (texture (read v))) in
  exists s',
    step_divergence s = Ok tt s' /\
    log s' = log s ++ [EvDraw divergenceProgram (Some (fbo dv))] /\
    pool s' = pool s /\
    forall i j, (0 <= i < fbo_width dv)%Z -> (0 <= j < fbo_height dv)%Z ->
      let uv := GL.pixel_uv (fbo_width dv) (fbo_height dv) i j in
      let l := v2sub uv (V2 (texelSizeX v) 0) in
      let r := v2add uv (V2 (texelSizeX v) 0) in
      let t := v2add uv (V2 0 (texelSizeY v)) in
      let b := v2sub uv (V2 0 (texelSizeY v)) in
      let C := vel uv in
      let L := if outside_unit (vx l) then - px C else px (vel l) in
      let R := if outside_unit (vx r) then - px C else px (vel r) in
      let T := if outside_unit (vy t) then - py C else py (vel t) in
      let B := if outside_unit (vy b) then - py C else py (vel b) in
      px (GL.fetch (textures (gl s') (texture dv)) i j) = (1#2) * (R - L + T - B).
Proof.
  intros V D F N TX TY vel. subst vel.
  destruct s as [cv g pl ptr at_ lt ct rc ls lg].
  destruct g as [cc tx tc au bd fb vp pg un].
  destruct pl as [pd pv pdv pc pp].
  destruct v as [vw vh vtx vty [rt rf rw rh] [wt wf ww wh]].
  destruct dv as [dt_ df dw dh].
  cbn [pool gl velocity divergence read write fbo texture d_width d_height
       fbo_width fbo_height textures texelSizeX texelSizeY log] in *.
  subst.
  unfold step_divergence. run_flat.
  eexists. split; [reflexivity|].
  cbn [pool gl log canvas textures]. split; [reflexivity|]. split; [reflexivity|].
  intros i j I J. cbv zeta.
  rewrite upd_same, fetch_drawn, px_expand.
  rewrite in_viewport_true by assumption.
  unfold fragment_at, fragmentShader, divergenceShader, baseVertexShader, texture2D.
  cbn [uniform texture_unit vUv vL vR vT vB].
  lookup_uniforms. cbn [px vx vy].
  destruct (centre_in_unit i dw I) as [U0 U1].
  destruct (centre_in_unit j dh J) as [V0 V1].
  unfold GL.pixel_uv, v2sub, v2add, outside_unit. cbn [vx vy].
  set (u := (inject_Z i + (1#2)) / inject_Z dw) in *.
  set (w := (inject_Z j + (1#2)) / inject_Z dh) in *.
  assert (A1 : Qltb 1 (u - vtx) = false) by (apply Qltb_ge; lra).
  assert (A2 : Qltb (u + vtx) 0 = false) by (apply Qltb_ge; lra).
  assert (A3 : Qltb (w + vty) 0 = false) by (apply Qltb_ge; lra).
  assert (A4 : Qltb 1 (w - vty) = false) by (apply Qltb_ge; lra).
  rewrite A1, A2, A3, A4. rewrite !orb_false_r. cbn [orb].
  reflexivity.
Qed.

(** ** The pressure stage *)

Section Nearest.
Variable im : GL.Image.
Variables i j : Z.
Hypothesis NEAREST : (GL.img_filter im =? GL.LINEAR)%Z = false.
Hypothesis I : (0 <= i < GL.img_w im)%Z.
Hypothesis J : (0 <= j < GL.img_h im)%Z.

Let w := GL.img_w im.
Let h := GL.img_h im.
Let uv := GL.pixel_uv w h i j.

Lemma nearest_at (p : vec2) (a b : Z) :
  vx p * inject_Z w == inject_Z a + (1#2) ->
  vy p * inject_Z h == inject_Z b + (1#2) ->
  GL.texture2D im p = GL.fetch im (GL.clampZ a w) (GL.clampZ b h).
Proof.
  intros A B. unfold GL.texture2D. rewrite NEAREST. unfold GL.nearest.
  fold w h. rewrite (Qfloor_comp _ _ A), (Qfloor_comp _ _ B).
  rewrite !Qfloor_plus_half. reflexivity.
Qed.

Let W0 : ~ inject_Z w == 0.
Proof. apply inject_Z_nonzero. unfold w. lia. Qed.
Let H0 : ~ inject_Z h == 0.
Proof. apply inject_Z_nonzero. unfold h. lia. Qed.

Lemma nearest_centre : GL.texture2D im uv = GL.fetch im i j.
Proof.
  rewrite (nearest_at uv i j).
  - unfold w, h. rewrite !clampZ_inside by assumption. reflexivity.
  - unfold uv, GL.pixel_uv. cbn [vx]. field. exact W0.
  - unfold uv, GL.pixel_uv. cbn [vy]. field. exact H0.
Qed.

Lemma nearest_left :
  GL.texture2D im (v2sub uv (V2 (1 / inject_Z w) 0)) =
  GL.fetch im (GL.clampZ (i - 1) w) j.
Proof.
  rewrite (nearest_at _ (i - 1) j).
  - unfold h. rewrite (clampZ_inside j) by assumption. reflexivity.
  - unfold uv, GL.pixel_uv, v2sub. cbn [vx]. unfold Z.sub.
    rewrite inject_Z_plus, inject_Z_opp. change (inject_Z 1) with 1. field. exact W0.
  - unfold uv, GL.pixel_uv, v2sub. cbn [vy]. field. exact H0.
Qed.

Lemma nearest_right :
  GL.texture2D im (v2add uv (V2 (1 / inject_Z w) 0)) =
  GL.fetch im (GL.clampZ (i + 1) w) j.
Proof.
  rewrite (nearest_at _ (i + 1) j).
  - unfold h. rewrite (clampZ_inside j) by assumption. reflexivity.
  - unfold uv, GL.pixel_uv, v2add. cbn [vx].
    rewrite inject_Z_plus. change (inject_Z 1) with 1. field. exact W0.
  - unfold uv, GL.pixel_uv, v2add. cbn [vy]. field. exact H0.
Qed.

Lemma nearest_top :
  GL.texture2D im (v2add uv (V2 0 (1 / inject_Z h))) =
  GL.fetch im i (GL.clampZ (j + 1) h).
Proof.
  rewrite (nearest_at _ i (j + 1)).
  - unfold w. rewrite (clampZ_inside i) by assumption. reflexivity.
  - unfold uv, GL.pixel_uv, v2add. cbn [vx]. field. exact W0.
  - unfold uv, GL.pixel_uv, v2add. cbn [vy].
    rewrite inject_Z_plus. change (inject_Z 1) with 1. field. exact H0.
Qed.

Lemma nearest_bottom :
  GL.texture2D im (v2sub uv (V2 0 (1 / inject_Z h))) =
  GL.fetch im i (GL.clampZ (j - 1) h).
Proof.
  rewrite (nearest_at _ i (j - 1)).
  - unfold w. rewrite (clampZ_inside i) by assumption. reflexivity.
  - unfold uv, GL.pixel_uv, v2sub. cbn [vx]. field. exact W0.
  - unfold uv, GL.pixel_uv, v2sub. cbn [vy]. unfold Z.sub.
    rewrite inject_Z_plus, inject_Z_opp. change (inject_Z 1) with 1. field. exact H0.
Qed.
End Nearest.

Lemma clampZ_range (i n : Z) : (0 < n)%Z -> (0 <= GL.clampZ i n < n)%Z.
Proof. unfold GL.clampZ. lia. Qed.

Lemma jacobi_ext (w h : Z) (D D' P P' : Z -> Z -> Q) :
  (0 < w)%Z -> (0 < h)%Z ->
  (forall i j, (0 <= i < w)%Z -> (0 <= j < h)%Z -> D i j = D' i j) ->
  (forall i j, (0 <= i < w)%Z -> (0 <= j < h)%Z -> P i j = P' i j) ->
  forall i j, (0 <= i < w)%Z -> (0 <= j < h)%Z ->
    jacobi w h D P i j = jacobi w h D' P' i j.
Proof.
  intros W Hh ED EP i j I J. unfold jacobi.
  rewrite (ED i j I J).
  rewrite (EP _ j (clampZ_range (i - 1) w W) J).
  rewrite (EP _ j (clampZ_range (i + 1) w W) J).
  rewrite (EP i _ I (clampZ_range (j - 1) h Hh)).
  rewrite (EP i _ I (clampZ_range (j + 1) h Hh)).
  reflexivity.
Qed.

Lemma jacobi_iter_ext (w h : Z) (D D' P P' : Z -> Z -> Q) (n : nat) :
  (0 < w)%Z -> (0 < h)%Z ->
  (forall i j, (0 <= i < w)%Z -> (0 <= j < h)%Z -> D i j = D' i j) ->
  (forall i j, (0 <= i < w)%Z -> (0 <= j < h)%Z -> P i j = P' i j) ->
  forall i j, (0 <= i < w)%Z -> (0 <= j < h)%Z ->
    Nat.iter n (jacobi w h D) P i j = Nat.iter n (jacobi w h D') P' i j.
Proof.
  intros W Hh ED EP. induction n as [|n IH]; intros i j I J.
  - exact (EP i j I J).
  - cbn [Nat.iter nat_rect]. apply jacobi_ext; assumption.
Qed.

(** One turn of the loop is one Jacobi sweep from the read buffer into the
    write buffer, followed by the swap. *)
Lemma pressure_iteration_spec `{Host} (s : State) (p : DoubleFBO) (tdv : nat) :
  pressure (pool s) = Some p ->
  jacobi_ready (gl s) p tdv ->
  exists s',
    pressure_iteration s = Ok tt s' /\
    pool s' = pool_with_pressure (Some (swap p)) (pool s) /\
    log s' = log s ++ [EvDraw pressureProgram (Some (fbo (write p)));
                       EvSwap Fpressure] /\
    jacobi_ready (gl s') (swap p) tdv /\
    textures (gl s') tdv = textures (gl s) tdv /\
    (forall t, t <> texture (write p) -> textures (gl s') t = textures (gl s) t) /\
    forall i j, (0 <= i < d_width p)%Z -> (0 <= j < d_height p)%Z ->
      grid (gl s') (texture (write p)) i j =
      jacobi (d_width p) (d_height p) (grid (gl s) tdv)
             (grid (gl s) (texture (read p))) i j.
Proof.
  intros P [PG TS UD U0 [] DW DH DR DWr NR NW ND].
  destruct s as [cv g pl ptr at_ lt ct rc ls lg].
  destruct g as [cc tx tc au bd fb vp pg un].
  destruct pl as [pd pv pdv pc pp].
  destruct p as [w h ptx pty [rt rf rw rh] [wt wf ww wh]].
  cbn [pool gl pressure read write fbo texture d_width d_height
       fbo_width fbo_height textures program uniforms bound] in *.
  subst.
  unfold pressure_iteration. run_flat.
  eexists. split; [reflexivity|].
  cbn [pool gl log canvas textures]. split; [reflexivity|].
  split; [rewrite <- !app_assoc; reflexivity|].
  split; [|split; [|split]].
  - split; cbn [swap read write texture fbo fbo_width fbo_height d_width
                d_height program uniforms bound];
      first [ solve_image
            | lookup_uniforms; assumption
            | split; cbn [swap read write texture fbo fbo_width fbo_height
                          d_width d_height]; solve_image ].
  - solve_image.
  - intros t T. solve_image.
  - intros i j I J. unfold grid. cbn [textures].
    rewrite upd_same, fetch_drawn, px_expand.
    rewrite in_viewport_true by assumption.
    unfold fragment_at, fragmentShader, pressureShader, baseVertexShader, texture2D.
    cbn [uniform texture_unit vUv vL vR vT vB].
    lookup_uniforms. cbn [px vx vy]. rewrite TS, UD. cbn [as_vec2 as_int vx vy].
    rewrite (nearest_left (tx rt) i j NR I J).
    rewrite (nearest_right (tx rt) i j NR I J).
    rewrite (nearest_top (tx rt) i j NR I J).
    rewrite (nearest_bottom (tx rt) i j NR I J).
    pose proof (nearest_centre (tx (bd 0%Z)) i j ND) as C.
    rewrite DW, DH in C. rewrite (C I J).
    reflexivity.
Qed.

Lemma iter_swap_size (n : nat) (p : DoubleFBO) :
  d_width (Nat.iter n swap p) = d_width p /\
  d_height (Nat.iter n swap p) = d_height p.
Proof.
  induction n as [|n [IW IH]]; [split; reflexivity|].
  cbn [Nat.iter nat_rect swap d_width d_height]. split; assumption.
Qed.

Lemma pool_with_pressure_same (pl : Pool) (p : DoubleFBO) :
  pressure pl = Some p -> pool_with_pressure (Some p) pl = pl.
Proof. destruct pl. cbn. intros ->. reflexivity. Qed.

(** [n] turns of the loop are [n] Jacobi sweeps. *)
Lemma jacobi_loop `{Host} (n : nat) :
  forall (s : State) (p : DoubleFBO) (tdv : nat),
    pressure (pool s) = Some p ->
    jacobi_ready (gl s) p tdv ->
    exists s',
      repeatM n pressure_iteration s = Ok tt s' /\
      pool s' = pool_with_pressure (Some (Nat.iter n swap p)) (pool s) /\
      log s' = log s ++ sweeps_log n p /\
      forall i j, (0 <= i < d_width p)%Z -> (0 <= j < d_height p)%Z ->
        grid (gl s') (texture (read (Nat.iter n swap p))) i j =
        Nat.iter n (jacobi (d_width p) (d_height p) (grid (gl s) tdv))
                 (grid (gl s) (texture (read p))) i j.
Proof.
  induction n as [|n IH]; intros s p tdv P R.
  - exists s. cbn [repeatM Nat.iter nat_rect sweeps_log]. split; [reflexivity|].
    split; [symmetry; apply pool_with_pressure_same; exact P|].
    split; [rewrite app_nil_r; reflexivity|]. reflexivity.
  - destruct (pressure_iteration_spec s p tdv P R)
      as (s1 & E1 & P1 & L1 & R1 & D1 & O1 & G1).
    assert (P1' : pressure (pool s1) = Some (swap p)) by (rewrite P1; reflexivity).
    destruct (IH s1 (swap p) tdv P1' R1) as (s' & E' & P' & L' & G').
    exists s'. cbn [repeatM]. rewrite (bind_Ok _ _ _ _ _ E1).
    split; [exact E'|].
    rewrite Nat.iter_succ_r.
    split; [rewrite P', P1; destruct (pool s); reflexivity|].
    split; [rewrite L', L1, <- app_assoc; reflexivity|].
    intros i j I J.
    rewrite (G' i j I J). cbn [swap d_width d_height read].
    rewrite Nat.iter_succ_r.
    destruct R as [_ _ _ _ [] _ _ _ _ _ _ _].
    apply jacobi_iter_ext; try assumption; intros a b A B;
      first [exact (G1 a b A B) | unfold grid; rewrite D1; reflexivity].
Qed.

Lemma sweeps_log_draws (n : nat) (p : DoubleFBO) :
  draws_with pressureProgram (sweeps_log n p) = n.
Proof.
  revert p. induction n as [|n IH]; intros p; [reflexivity|].
  cbn [sweeps_log]. unfold draws_with in *. cbn [filter Prog_beq List.length].
  rewrite IH. reflexivity.
Qed.

(** The clear pass and the preamble of the solve block: the previous
    pressure, scaled, is in the read buffer when the loop starts. *)
Lemma pressure_stage_start `{Host} (cfg : Config) (s : State)
    (p v : DoubleFBO) (dv : FBO) :
  pressure (pool s) = Some p ->
  divergence (pool s) = Some dv ->
  velocity (pool s) = Some v ->
  pressure_ready (gl s) p dv v ->
  exists s1,
    (step_clear_pressure cfg ;; step_pressure_solve cfg) s =
      repeatM (Z.to_nat (PRESSURE_ITERATIONS cfg)) pressure_iteration s1 /\
    pressure (pool s1) = Some (swap p) /\
    pool s1 = pool_with_pressure (Some (swap p)) (pool s) /\
    jacobi_ready (gl s1) (swap p) (texture dv) /\
    log s1 = log s ++ [EvDraw clearProgram (Some (fbo (write p)));
                       EvSwap Fpressure] /\
    textures (gl s1) (texture dv) = textures (gl s) (texture dv) /\
    forall i j, (0 <= i < d_width p)%Z -> (0 <= j < d_height p)%Z ->
      grid (gl s1) (texture (write p)) i j =
      PRESSURE cfg * grid (gl s) (texture (read p)) i j.
Proof.
  intros P D V [[] DW DH DR DWr NR NW ND TX TY].
  destruct s as [cv g pl ptr at_ lt ct rc ls lg].
  destruct g as [cc tx tc au bd fb vp pg un].
  destruct pl as [pd pv pdv pc pp].
  destruct p as [w h ptx pty [rt rf rw rh] [wt wf ww wh]].
  destruct v as [vw vh vtx vty vr vwr].
  destruct dv as [dt_ df dw dh].
  cbn [pool gl pressure divergence velocity read write fbo texture d_width
       d_height fbo_width fbo_height textures texelSizeX texelSizeY] in *.
  subst.
  eexists. split.
  { unfold step_clear_pressure, step_pressure_solve. run_flat. unfold for_lt.
    reflexivity. }
  cbn [gl pool log textures pressure pool_with_pressure].
  split; [reflexivity|]. split; [reflexivity|].
  split; [|split; [|split]].
  - split; cbn [gl swap read write texture fbo fbo_width fbo_height d_width
                d_height program uniforms bound];
      first [ solve_image
            | lookup_uniforms; reflexivity
            | split; cbn [swap read write texture fbo fbo_width fbo_height
                          d_width d_height]; solve_image ].
  - rewrite <- !app_assoc. reflexivity.
  - solve_image.
  - intros i j I J. unfold grid. cbn [textures].
    rewrite upd_same, fetch_drawn, px_expand.
    rewrite in_viewport_true by assumption.
    unfold fragment_at, fragmentShader, clearShader, baseVertexShader, texture2D.
    cbn [uniform texture_unit vUv].
    lookup_uniforms. cbn [px v4scale].
    rewrite (nearest_centre (tx rt) i j NR I J). reflexivity.
Qed.

(** C2.  The pressure stage of a step (the clear pass, then the loop) makes
    exactly [N = PRESSURE_ITERATIONS] draws with the pressure program, a
    swap after each; the pressure field it leaves is [N] Jacobi sweeps,
    each [(L + R + B + T - divergence) / 4] over the previous iterate, of
    the field the clear pass produced, which is the previous pressure times
    [PRESSURE]; with no sweep that is the previous pressure scaled, and the
    previous pressure itself when the factor is 1. *)
Theorem pressure_stage `{Host} (cfg : Config) (s : State)
    (p v : DoubleFBO) (dv : FBO) :
  pressure (pool s) = Some p ->
  divergence (pool s) = Some dv ->
  velocity (pool s) = Some v ->
  pressure_ready (gl s) p dv v ->
  let N := Z.to_nat (PRESSURE_ITERATIONS cfg) in
  let w := d_width p in
  let h := d_height p in
  let D := grid (gl s) (texture dv) in
  let P0 := fun i j => PRESSURE cfg * grid (gl s) (texture (read p)) i j in
  exists s',
    (step_clear_pressure cfg ;; step_pressure_solve cfg) s = Ok tt s' /\
    log s' = log s ++ EvDraw clearProgram (Some (fbo (write p)))
                   :: EvSwap Fpressure :: sweeps_log N (swap p) /\
    draws_with pressureProgram (sweeps_log N (swap p)) = N /\
    pressure (pool s') = Some (Nat.iter (S N) swap p) /\
    (forall i j, (0 <= i < w)%Z -> (0 <= j < h)%Z ->
       grid (gl s') (texture (read (Nat.iter (S N) swap p))) i j =
       Nat.iter N (jacobi w h D) P0 i j) /\
    (N = 0%nat -> forall i j, (0 <= i < w)%Z -> (0 <= j < h)%Z ->
       grid (gl s') (texture (read (swap p))) i j =
         PRESSURE cfg * grid (gl s) (texture (read p)) i j /\
       (PRESSURE cfg == 1 ->
        grid (gl s') (texture (read (swap p))) i j ==
          grid (gl s) (texture (read p)) i j)).
Proof.
  intros P D V R N w h Dg P0. subst N w h Dg P0.
  set (N := Z.to_nat (PRESSURE_ITERATIONS cfg)).
  destruct (pressure_stage_start cfg s p v dv P D V R)
    as (s1 & E1 & P1 & PL1 & R1 & L1 & T1 & G1).
  destruct (jacobi_loop N s1 (swap p) (texture dv) P1 R1) as (s' & E & PL & L & G).
  fold N in E1.
  exists s'. split; [rewrite E1; exact E|].
  split; [rewrite L, L1, <- app_assoc; reflexivity|].
  split; [apply sweeps_log_draws|].
  rewrite PL. cbn [pressure pool_with_pressure].
  rewrite Nat.iter_succ_r. split; [reflexivity|].
  destruct R as [[] _ _ _ _ _ _ _ _ _].
  cbn [swap d_width d_height read] in G.
  split.
  - intros i j I J. rewrite (G i j I J).
    apply jacobi_iter_ext; try assumption; intros a b A B;
      first [exact (G1 a b A B) | unfold grid; rewrite T1; reflexivity].
  - intros Z0 i j I J. cbn [swap read].
    pose proof (G i j I J) as G'. rewrite Z0 in G'.
    cbn [Nat.iter nat_rect swap read] in G'.
    rewrite G', (G1 i j I J). split; [reflexivity|].
    intros ->. ring.
Qed.

(** ** Code that only drives WebGL *)

Lemma extends_refl (s : State) : allocated (pool s) -> extends s s.
Proof.
  intros A. split; [exact A|]. split; [reflexivity|].
  exists []. rewrite app_nil_r. reflexivity.
Qed.

Lemma extends_trans (s1 s2 s3 : State) :
  extends s1 s2 -> extends s2 s3 -> extends s1 s3.
Proof.
  intros (_ & P1 & l1 & L1) (A2 & P2 & l2 & L2).
  split; [exact A2|]. split; [congruence|].
  exists (l1 ++ l2). rewrite L2, L1, app_assoc. reflexivity.
Qed.

Lemma runs_ret {A} (a : A) : runs (ret a).
Proof. intros s A0. exists a, s. split; [reflexivity|apply extends_refl; exact A0]. Qed.

Lemma runs_bind {A B} (m : M A) (k : A -> M B) :
  runs m -> (forall a, runs (k a)) -> runs (bind m k).
Proof.
  intros Rm Rk s A0.
  destruct (Rm s A0) as (a & s1 & E1 & X1).
  destruct (Rk a s1 (proj1 X1)) as (b & s2 & E2 & X2).
  exists b, s2. split; [rewrite (bind_Ok _ _ _ _ _ E1); exact E2|].
  eapply extends_trans; eassumption.
Qed.

Lemma runs_gets {A} (f : State -> A) : runs (gets f).
Proof.
  intros s A0. exists (f s), s. split; [reflexivity|apply extends_refl; exact A0].
Qed.

Lemma runs_modify (f : State -> State) :
  (forall s, pool (f s) = pool s /\ pointer0 (f s) = pointer0 s /\
             log (f s) = log s) ->
  runs (modify f).
Proof.
  intros F s A0. destruct (F s) as (P & Q & L).
  exists tt, (f s). split; [reflexivity|].
  split; [rewrite P; exact A0|]. split; [exact Q|].
  exists []. rewrite L, app_nil_r. reflexivity.
Qed.

Lemma runs_modify_gl (f : GLState -> GLState) : runs (modify_gl f).
Proof. apply runs_modify. intros s. repeat split. Qed.

Lemma runs_emit (e : Event) : runs (emit e).
Proof.
  intros s A0. exists tt, (with_log (log s ++ [e]) s). split; [reflexivity|].
  split; [exact A0|]. split; [reflexivity|]. exists [e]. reflexivity.
Qed.

Lemma runs_deref {A} (name : string) (f : Pool -> option A) :
  (forall pl, allocated pl -> f pl <> None) -> runs (deref name f).
Proof.
  intros F s A0. rewrite deref_eq.
  destruct (f (pool s)) as [v|] eqn:E; [|destruct (F _ A0 E)].
  exists v, s. split; [reflexivity|apply extends_refl; exact A0].
Qed.

Lemma runs_assign (f : Pool -> Pool) :
  (forall pl, allocated pl -> allocated (f pl)) -> runs (assign f).
Proof.
  intros F s A0. exists tt, (with_pool (f (pool s)) s). split; [reflexivity|].
  split; [apply F; exact A0|]. split; [reflexivity|].
  exists []. cbn. rewrite app_nil_r. reflexivity.
Qed.

Lemma runs_when (c : bool) (m : M unit) : runs m -> runs (when c m).
Proof. intros R. destruct c; [exact R|apply runs_ret]. Qed.

Lemma runs_repeatM (n : nat) (m : M unit) : runs m -> runs (repeatM n m).
Proof.
  intros R. induction n as [|n IH]; cbn [repeatM].
  - apply runs_ret.
  - apply runs_bind; [exact R|intros _; exact IH].
Qed.

Lemma runs_the_dye : runs the_dye.
Proof. apply runs_deref. intros pl A. apply A. Qed.
Lemma runs_the_velocity : runs the_velocity.
Proof. apply runs_deref. intros pl A. apply A. Qed.
Lemma runs_the_divergence : runs the_divergence.
Proof. apply runs_deref. intros pl A. apply A. Qed.
Lemma runs_the_curl : runs the_curl.
Proof. apply runs_deref. intros pl A. apply A. Qed.
Lemma runs_the_pressure : runs the_pressure.
Proof. apply runs_deref. intros pl A. apply A. Qed.

Lemma runs_gl_drawElements `{Host} : runs gl_drawElements.
Proof.
  unfold gl_drawElements. apply runs_bind; [apply runs_gets|]. intros g.
  destruct (program g); [|apply runs_ret].
  apply runs_bind; [apply runs_emit|]. intros _.
  destruct (viewport g) as [w h].
  destruct (framebuffer g).
  - apply runs_modify_gl.
  - apply runs_modify. intros s. repeat split.
Qed.

(** Decompose straight-line code into the calls above. *)
Ltac runs_tac :=
  repeat first
    [ apply runs_ret
    | apply runs_gets
    | apply runs_emit
    | apply runs_modify_gl
    | apply runs_the_dye
    | apply runs_the_velocity
    | apply runs_the_divergence
    | apply runs_the_curl
    | apply runs_the_pressure
    | apply runs_gl_drawElements
    | apply runs_when
    | apply runs_repeatM
    | apply runs_assign; intros ? (? & ? & ? & ? & ?);
        repeat split; cbn; solve [assumption | discriminate]
    | apply runs_bind; [|intros ?]
    | match goal with |- runs (match ?t with _ => _ end) => destruct t end
    | progress unfold blit, attach, gl_activeTexture, gl_bindTexture,
        gl_viewport, gl_bindFramebuffer, gl_useProgram, gl_uniform,
        dye_swap, velocity_swap, pressure_swap, for_lt ].

Lemma runs_step `{Host} (cfg : Config) (ext : Ext) (dt_ : Q) :
  runs (step cfg ext dt_).
Proof.
  unfold step, step_curl, step_vorticity, step_divergence, step_clear_pressure,
    step_pressure_solve, pressure_iteration, step_gradient_subtract,
    step_advect_velocity, step_advect_dye.
  runs_tac.
Qed.

Lemma runs_render `{Host} (cfg : Config) : runs (render cfg None).
Proof. unfold render. runs_tac. Qed.

(** ** The frame loop *)

Lemma allocated_swapped (pl : Pool) (v d : DoubleFBO) :
  allocated pl ->
  allocated (pool_with_dye (Some d) (pool_with_velocity (Some v) pl)).
Proof.
  intros (A1 & A2 & A3 & A4 & A5). repeat split; cbn; solve [assumption|discriminate].
Qed.

(** The calls a splat makes, whatever the targets hold. *)
Lemma splat_shape `{Host} (cfg : Config) (x y dx dy : Q) (c : vec3) (s : State) :
  allocated (pool s) ->
  exists s' t1 t2,
    splat cfg x y dx dy c s = Ok tt s' /\
    log s' = log s ++ [EvSplat x y dx dy c;
                       EvDraw splatProgram t1; EvSwap Fvelocity;
                       EvDraw splatProgram t2; EvSwap Fdye] /\
    allocated (pool s') /\
    pointer0 s' = pointer0 s /\
    random_calls s' = random_calls s /\
    canvas s' = canvas s.
Proof.
  intros A. pose proof A as (A1 & A2 & _).
  destruct s as [cv g pl ptr at_ lt ct rc ls lg].
  destruct g as [cc tx tc au bd fb vp pg un].
  destruct pl as [[d|] [v|] pdv pc pp]; cbn in A1, A2; try congruence.
  eexists. eexists. eexists. split.
  { unfold splat, correctRadius. run_flat. reflexivity. }
  cbn [log pool pointer0 random_calls canvas].
  split; [rewrite <- !app_assoc; reflexivity|].
  split; [|repeat split].
  destruct A as (_ & _ & A3 & A4 & A5).
  repeat split; cbn in *; solve [assumption|discriminate].
Qed.

Lemma autoSplat_shape `{Host} (cfg : Config) (dt_ : Q) (s : State) :
  random_in_range _ ->
  allocated (pool s) ->
  exists s' l,
    autoSplat cfg dt_ s = Ok tt s' /\
    log s' = log s ++ EvAutoSplat :: l /\
    allocated (pool s') /\
    pointer0 s' = pointer0 s.
Proof.
  intros R A. unfold autoSplat. run_monad.
  destruct (Qltb (4#10) (autoSplatTimer s + dt_)).
  - run_monad.
    repeat (rewrite (bind_Ok _ _ _ _ _ (random_spec _)); run_monad).
    match goal with
    | |- context [bind getRandomColor ?k ?S] =>
        destruct (getRandomColor_palette S R) as (c & _ & E);
        rewrite (bind_Ok _ k S _ _ E)
    end.
    match goal with
    | |- context [splat cfg ?x ?y ?dx ?dy ?c ?S] =>
        destruct (splat_shape cfg x y dx dy c S A)
          as (s' & t1 & t2 & E' & L' & A' & P' & _)
    end.
    exists s'. eexists. split; [exact E'|]. split; [|split; [exact A'|exact P']].
    rewrite L'. run_monad. rewrite <- app_assoc. reflexivity.
  - run_monad. eexists. exists []. split; [reflexivity|].
    run_monad. repeat split; try reflexivity; apply A.
Qed.

(** The rest of a tick after the pointer block. *)
Lemma update_tail `{Host} (cfg : Config) (ext : Ext) (dt_ : Q) (s : State) :
  random_in_range _ ->
  allocated (pool s) ->
  exists s' post,
    (autoSplat cfg dt_ ;; step cfg ext dt_ ;; render cfg None ;;
     emit EvRequestFrame) s = Ok tt s' /\
    log s' = log s ++ EvAutoSplat :: post /\
    allocated (pool s') /\
    pointer0 s' = pointer0 s.
Proof.
  intros R A.
  destruct (autoSplat_shape cfg dt_ s R A) as (s1 & l1 & E1 & L1 & A1 & P1).
  destruct (runs_step cfg ext dt_ s1 A1) as ([] & s2 & E2 & A2 & P2 & l2 & L2).
  destruct (runs_render cfg s2 A2) as ([] & s3 & E3 & A3 & P3 & l3 & L3).
  rewrite (bind_Ok _ _ _ _ _ E1), (bind_Ok _ _ _ _ _ E2), (bind_Ok _ _ _ _ _ E3).
  eexists. eexists. split; [reflexivity|]. run_monad.
  split; [|split; [exact A3|congruence]].
  rewrite L3, L2, L1. rewrite <- !app_assoc. cbn [app]. reflexivity.
Qed.

(** The pointer block of [update] followed by the rest of the tick. *)
Lemma pointer_block_spec `{Host} (cfg : Config) (ext : Ext) (dt_ : Q) (s : State) :
  random_in_range _ ->
  allocated (pool s) ->
  exists s' pp post,
    (p <- gets pointer0 ;;
     when (moved p)
       (modify (fun s => with_pointer0 (with_moved false (pointer0 s)) s) ;;
        emit EvMovedCleared ;;
        modify (fun s => with_timers (autoSplatTimer s) (lastTime s)
                           (colorTimer s + dt_ * COLOR_UPDATE_SPEED cfg) s) ;;
        c <- getRandomColor ;;
        modify (fun s => with_pointer0 (with_pcolor c (pointer0 s)) s) ;;
        p <- gets pointer0 ;;
        splat cfg (texcoordX p) (texcoordY p) (deltaX p) (deltaY p) (pcolor p)) ;;
     autoSplat cfg dt_ ;; step cfg ext dt_ ;; render cfg None ;;
     emit EvRequestFrame) s = Ok tt s' /\
    log s' = log s ++ pp ++ EvAutoSplat :: post /\
    allocated (pool s') /\
    moved (pointer0 s') = false /\
    (moved (pointer0 s) = false -> pp = []) /\
    (moved (pointer0 s) = true ->
     exists col t1 t2,
       pp = [EvMovedCleared;
             EvSplat (texcoordX (pointer0 s)) (texcoordY (pointer0 s))
                     (deltaX (pointer0 s)) (deltaY (pointer0 s)) col;
             EvDraw splatProgram t1; EvSwap Fvelocity;
             EvDraw splatProgram t2; EvSwap Fdye]).
Proof.
  intros R A. run_monad.
  destruct (moved (pointer0 s)) eqn:Mv.
  - run_monad.
    match goal with
    | |- context [bind getRandomColor ?k ?S] =>
        destruct (getRandomColor_palette S R) as (c & _ & E);
        rewrite (bind_Ok _ k S _ _ E)
    end.
    run_monad. cbn [with_pcolor with_moved texcoordX texcoordY deltaX deltaY pcolor].
    match goal with
    | |- context [bind (splat cfg ?x ?y ?dx ?dy ?c) ?k ?S] =>
        destruct (splat_shape cfg x y dx dy c S A)
          as (s1 & t1 & t2 & E1 & L1 & A1 & P1 & _);
        rewrite (bind_Ok _ k S _ _ E1)
    end.
    destruct (update_tail cfg ext dt_ s1 R A1) as (s' & post & E' & L' & A' & P').
    exists s'.
    exists [EvMovedCleared;
            EvSplat (texcoordX (pointer0 s)) (texcoordY (pointer0 s))
                    (deltaX (pointer0 s)) (deltaY (pointer0 s))
                    (V3 (c_r c * (25#100)) (c_g c * (25#100)) (c_b c * (25#100)));
            EvDraw splatProgram t1; EvSwap Fvelocity;
            EvDraw splatProgram t2; EvSwap Fdye].
    exists post. split; [exact E'|].
    split; [|split; [exact A'|split; [|split]]].
    + rewrite L', L1. run_monad. rewrite <- !app_assoc. cbn [app]. reflexivity.
    + rewrite P', P1. reflexivity.
    + discriminate.
    + intros _. exists (V3 (c_r c * (25#100)) (c_g c * (25#100)) (c_b c * (25#100))), t1, t2.
      reflexivity.
  - run_monad.
    destruct (update_tail cfg ext dt_ s R A) as (s' & post & E' & L' & A' & P').
    exists s', [], post. split; [exact E'|].
    split; [exact L'|]. split; [exact A'|]. split; [congruence|].
    split; [reflexivity|discriminate].
Qed.

Lemma update_spec `{Host} (cfg : Config) (ext : Ext) (now : Z) (s : State) :
  random_in_range _ ->
  usable ext ->
  allocated (pool s) ->
  exists s' rs pp post,
    update cfg ext now s = Ok tt s' /\
    log s' = log s ++ (EvUpdate :: rs ++ pp) ++ EvAutoSplat :: post /\
    (rs = [] \/ rs = [EvInitFramebuffers]) /\
    allocated (pool s') /\
    moved (pointer0 s') = false /\
    (moved (pointer0 s) = false -> pp = []) /\
    (moved (pointer0 s) = true ->
     exists col t1 t2,
       pp = [EvMovedCleared;
             EvSplat (texcoordX (pointer0 s)) (texcoordY (pointer0 s))
                     (deltaX (pointer0 s)) (deltaY (pointer0 s)) col;
             EvDraw splatProgram t1; EvSwap Fvelocity;
             EvDraw splatProgram t2; EvSwap Fdye]).
Proof.
  intros R (rgba & rg & r & F1 & F2 & F3) A. unfold update. run_monad.
  match goal with
  | |- context [bind resizeCanvas ?k ?S] =>
      destruct (resizeCanvas_spec S) as (b & c' & E0 & _);
      rewrite (bind_Ok _ k S _ _ E0)
  end.
  destruct b.
  - cbn [when].
    match goal with
    | |- context [bind (initFramebuffers cfg ext) ?k ?S] =>
        destruct (initFramebuffers_allocates cfg ext S rgba rg r F1 F2 F3)
          as (g' & E1 & _);
        rewrite (bind_Ok _ k S _ _ E1)
    end.
    cbv beta.
    match goal with
    | |- context [bind (gets pointer0) _ ?S] =>
        destruct (pointer_block_spec cfg ext
                    (Math_min (inject_Z (now - lastTime s) / 1000) (16667#1000000))
                    S R)
          as (s' & pp & post & E & L & A' & M & P0 & P1)
    end.
    { repeat split; discriminate. }
    exists s', [EvInitFramebuffers], pp, post.
    split; [exact E|]. split; [|split; [right; reflexivity|]].
    + rewrite L. run_monad. rewrite <- !app_assoc. reflexivity.
    + split; [exact A'|]. split; [exact M|]. split; assumption.
  - cbn [when]. rewrite bind_ret.
    match goal with
    | |- context [bind (gets pointer0) _ ?S] =>
        destruct (pointer_block_spec cfg ext
                    (Math_min (inject_Z (now - lastTime s) / 1000) (16667#1000000))
                    S R)
          as (s' & pp & post & E & L & A' & M & P0 & P1)
    end.
    { exact A. }
    exists s', [], pp, post.
    split; [exact E|]. split; [|split; [left; reflexivity|]].
    + rewrite L. run_monad. rewrite <- !app_assoc. reflexivity.
    + split; [exact A'|]. split; [exact M|]. split; assumption.
Qed.

Lemma before_ambient_app (pre post : list Event) :
  ~ In EvAutoSplat pre ->
  before_ambient (pre ++ EvAutoSplat :: post) = pre.
Proof.
  induction pre as [|e pre IH]; intros N; [reflexivity|].
  cbn [app before_ambient].
  assert (N' : ~ In EvAutoSplat pre) by (intros I; apply N; right; exact I).
  rewrite (IH N').
  destruct e; try reflexivity. exfalso. apply N. left. reflexivity.
Qed.

(** The log of one tick, up to the ambient block. *)
Lemma update_tick `{Host} (cfg : Config) (ext : Ext) (now : Z) (s : State) :
  random_in_range _ ->
  usable ext ->
  allocated (pool s) ->
  exists s' tick,
    update cfg ext now s = Ok tt s' /\
    log s' = log s ++ tick /\
    allocated (pool s') /\
    moved (pointer0 s') = false /\
    splat_count (before_ambient tick) = (if moved (pointer0 s) then 1 else 0)%nat /\
    (moved (pointer0 s) = true ->
     exists a b col,
       before_ambient tick =
         a ++ EvMovedCleared
           :: EvSplat (texcoordX (pointer0 s)) (texcoordY (pointer0 s))
                      (deltaX (pointer0 s)) (deltaY (pointer0 s)) col :: b /\
       splat_count a = 0%nat /\ splat_count b = 0%nat).
Proof.
  intros R U A.
  destruct (update_spec cfg ext now s R U A)
    as (s' & rs & pp & post & E & L & RS & A' & M & P0 & P1).
  exists s', ((EvUpdate :: rs ++ pp) ++ EvAutoSplat :: post).
  split; [exact E|]. split; [exact L|]. split; [exact A'|]. split; [exact M|].
  assert (NA : ~ In EvAutoSplat (EvUpdate :: rs ++ pp)).
  { destruct (moved (pointer0 s)).
    - destruct (P1 eq_refl) as (col & t1 & t2 & ->).
      destruct RS as [-> | ->]; cbn; intuition discriminate.
    - rewrite (P0 eq_refl).
      destruct RS as [-> | ->]; cbn; intuition discriminate. }
  rewrite (before_ambient_app _ _ NA).
  destruct (moved (pointer0 s)).
  - destruct (P1 eq_refl) as (col & t1 & t2 & ->).
    split.
    + destruct RS as [-> | ->]; reflexivity.
    + intros _. exists (EvUpdate :: rs).
      exists [EvDraw splatProgram t1; EvSwap Fvelocity;
              EvDraw splatProgram t2; EvSwap Fdye], col.
      split; [|split].
      * reflexivity.
      * destruct RS as [-> | ->]; reflexivity.
      * reflexivity.
  - rewrite (P0 eq_refl). split; [|discriminate].
    destruct RS as [-> | ->]; reflexivity.
Qed.

(** C9.  In a tick a splat is made for the pointer exactly when its
    [moved] flag is set on entry, and then once, with the flag cleared
    before the call; the flag is clear when the tick ends, so the next tick
    makes none unless the pointer has moved again. *)
Theorem pointer_splat_at_most_once `{Host} (cfg : Config) (ext : Ext)
    (now now' : Z) (s : State) :
  random_in_range _ ->
  usable ext ->
  allocated (pool s) ->
  exists s' tick,
    update cfg ext now s = Ok tt s' /\
    log s' = log s ++ tick /\
    splat_count (before_ambient tick) = (if moved (pointer0 s) then 1 else 0)%nat /\
    (moved (pointer0 s) = true ->
     exists a b col,
       before_ambient tick =
         a ++ EvMovedCleared
           :: EvSplat (texcoordX (pointer0 s)) (texcoordY (pointer0 s))
                      (deltaX (pointer0 s)) (deltaY (pointer0 s)) col :: b /\
       splat_count a = 0%nat /\ splat_count b = 0%nat) /\
    moved (pointer0 s') = false /\
    exists s'' tick',
      update cfg ext now' s' = Ok tt s'' /\
      log s'' = log s' ++ tick' /\
      splat_count (before_ambient tick') = 0%nat.
Proof.
  intros R U A.
  destruct (update_tick cfg ext now s R U A) as (s' & tick & E & L & A' & M & C & O).
  destruct (update_tick cfg ext now' s' R U A') as (s'' & tick' & E' & L' & _ & _ & C' & _).
  exists s', tick. split; [exact E|]. split; [exact L|]. split; [exact C|].
  split; [exact O|]. split; [exact M|].
  exists s'', tick'. split; [exact E'|]. split; [exact L'|].
  rewrite C', M. reflexivity.
Qed.

(** ** The pool as [initFramebuffers] builds it *)

Lemma nearest_is_not_linear : (GL.NEAREST =? GL.LINEAR)%Z = false.
Proof. reflexivity. Qed.


(** ** The initial splats *)







Lemma getSupportedFormat_channels (d : Device) (i f : Z) (t : option Z)
    (fm : Format) :
  getSupportedFormat d i f t = Some fm ->
  (GL.channels i <= GL.channels (internalFormat fm))%nat.
Proof.
  funelim (getSupportedFormat d i f t); intros E.
  - injection E as <-. cbn [internalFormat]. lia.
  - match goal with IH : forall fm, _ -> (_ <= _)%nat |- _ => specialize (IH fm E) end.
    pose proof e0 as X. unfold is_R16F in X. apply andb_prop in X as [_ X].
    apply Z.eqb_eq in X. rewrite X.
    assert (GL.channels GL.R16F <= GL.channels GL.RG16F)%nat by (cbv; lia). lia.
  - match goal with IH : forall fm, _ -> (_ <= _)%nat |- _ => specialize (IH fm E) end.
    pose proof e1 as X. unfold is_RG16F in X. apply andb_prop in X as [_ X].
    apply Z.eqb_eq in X. rewrite X.
    assert (GL.channels GL.RG16F <= GL.channels GL.RGBA16F)%nat by (cbv; lia). lia.
  - discriminate.
Qed.

Lemma getSupportedFormat_escalated (d : Device) (t : option Z) :
  webgl2 d = true ->
  getSupportedFormat d GL.RGBA16F GL.RGBA t <> None ->
  getSupportedFormat d GL.RG16F GL.RG t <> None /\
  getSupportedFormat d GL.R16F GL.RED t <> None.
Proof.
  intros W N.
  assert (A : getSupportedFormat d GL.RG16F GL.RG t <> None).
  { rewrite getSupportedFormat_step.
    destruct (supportRenderTextureFormat d GL.RG16F GL.RG t); [discriminate|].
    unfold is_R16F, is_RG16F. rewrite W. cbn. exact N. }
  split; [exact A|].
  rewrite getSupportedFormat_step.
  destruct (supportRenderTextureFormat d GL.R16F GL.RED t); [discriminate|].
  unfold is_R16F. rewrite W. cbn. exact A.
Qed.

(** A context with a 4-channel format has all three formats, wide enough. *)
Lemma getWebGLContext_usable (d : Device) (ctx : Context) :
  getWebGLContext d = Some ctx ->
  formatRGBA (ctx_ext ctx) <> None ->
  ctx_gl ctx = gl_with_clearColor (V4 0 0 0 1) fresh_gl /\
  exists rgba rg r,
    formatRGBA (ctx_ext ctx) = Some rgba /\
    formatRG (ctx_ext ctx) = Some rg /\
    formatR (ctx_ext ctx) = Some r /\
    (3 <= GL.channels (internalFormat rgba))%nat /\
    (2 <= GL.channels (internalFormat rg))%nat.
Proof.
  unfold getWebGLContext.
  destruct (negb (webgl2 d || webgl1 d)); [discriminate|].
  intros E N. injection E as <-. cbn [ctx_gl ctx_ext formatRGBA formatRG formatR] in *.
  split; [reflexivity|].
  destruct (webgl2 d) eqn:W.
  - destruct (getSupportedFormat_escalated d (Some GL.HALF_FLOAT) W N) as [N2 N1].
    destruct (getSupportedFormat d GL.RGBA16F GL.RGBA (Some GL.HALF_FLOAT))
      as [rgba|] eqn:E4; [|congruence].
    destruct (getSupportedFormat d GL.RG16F GL.RG (Some GL.HALF_FLOAT))
      as [rg|] eqn:E2; [|congruence].
    destruct (getSupportedFormat d GL.R16F GL.RED (Some GL.HALF_FLOAT))
      as [r|] eqn:E1; [|congruence].
    exists rgba, rg, r. repeat split.
    + apply getSupportedFormat_channels in E4.
      change (GL.channels GL.RGBA16F) with 4%nat in E4. lia.
    + apply getSupportedFormat_channels in E2.
      change (GL.channels GL.RG16F) with 2%nat in E2. lia.
  - match type of N with ?x <> None => destruct x as [rgba|] eqn:E4; [|congruence] end.
    exists rgba, rgba, rgba. repeat split.
    + apply getSupportedFormat_channels in E4.
      change (GL.channels GL.RGBA) with 4%nat in E4. lia.
    + apply getSupportedFormat_channels in E4.
      change (GL.channels GL.RGBA) with 4%nat in E4. lia.
Qed.



(** ** The advection passes *)

Lemma bind_final {B} (m : M unit) (k : M B) (s : State) :
  returns (m s) = true -> bind m (fun _ => k) s = k (final (m s)).
Proof.
  unfold bind. destruct (m s) as [[] s'|e s']; [reflexivity|discriminate].
Qed.

(** A step is its first six passes, then the two advection passes. *)
Lemma step_split `{Host} (cfg : Config) (ext : Ext) (dt_ : Q) (s : State) :
  step cfg ext dt_ s =
  ((emit EvStep ;; step_curl ;; step_vorticity cfg dt_ ;; step_divergence ;;
    step_clear_pressure cfg ;; step_pressure_solve cfg ;;
    step_gradient_subtract) ;;
   (step_advect_velocity cfg ext dt_ ;; step_advect_dye cfg))%js s.
Proof.
  unfold step, bind.
  destruct (emit EvStep s) as [[] s1|]; [|reflexivity].
  destruct (step_curl s1) as [[] s2|]; [|reflexivity].
  destruct (step_vorticity cfg dt_ s2) as [[] s3|]; [|reflexivity].
  destruct (step_divergence s3) as [[] s4|]; [|reflexivity].
  destruct (step_clear_pressure cfg s4) as [[] s5|]; [|reflexivity].
  destruct (step_pressure_solve cfg s5) as [[] s6|]; [|reflexivity].
  destruct (step_gradient_subtract s6) as [[] s7|]; reflexivity.
Qed.

(** The velocity pass: the backward trace uses the velocity texel size, the
    source is the velocity itself, and the grid on which the source is
    interpolated is the uniform [dyeTexelSize], which the block sets (to the
    velocity texel size) only when linear filtering is not supported. *)
Lemma advect_velocity_spec `{Host} (cfg : Config) (ext : Ext) (dt_ : Q)
    (s : State) (v : DoubleFBO) :
  velocity (pool s) = Some v ->
  fbo (write v) = texture (write v) ->
  let vel := GL.texture2D (textures (gl s) (texture (read v))) in
  let ts := V2 (texelSizeX v) (texelSizeY v) in
  let source_grid :=
    if supportLinearFiltering ext
    then as_vec2 (uniforms (gl s) advectionProgram dyeTexelSize)
    else ts in
  exists s',
    step_advect_velocity cfg ext dt_ s = Ok tt s' /\
    pool s' = pool_with_velocity (Some (swap v)) (pool s) /\
    log s' = log s ++ [EvDraw advectionProgram (Some (fbo (write v)));
                       EvSwap Fvelocity] /\
    program (gl s') = Some advectionProgram /\
    uniforms (gl s') advectionProgram texelSize = U2f (texelSizeX v) (texelSizeY v) /\
    uniforms (gl s') advectionProgram dt = U1f dt_ /\
    as_vec2 (uniforms (gl s') advectionProgram dyeTexelSize) = source_grid /\
    (forall t, t <> texture (write v) -> textures (gl s') t = textures (gl s) t) /\
    forall i j, (0 <= i < fbo_width (write v))%Z -> (0 <= j < fbo_height (write v))%Z ->
      GL.img_texel (textures (gl s') (texture (write v))) i j =
      advect vel vel ts source_grid dt_ (VELOCITY_DISSIPATION cfg)
             (GL.pixel_uv (fbo_width (write v)) (fbo_height (write v)) i j).
Proof.
  intros V F vel ts source_grid. subst vel ts source_grid.
  destruct s as [cv g pl ptr at_ lt ct rc ls lg].
  destruct g as [cc tx tc au bd fb vp pg un].
  destruct pl as [pd pv pdv pc pp].
  destruct v as [vw vh vtx vty [rt rf rw rh] [wt wf ww wh]].
  cbn [pool gl velocity read write fbo texture d_width d_height fbo_width
       fbo_height textures texelSizeX texelSizeY log uniforms] in *.
  subst.
  destruct (supportLinearFiltering ext) eqn:LF.
  - eexists. split.
    { unfold step_advect_velocity. rewrite LF. cbn [negb]. run_flat. reflexivity. }
    cbn [pool gl log textures program uniforms].
    split; [reflexivity|]. split; [rewrite <- !app_assoc; reflexivity|].
    split; [reflexivity|]. split; [reflexivity|]. split; [reflexivity|].
    split; [reflexivity|].
    split; [intros t T; solve_image|].
    intros i j I J. rewrite upd_same. cbn [image_with_texels GL.img_texel].
    rewrite in_viewport_true by assumption.
    unfold fragment_at, fragmentShader, advectionShader, baseVertexShader, texture2D.
    cbn [uniform texture_unit vUv]. lookup_uniforms. reflexivity.
  - eexists. split.
    { unfold step_advect_velocity. rewrite LF. cbn [negb]. run_flat. reflexivity. }
    cbn [pool gl log textures program uniforms].
    split; [reflexivity|]. split; [rewrite <- !app_assoc; reflexivity|].
    split; [reflexivity|]. split; [reflexivity|]. split; [reflexivity|].
    split; [reflexivity|].
    split; [intros t T; solve_image|].
    intros i j I J. rewrite upd_same. cbn [image_with_texels GL.img_texel].
    rewrite in_viewport_true by assumption.
    unfold fragment_at, fragmentShader, advectionShader, baseVertexShader, texture2D.
    cbn [uniform texture_unit vUv]. lookup_uniforms. reflexivity.
Qed.

(** The dye pass, run with the advection program still in use: the trace
    goes through the velocity that is current, with the texel size and time
    step the velocity pass left, and the dye is interpolated on its own
    grid. *)
Lemma advect_dye_spec `{Host} (cfg : Config) (s : State) (v d : DoubleFBO) :
  velocity (pool s) = Some v ->
  dye (pool s) = Some d ->
  program (gl s) = Some advectionProgram ->
  fbo (write d) = texture (write d) ->
  let vel := GL.texture2D (textures (gl s) (texture (read v))) in
  let src := GL.texture2D (textures (gl s) (texture (read d))) in
  exists s',
    step_advect_dye cfg s = Ok tt s' /\
    pool s' = pool_with_dye (Some (swap d)) (pool s) /\
    log s' = log s ++ [EvDraw advectionProgram (Some (fbo (write d)));
                       EvSwap Fdye] /\
    uniforms (gl s') advectionProgram dyeTexelSize =
      U2f (texelSizeX d) (texelSizeY d) /\
    forall i j, (0 <= i < fbo_width (write d))%Z -> (0 <= j < fbo_height (write d))%Z ->
      GL.img_texel (textures (gl s') (texture (write d))) i j =
      advect vel src (as_vec2 (uniforms (gl s) advectionProgram texelSize))
             (V2 (texelSizeX d) (texelSizeY d))
             (as_float (uniforms (gl s) advectionProgram dt))
             (DENSITY_DISSIPATION cfg)
             (GL.pixel_uv (fbo_width (write d)) (fbo_height (write d)) i j).
Proof.
  intros V D PG F vel src. subst vel src.
  destruct s as [cv g pl ptr at_ lt ct rc ls lg].
  destruct g as [cc tx tc au bd fb vp pg un].
  destruct pl as [pd pv pdv pc pp].
  destruct v as [vw vh vtx vty [rt rf rw rh] [wt wf ww wh]].
  destruct d as [dw dh dtx dty [drt drf drw drh] [dwt dwf dww dwh]].
  cbn [pool gl velocity dye read write fbo texture d_width d_height fbo_width
       fbo_height textures texelSizeX texelSizeY log uniforms program] in *.
  subst.
  eexists. split.
  { unfold step_advect_dye. run_flat. reflexivity. }
  cbn [pool gl log textures program uniforms].
  split; [reflexivity|]. split; [rewrite <- !app_assoc; reflexivity|].
  split; [reflexivity|].
  intros i j I J. rewrite upd_same. cbn [image_with_texels GL.img_texel].
  rewrite in_viewport_true by assumption.
  unfold fragment_at, fragmentShader, advectionShader, baseVertexShader, texture2D.
  cbn [uniform texture_unit vUv]. lookup_uniforms. reflexivity.
Qed.

(* ------------------------------------------------------------------ *)
(** ** The properties on the sample pages *)

(** Fields of a record of facts about a sample page, by evaluation. *)
Ltac compute_fields :=
  constructor; vm_compute; first [reflexivity | discriminate | lia | idtac].

(** What the sample pages satisfy. *)
Lemma sample_host_in_range : random_in_range sample_host.
Proof.
  intros n. cbn [Math_random sample_host]. destruct (Nat.even n); split; vm_compute; congruence.
Defined.

Lemma sample_velocity_ok : double_ok (gl sample_started) sample_velocity 2.
Proof. compute_fields. Defined.
Lemma sample_dye_ok : double_ok (gl sample_started) sample_dye 3.
Proof. compute_fields. Defined.

(** A device without a 1-channel target: the request goes on as the
    2-channel one. *)
Lemma getSupportedFormat_escalates_witness :
  webgl2 two_channel_device = true /\
  supportRenderTextureFormat two_channel_device GL.R16F GL.RED (Some GL.HALF_FLOAT) = false /\
  getSupportedFormat two_channel_device GL.R16F GL.RED (Some GL.HALF_FLOAT) =
  getSupportedFormat two_channel_device GL.RG16F GL.RG (Some GL.HALF_FLOAT).
Proof.
  split; [reflexivity|]. split; [reflexivity|].
  destruct (getSupportedFormat_escalates two_channel_device (Some GL.HALF_FLOAT))
    as (_ & E & _).
  destruct (E eq_refl) as (R & _). apply R. reflexivity.
Defined.

(** The sized canvas is 800 by 600: the simulation grid is 171 by 128. *)
Lemma getResolution_axes_witness :
  (0 < width (canvas sample_started) < 2 ^ 53)%Z /\
  (0 < height (canvas sample_started) < 2 ^ 53)%Z /\
  exists r, getResolution 128 sample_started = Ok r sample_started /\
            res_width r = 171%Z /\ res_height r = 128%Z.
Proof.
  split; [split; reflexivity|]. split; [split; reflexivity|].
  destruct (getResolution_axes sample_started 128
              (conj eq_refl eq_refl) (conj eq_refl eq_refl))
    as (r & E & L & _ & _).
  exists r. split; [exact E|].
  destruct (L eq_refl) as (_ & A & B). rewrite A, B. split; vm_compute; reflexivity.
Defined.

(** A portrait buffer of 256 by 391 with the base 128: the reciprocal of the
    rounded quotient 256/391 is a double just below 391/256, the product
    with 128 a double just below 195.5, and the height is 195, where the
    exact ratio would give 196. *)
Lemma getResolution_portrait_rounding :
  resolution_for 256 391 128 = {| res_width := 128; res_height := 195 |} /\
  Math_round (128 * (391 # 256)) = 196%Z.
Proof. split; vm_compute; reflexivity. Qed.

(** A 1-channel target created on the sample page. *)
Lemma fresh_targets_read_clear_colour_witness :
  clearColor (gl sample_page) = V4 0 0 0 1 /\
  exists t s',
    createFBO 171 128 GL.R16F GL.RED (Some GL.HALF_FLOAT) GL.NEAREST sample_page
      = Ok t s' /\
    forall x y, GL.fetch (textures (gl s') (texture t)) x y = V4 0 0 0 1.
Proof.
  split; [reflexivity|].
  destruct (fresh_targets_read_clear_colour config desktop_ext sample_page eq_refl)
    as [F _].
  exact (F 171%Z 128%Z GL.R16F GL.RED (Some GL.HALF_FLOAT) GL.NEAREST).
Defined.

(** The module on the device without a float target. *)
Lemma startup_without_float_target_witness :
  random_in_range sample_host /\
  webgl2 no_float_target || webgl1 no_float_target = true /\
  (forall ty, renderable no_float_target
                (if webgl2 no_float_target then GL.RGBA16F else GL.RGBA) GL.RGBA ty
              = false) /\
  exists s',
    @main sample_host config no_float_target sample_canvas 0 16
      = Throw (TypeError "velocity") s' /\
    pool s' = no_pool /\
    (width (canvas s'), height (canvas s')) = (800, 600)%Z /\
    pointerEvents (canvas s') = Some "none"%string.
Proof.
  split; [exact sample_host_in_range|]. split; [reflexivity|].
  split; [intros ty; reflexivity|].
  destruct (@startup_without_float_target sample_host config no_float_target
              sample_canvas 0 16 sample_host_in_range eq_refl (fun _ => eq_refl))
    as (s' & x & y & dx & dy & col & E & _ & P & _ & C & S & _).
  exists s'. split; [exact E|]. split; [exact P|]. split; [exact C|exact S].
Defined.

(** A splat in the middle of the started page. *)
Lemma splat_adds_kernel_witness :
  velocity (pool sample_started) = Some sample_velocity /\
  dye (pool sample_started) = Some sample_dye /\
  double_ok (gl sample_started) sample_velocity 2 /\
  double_ok (gl sample_started) sample_dye 3 /\
  NoDup [texture (read sample_velocity); texture (write sample_velocity);
         texture (read sample_dye); texture (write sample_dye)] /\
  exists s',
    @splat sample_host config (1#2) (1#2) (1#1000) 0 (V3 0 (1#10) (1#20))
      sample_started = Ok tt s' /\
    velocity (pool s') = Some (swap sample_velocity) /\
    dye (pool s') = Some (swap sample_dye).
Proof.
  assert (N : NoDup [texture (read sample_velocity); texture (write sample_velocity);
                     texture (read sample_dye); texture (write sample_dye)]).
  { vm_compute. repeat constructor; cbn [In]; intuition discriminate. }
  split; [reflexivity|]. split; [reflexivity|].
  split; [exact sample_velocity_ok|]. split; [exact sample_dye_ok|].
  split; [exact N|].
  destruct (@splat_adds_kernel sample_host config sample_started sample_velocity
              sample_dye (1#2) (1#2) (1#1000) 0 (V3 0 (1#10) (1#20))
              eq_refl eq_refl sample_velocity_ok sample_dye_ok N)
    as (s' & E & V & D & _).
  exists s'. split; [exact E|]. split; [exact V|exact D].
Defined.

(** The divergence pass on the started page. *)
Lemma divergence_pass_witness :
  velocity (pool sample_started) = Some sample_velocity /\
  divergence (pool sample_started) = Some sample_divergence /\
  fbo sample_divergence = texture sample_divergence /\
  texture sample_divergence <> texture (read sample_velocity) /\
  0 <= texelSizeX sample_velocity /\ 0 <= texelSizeY sample_velocity /\
  exists s',
    @step_divergence sample_host sample_started = Ok tt s' /\
    log s' = log sample_started
             ++ [EvDraw divergenceProgram (Some (fbo sample_divergence))] /\
    pool s' = pool sample_started.
Proof.
  assert (N : texture sample_divergence <> texture (read sample_velocity))
    by (vm_compute; discriminate).
  assert (X : 0 <= texelSizeX sample_velocity) by (vm_compute; discriminate).
  assert (Y : 0 <= texelSizeY sample_velocity) by (vm_compute; discriminate).
  split; [reflexivity|]. split; [reflexivity|]. split; [reflexivity|].
  split; [exact N|]. split; [exact X|]. split; [exact Y|].
  destruct (@divergence_pass sample_host sample_started sample_velocity
              sample_divergence eq_refl eq_refl eq_refl N X Y)
    as (s' & E & L & P & _).
  exists s'. split; [exact E|]. split; [exact L|exact P].
Defined.

Lemma sample_pressure_ready :
  pressure_ready (gl sample_started) sample_pressure sample_divergence
                 sample_velocity.
Proof. constructor; try (vm_compute; first [reflexivity | discriminate]).
  compute_fields. Defined.

(** The pressure stage on the started page: twenty sweeps, twenty-one
    swaps. *)
Lemma pressure_stage_witness :
  pressure (pool sample_started) = Some sample_pressure /\
  divergence (pool sample_started) = Some sample_divergence /\
  velocity (pool sample_started) = Some sample_velocity /\
  pressure_ready (gl sample_started) sample_pressure sample_divergence
                 sample_velocity /\
  exists s',
    (@step_clear_pressure sample_host config ;;
     @step_pressure_solve sample_host config)%js sample_started = Ok tt s' /\
    draws_with pressureProgram (skipn 2 (log s')) = 20%nat /\
    pressure (pool s') = Some (swap sample_pressure).
Proof.
  split; [reflexivity|]. split; [reflexivity|]. split; [reflexivity|].
  split; [exact sample_pressure_ready|].
  destruct (@pressure_stage sample_host config sample_started sample_pressure
              sample_velocity sample_divergence eq_refl eq_refl eq_refl
              sample_pressure_ready)
    as (s' & E & L & D & P & _).
  exists s'. split; [exact E|]. split.
  - rewrite L. exact D.
  - rewrite P. reflexivity.
Defined.

Lemma desktop_usable : usable desktop_ext.
Proof. do 3 eexists. repeat split. Defined.

Lemma sample_moved_allocated : allocated (pool sample_moved).
Proof. vm_compute. repeat split; discriminate. Defined.

(** A tick after the pointer has moved. *)
Lemma pointer_splat_at_most_once_witness :
  random_in_range sample_host /\ usable desktop_ext /\
  allocated (pool sample_moved) /\
  moved (pointer0 sample_moved) = true /\
  exists s' tick,
    @update sample_host config desktop_ext 16 sample_moved = Ok tt s' /\
    log s' = log sample_moved ++ tick /\
    splat_count (before_ambient tick) = 1%nat /\
    moved (pointer0 s') = false.
Proof.
  split; [exact sample_host_in_range|]. split; [exact desktop_usable|].
  split; [exact sample_moved_allocated|]. split; [reflexivity|].
  destruct (@pointer_splat_at_most_once sample_host config desktop_ext 16 32
              sample_moved sample_host_in_range desktop_usable
              sample_moved_allocated)
    as (s' & tick & E & L & C & _ & M & _).
  exists s', tick. split; [exact E|]. split; [exact L|]. split; [exact C|exact M].
Defined.


(** On the device without a float target the canvas that was 300 by 150
    leaves the module 800 by 600, with its [pointer-events] style set and two
    listeners on the window. *)
Lemma startup_resizes_canvas :
  getWebGLContext no_float_target =
    Some {| ctx_gl := gl_with_clearColor (V4 0 0 0 1) fresh_gl; ctx_ext := no_ext |} /\
  let s' := final (@main sample_host config no_float_target sample_canvas 0 16) in
  canvas s' <> sample_canvas /\
  (width (canvas s'), height (canvas s')) = (800, 600)%Z /\
  (width sample_canvas, height sample_canvas) = (300, 150)%Z /\
  pointerEvents (canvas s') = Some "none"%string /\
  pointerEvents sample_canvas = None /\
  listeners s' = ["pointermove"; "touchmove"]%string.
Proof.
  split; [reflexivity|]. cbv zeta.
  split; [vm_compute; discriminate|].
  repeat split; reflexivity.
Qed.

(** C5 as stated does not hold: the 4-channel target the dye gets reads
    (0, 0, 0, 1) when it is created, alpha being one, not zero; so does the
    dye of the pool just built. *)
Lemma fresh_target_alpha_is_one :
  exists t s',
    createFBO 1365 1024 GL.RGBA16F GL.RGBA (Some GL.HALF_FLOAT) GL.LINEAR
      sample_page = Ok t s' /\
    GL.fetch (textures (gl s') (texture t)) 0 0 = V4 0 0 0 1 /\
    GL.fetch (textures (gl s') (texture t)) 0 0 <> V4 0 0 0 0 /\
    match dye (pool sample_started) with
    | Some d => pw (GL.fetch (textures (gl sample_started) (texture (read d))) 0 0) = 1
    | None => False
    end.
Proof.
  do 2 eexists. split; [vm_compute; reflexivity|].
  split; [vm_compute; reflexivity|].
  split; [vm_compute; discriminate|].
  vm_compute; reflexivity.
Qed.

(** The second step of the sample page is its two advection passes run
    from [sample_before_advection]. *)
Lemma sample_second_step :
  @step sample_host config desktop_ext sample_step_time sample_stepped =
  (@step_advect_velocity sample_host config desktop_ext sample_step_time ;;
   @step_advect_dye sample_host config)%js sample_before_advection.
Proof.
  rewrite step_split. unfold sample_before_advection.
  apply bind_final. vm_compute. reflexivity.
Qed.

(** C3.  The velocity advection of a step traces back with the velocity
    texel size and divides by [1 + VELOCITY_DISSIPATION * dt], but on a
    device with linear filtering it does not set [dyeTexelSize]: in the
    second step of the sample page the velocity, a grid of 171 by 128, is
    interpolated on the grid pitch the dye pass of the first step left,
    1/1365 by 1/1024, not on its own, 1/171 by 1/128. *)
Theorem velocity_advection_source_grid :
  supportLinearFiltering desktop_ext = true /\
  @step sample_host config desktop_ext sample_step_time sample_stepped =
    (@step_advect_velocity sample_host config desktop_ext sample_step_time ;;
     @step_advect_dye sample_host config)%js sample_before_advection /\
  exists s',
    @step_advect_velocity sample_host config desktop_ext sample_step_time
      sample_before_advection = Ok tt s' /\
    velocity (pool sample_before_advection) = Some (swap sample_velocity) /\
    dye (pool sample_before_advection) = Some (swap sample_dye) /\
    (let v := swap sample_velocity in
     let vel := GL.texture2D (textures (gl sample_before_advection)
                                       (texture (read v))) in
     forall i j, (0 <= i < 171)%Z -> (0 <= j < 128)%Z ->
       GL.img_texel (textures (gl s') (texture (write v))) i j =
       advect vel vel (V2 (1#171) (1#128)) (V2 (1#1365) (1#1024))
              sample_step_time (VELOCITY_DISSIPATION config)
              (GL.pixel_uv 171 128 i j)) /\
    (texelSizeX sample_velocity, texelSizeY sample_velocity) = (1#171, 1#128) /\
    (texelSizeX sample_dye, texelSizeY sample_dye) = (1#1365, 1#1024).
Proof.
  split; [reflexivity|]. split; [exact sample_second_step|].
  destruct (@advect_velocity_spec sample_host config desktop_ext sample_step_time
              sample_before_advection (swap sample_velocity))
    as (s' & E & _ & _ & _ & _ & _ & _ & _ & T).
  - vm_compute. reflexivity.
  - reflexivity.
  - exists s'. split; [exact E|]. split; [vm_compute; reflexivity|].
    split; [vm_compute; reflexivity|]. split; [|split; reflexivity].
    intros v vel i j I J. subst v vel. exact (T i j I J).
Qed.

(* ================================================================== *)
(** * Further properties of the module *)

(** ** Negotiation and allocation *)

(** X1.  A format handed out by the negotiation passed the probe itself, is the
    requested one or one it escalates to, and has at least the channels
    asked for. *)
Theorem getSupportedFormat_sound (d : Device) (i f : Z) (t : option Z)
    (fm : Format) :
  getSupportedFormat d i f t = Some fm ->
  supportRenderTextureFormat d (internalFormat fm) (format fm) t = true /\
  (GL.channels i <= GL.channels (internalFormat fm))%nat /\
  (fm = {| internalFormat := i; format := f |} \/
   fm = {| internalFormat := GL.RG16F; format := GL.RG |} \/
   fm = {| internalFormat := GL.RGBA16F; format := GL.RGBA |}).
Proof.
  intros E. split; [|split; [exact (getSupportedFormat_channels d i f t fm E)|]].
  - revert fm E. funelim (getSupportedFormat d i f t); intros fm E.
    + injection E as <-. cbn [internalFormat format]. assumption.
    + match goal with IH : forall fm, _ -> _ = true |- _ => exact (IH fm E) end.
    + match goal with IH : forall fm, _ -> _ = true |- _ => exact (IH fm E) end.
    + discriminate.
  - revert fm E. funelim (getSupportedFormat d i f t); intros fm E.
    + injection E as <-. left. reflexivity.
    + match goal with IH : forall fm, _ -> _ \/ _ |- _ =>
        destruct (IH fm E) as [-> | [-> | ->]] end; tauto.
    + match goal with IH : forall fm, _ -> _ \/ _ |- _ =>
        destruct (IH fm E) as [-> | [-> | ->]] end; tauto.
    + discriminate.
Qed.

(** X2.  With the formats [getWebGLContext] negotiated, [initFramebuffers] never
    throws: when the 4- and 2-channel formats are there, so is the 1-channel
    one, which the guard does not test. *)
Theorem initFramebuffers_never_throws (cfg : Config) (d : Device) (ctx : Context)
    (s : State) :
  getWebGLContext d = Some ctx ->
  exists s', initFramebuffers cfg (ctx_ext ctx) s = Ok tt s' /\
    (formatRGBA (ctx_ext ctx) = None -> pool s' = pool s /\ gl s' = gl s) /\
    (formatRGBA (ctx_ext ctx) <> None -> allocated (pool s')).
Proof.
  intros G. destruct (formatRGBA (ctx_ext ctx)) as [rgba|] eqn:F.
  - destruct (getWebGLContext_usable d ctx G) as (_ & a & b & c & F1 & F2 & F3 & _).
    { rewrite F. discriminate. }
    destruct (initFramebuffers_allocates cfg (ctx_ext ctx) s a b c F1 F2 F3)
      as (g & E & _ & _ & _ & _ & K & _).
    eexists. split; [exact E|]. split; [discriminate|]. intros _.
    repeat split; discriminate.
  - rewrite (initFramebuffers_declines cfg (ctx_ext ctx) s (or_introl F)).
    eexists. split; [reflexivity|]. split; [|congruence].
    intros _. split; reflexivity.
Qed.

(** X3.  A rebuild of the pool hands out eight new texture names and leaves
    every texture that existed before as it was: nothing is deleted or
    reused. *)
Theorem initFramebuffers_keeps_old_textures (cfg : Config) (ext : Ext) (s : State) :
  usable ext ->
  exists s',
    initFramebuffers cfg ext s = Ok tt s' /\
    texture_count (gl s') = (8 + texture_count (gl s))%nat /\
    (forall t, (t < texture_count (gl s))%nat ->
       textures (gl s') t = textures (gl s) t) /\
    (forall d, dye (pool s') = Some d ->
       (texture_count (gl s) <= texture (read d))%nat /\
       (texture_count (gl s) <= texture (write d))%nat).
Proof.
  intros (rgba & rg & r & F1 & F2 & F3).
  destruct (initFramebuffers_allocates cfg ext s rgba rg r F1 F2 F3)
    as (g & E & _ & _ & _ & O & K & _).
  eexists. split; [exact E|]. cbn [gl with_log with_pool with_gl pool dye].
  split; [exact K|]. split; [exact O|].
  intros d D. injection D as <-. cbn [double_target read write texture target]. lia.
Qed.

(** ** The canvas and the pointer *)

Lemma client_pixels_resized (w h : Z) (c : Canvas) :
  client_pixels (canvas_with_size w h c) = client_pixels c.
Proof. reflexivity. Qed.

(** [resizeCanvas] returns [true] exactly when the drawing buffer differs
    from the client box; it then takes its size and loses its bitmap.
    Called again at once it returns [false] and changes nothing. *)
Lemma resizeCanvas_twice (s : State) :
  exists b s1,
    resizeCanvas s = Ok b s1 /\
    (b = false <-> (width (canvas s), height (canvas s)) = client_pixels (canvas s)) /\
    (b = false -> s1 = s) /\
    (b = true -> presented (canvas s1) = None) /\
    (width (canvas s1), height (canvas s1)) = client_pixels (canvas s) /\
    gl s1 = gl s /\ pool s1 = pool s /\
    resizeCanvas s1 = Ok false s1.
Proof.
  unfold resizeCanvas, bind, gets, modify, ret.
  destruct (client_pixels (canvas s)) as [w h] eqn:CP. cbv beta iota.
  destruct (negb (width (canvas s) =? w)%Z || negb (height (canvas s) =? h)%Z) eqn:T.
  - do 2 eexists. split; [reflexivity|].
    split.
    { split; [discriminate|]. intros E. injection E as E1 E2.
      rewrite E1, E2, !Z.eqb_refl in T. discriminate. }
    split; [discriminate|]. split; [reflexivity|]. split; [reflexivity|].
    split; [reflexivity|]. split; [reflexivity|].
    cbn [canvas with_canvas]. rewrite client_pixels_resized, CP.
    cbn [width height canvas_with_size]. rewrite !Z.eqb_refl. reflexivity.
  - apply orb_false_elim in T as [T1 T2].
    apply negb_false_iff, Z.eqb_eq in T1. apply negb_false_iff, Z.eqb_eq in T2.
    do 2 eexists. split; [reflexivity|].
    split; [split; [intros _; congruence|reflexivity]|].
    split; [reflexivity|]. split; [discriminate|]. split; [congruence|].
    split; [reflexivity|]. split; [reflexivity|].
    rewrite CP, T1, T2, !Z.eqb_refl. reflexivity.
Qed.

(** X4.  [resizeCanvas] returns [true] exactly when the drawing buffer differs
    from the client box; it then takes its size and loses its bitmap, and
    nothing else changes: not the client box, the pixel ratio or the style of
    the canvas, nor the WebGL state, the pool, the pointer, the timers, the
    random draws, the listeners or the log.  It returns [false] and leaves
    the page as it is otherwise.  Called again at once it returns [false]
    and changes nothing. *)
Theorem resizeCanvas_settles (s : State) :
  exists b s1,
    resizeCanvas s = Ok b s1 /\
    (b = false <-> (width (canvas s), height (canvas s)) = client_pixels (canvas s)) /\
    (b = false -> s1 = s) /\
    (b = true ->
       s1 = with_canvas (canvas_with_size (fst (client_pixels (canvas s)))
                                          (snd (client_pixels (canvas s)))
                                          (canvas s)) s /\
       presented (canvas s1) = None) /\
    (width (canvas s1), height (canvas s1)) = client_pixels (canvas s) /\
    clientWidth (canvas s1) = clientWidth (canvas s) /\
    clientHeight (canvas s1) = clientHeight (canvas s) /\
    devicePixelRatio (canvas s1) = devicePixelRatio (canvas s) /\
    pointerEvents (canvas s1) = pointerEvents (canvas s) /\
    gl s1 = gl s /\ pool s1 = pool s /\ pointer0 s1 = pointer0 s /\
    autoSplatTimer s1 = autoSplatTimer s /\ lastTime s1 = lastTime s /\
    colorTimer s1 = colorTimer s /\ random_calls s1 = random_calls s /\
    listeners s1 = listeners s /\ log s1 = log s /\
    resizeCanvas s1 = Ok false s1.
Proof.
  unfold resizeCanvas, bind, gets, modify, ret.
  destruct (client_pixels (canvas s)) as [w h] eqn:CP. cbv beta iota.
  destruct (negb (width (canvas s) =? w)%Z || negb (height (canvas s) =? h)%Z) eqn:T.
  - do 2 eexists. split; [reflexivity|].
    split.
    { split; [discriminate|]. intros E. injection E as E1 E2.
      rewrite E1, E2, !Z.eqb_refl in T. discriminate. }
    split; [discriminate|].
    split; [intros _; split; reflexivity|].
    do 14 (split; [reflexivity|]).
    cbn [canvas with_canvas]. rewrite client_pixels_resized, CP.
    cbn [width height canvas_with_size]. rewrite !Z.eqb_refl. reflexivity.
  - apply orb_false_elim in T as [T1 T2].
    apply negb_false_iff, Z.eqb_eq in T1. apply negb_false_iff, Z.eqb_eq in T2.
    do 2 eexists. split; [reflexivity|].
    split; [split; [intros _; congruence|reflexivity]|].
    split; [reflexivity|]. split; [discriminate|]. split; [congruence|].
    do 13 (split; [reflexivity|]).
    rewrite CP, T1, T2, !Z.eqb_refl. reflexivity.
Qed.

Lemma pixel_ratio_le_2 (c : Canvas) : pixel_ratio c <= 2.
Proof.
  unfold pixel_ratio, Math_min.
  destruct (Qle_bool _ 2) eqn:E; [apply Qle_bool_iff; exact E|apply Qle_refl].
Qed.

Lemma Math_floor_scaled (n : Z) (r : Q) :
  (0 <= n)%Z -> r <= 2 -> (Math_floor (inject_Z n * r) <= 2 * n)%Z.
Proof.
  intros N R. unfold Math_floor. rewrite Zle_Qle.
  eapply Qle_trans; [apply Qfloor_le|].
  rewrite inject_Z_mult. change (inject_Z 2) with 2.
  assert (0 <= inject_Z n) by (change 0 with (inject_Z 0); rewrite <- Zle_Qle; exact N).
  nra.
Qed.

(** X5.  The device pixel ratio is capped at 2: the drawing buffer is never
    larger than twice the client box, whatever the device reports. *)
Theorem resizeCanvas_at_most_double (s : State) :
  (0 <= clientWidth (canvas s))%Z -> (0 <= clientHeight (canvas s))%Z ->
  exists b s1,
    resizeCanvas s = Ok b s1 /\
    (width (canvas s1) <= 2 * clientWidth (canvas s))%Z /\
    (height (canvas s1) <= 2 * clientHeight (canvas s))%Z.
Proof.
  intros W H.
  destruct (resizeCanvas_twice s) as (b & s1 & E & _ & _ & _ & C & _).
  exists b, s1. split; [exact E|].
  unfold client_pixels in C. injection C as -> ->.
  split; apply Math_floor_scaled; try assumption; apply pixel_ratio_le_2.
Qed.

Lemma Qabs_scaled_down (d a : Q) : 0 <= a -> a <= 1 -> Qabs (d * a) <= Qabs d.
Proof.
  intros A0 A1. rewrite Qabs_Qmult. rewrite (Qabs_pos a A0).
  pose proof (Qabs_nonneg d). nra.
Qed.

(** X6.  The aspect corrections of a pointer delta never make it larger: the
    x delta is scaled by the aspect ratio on a portrait canvas, the y delta
    divided by it on a landscape canvas, and otherwise they are kept. *)
Theorem correctDelta_never_amplifies (s : State) (delta : Q) :
  (0 < width (canvas s))%Z -> (0 < height (canvas s))%Z ->
  exists dx dy,
    correctDeltaX delta s = Ok dx s /\
    correctDeltaY delta s = Ok dy s /\
    Qabs dx <= Qabs delta /\ Qabs dy <= Qabs delta /\
    ((height (canvas s) <= width (canvas s))%Z -> dx = delta) /\
    ((width (canvas s) <= height (canvas s))%Z -> dy = delta).
Proof.
  intros W H. unfold correctDeltaX, correctDeltaY, bind, gets, ret.
  set (ar := inject_Z (width (canvas s)) / inject_Z (height (canvas s))).
  pose proof (inject_Z_pos _ W) as PW. pose proof (inject_Z_pos _ H) as PH.
  assert (P : 0 < ar) by (apply Qlt_shift_div_l; [exact PH|lra]).
  do 2 eexists. split; [reflexivity|]. split; [reflexivity|].
  split; [|split; [|split]].
  - destruct (Qltb ar 1) eqn:E; [|apply Qle_refl].
    apply Qltb_lt in E. apply Qabs_scaled_down; lra.
  - destruct (Qltb 1 ar) eqn:E; [|apply Qle_refl].
    apply Qltb_lt in E. unfold Qdiv. apply Qabs_scaled_down.
    + apply Qlt_le_weak, Qinv_lt_0_compat. exact P.
    + apply Qle_shift_inv_r; [exact P|lra].
  - intros L. replace (Qltb ar 1) with false; [reflexivity|].
    symmetry. apply Qltb_ge. apply Qle_shift_div_l; [exact PH|].
    rewrite Qmult_1_l, <- Zle_Qle. exact L.
  - intros L. replace (Qltb 1 ar) with false; [reflexivity|].
    symmetry. apply Qltb_ge. apply Qle_shift_div_r; [exact PH|].
    rewrite Qmult_1_l, <- Zle_Qle. exact L.
Qed.

(** X7.  The splat radius is never made smaller: on a landscape canvas it is
    multiplied by the aspect ratio, otherwise kept. *)
Theorem correctRadius_never_shrinks (s : State) (radius : Q) :
  (0 < width (canvas s))%Z -> (0 < height (canvas s))%Z -> 0 <= radius ->
  exists r,
    correctRadius radius s = Ok r s /\ radius <= r /\
    ((width (canvas s) <= height (canvas s))%Z -> r = radius).
Proof.
  intros W H R. unfold correctRadius, bind, gets, ret.
  set (ar := inject_Z (width (canvas s)) / inject_Z (height (canvas s))).
  pose proof (inject_Z_pos _ W) as PW. pose proof (inject_Z_pos _ H) as PH.
  eexists. split; [reflexivity|]. split.
  - destruct (Qltb 1 ar) eqn:E; [|apply Qle_refl].
    apply Qltb_lt in E. nra.
  - intros L. replace (Qltb 1 ar) with false; [reflexivity|].
    symmetry. apply Qltb_ge. apply Qle_shift_div_r; [exact PH|].
    rewrite Qmult_1_l, <- Zle_Qle. exact L.
Qed.

Lemma Qltb_abs_zero (q : Q) : q == 0 -> Qltb 0 (Qabs q) = false.
Proof.
  intros E. apply Qltb_ge. rewrite E. discriminate.
Qed.

(** X8.  A second [pointermove] at the same client position finds no
    displacement and clears the [moved] flag, also when the first motion has
    not been consumed by a tick yet. *)
Theorem pointermove_same_place_clears_moved (x y : Q) (s : State) :
  (0 < clientWidth (canvas s))%Z -> (0 < clientHeight (canvas s))%Z ->
  (0 < width (canvas s))%Z -> (0 < height (canvas s))%Z ->
  exists s1 s2,
    on_pointermove x y s = Ok tt s1 /\
    on_pointermove x y s1 = Ok tt s2 /\
    moved (pointer0 s2) = false /\
    deltaX (pointer0 s2) == 0 /\ deltaY (pointer0 s2) == 0 /\
    texcoordX (pointer0 s2) = texcoordX (pointer0 s1) /\
    texcoordY (pointer0 s2) = texcoordY (pointer0 s1) /\
    prevTexcoordX (pointer0 s2) = texcoordX (pointer0 s1) /\
    prevTexcoordY (pointer0 s2) = texcoordY (pointer0 s1) /\
    down (pointer0 s2) = true /\
    canvas s2 = canvas s /\ pool s2 = pool s /\ log s2 = log s.
Proof.
  intros _ _ _ _. unfold on_pointermove.
  cbv beta iota zeta delta [pointer_moved_to correctDeltaX correctDeltaY bind gets modify ret].
  eexists. eexists. split; [reflexivity|]. split; [reflexivity|].
  cbn [pointer0 with_pointer0 moved deltaX deltaY texcoordX texcoordY
       prevTexcoordX prevTexcoordY down canvas pool log].
  set (ar := inject_Z (width (canvas s)) / inject_Z (height (canvas s))).
  set (tx := x / inject_Z (clientWidth (canvas s))).
  set (ty := 1 - y / inject_Z (clientHeight (canvas s))).
  assert (ZX : (if Qltb ar 1 then (tx - tx) * ar else tx - tx) == 0)
    by (destruct (Qltb ar 1); ring).
  assert (ZY : (if Qltb 1 ar then (ty - ty) / ar else ty - ty) == 0)
    by (destruct (Qltb 1 ar); [unfold Qdiv|]; ring).
  split; [rewrite (Qltb_abs_zero _ ZX), (Qltb_abs_zero _ ZY); reflexivity|].
  repeat split; assumption.
Qed.

(** ** The passes of a step *)

(** X10.  The curl pass writes [0.5 * (R.y - L.y - T.x + B.x)] of the velocity
    sampled one velocity-texel to each side, with no rule at the boundary:
    the samples outside the field are those the clamped texture gives. *)
Theorem curl_pass `{Host} (s : State) (v : DoubleFBO) (c : FBO) :
  velocity (pool s) = Some v -> curl (pool s) = Some c ->
  fbo c = texture c ->
  let vel := GL.texture2D (textures (gl s) (texture (read v))) in
  exists s',
    step_curl s = Ok tt s' /\
    log s' = log s ++ [EvDraw curlProgram (Some (fbo c))] /\
    pool s' = pool s /\
    (forall t, t <> texture c -> textures (gl s') t = textures (gl s) t) /\
    forall i j, (0 <= i < fbo_width c)%Z -> (0 <= j < fbo_height c)%Z ->
      let uv := GL.pixel_uv (fbo_width c) (fbo_height c) i j in
      let L := py (vel (v2sub uv (V2 (texelSizeX v) 0))) in
      let R := py (vel (v2add uv (V2 (texelSizeX v) 0))) in
      let T := px (vel (v2add uv (V2 0 (texelSizeY v)))) in
      let B := px (vel (v2sub uv (V2 0 (texelSizeY v)))) in
      px (GL.fetch (textures (gl s') (texture c)) i j) = (1#2) * (R - L - T + B).
Proof.
  intros V C F vel. subst vel.
  destruct s as [cv g pl ptr at_ lt ct rc ls lg].
  destruct g as [cc tx tc au bd fb vp pg un].
  destruct pl as [pd pv pdv pc pp].
  destruct v as [vw vh vtx vty [rt rf rw rh] [wt wf ww wh]].
  destruct c as [ct_ cf cw ch].
  cbn [pool gl velocity curl read write fbo texture d_width d_height
       fbo_width fbo_height textures texelSizeX texelSizeY log] in *.
  subst.
  unfold step_curl. run_flat.
  eexists. split; [reflexivity|].
  cbn [pool gl log canvas textures]. split; [reflexivity|]. split; [reflexivity|].
  split; [intros t T; solve_image|].
  intros i j I J. cbv zeta.
  rewrite upd_same, fetch_drawn, px_expand.
  rewrite in_viewport_true by assumption.
  unfold fragment_at, fragmentShader, curlShader, baseVertexShader, texture2D.
  cbn [uniform texture_unit vUv vL vR vT vB].
  lookup_uniforms. cbn [px vx vy]. reflexivity.
Qed.

(** X11.  The gradient pass subtracts from the velocity at every texel the
    difference of the pressure samples one velocity-texel to the right and
    to the left (x) and above and below (y), and swaps the velocity. *)
Theorem gradient_subtract_pass `{Host} (s : State) (v p : DoubleFBO) :
  velocity (pool s) = Some v -> pressure (pool s) = Some p ->
  fbo (write v) = texture (write v) ->
  (2 <= GL.channels (GL.img_ifmt (textures (gl s) (texture (write v)))))%nat ->
  let vel := GL.texture2D (textures (gl s) (texture (read v))) in
  let prs := GL.texture2D (textures (gl s) (texture (read p))) in
  exists s',
    step_gradient_subtract s = Ok tt s' /\
    log s' = log s ++ [EvDraw gradientSubtractProgram (Some (fbo (write v)));
                       EvSwap Fvelocity] /\
    pool s' = pool_with_velocity (Some (swap v)) (pool s) /\
    forall i j, (0 <= i < fbo_width (write v))%Z -> (0 <= j < fbo_height (write v))%Z ->
      let uv := GL.pixel_uv (fbo_width (write v)) (fbo_height (write v)) i j in
      let L := px (prs (v2sub uv (V2 (texelSizeX v) 0))) in
      let R := px (prs (v2add uv (V2 (texelSizeX v) 0))) in
      let T := px (prs (v2add uv (V2 0 (texelSizeY v)))) in
      let B := px (prs (v2sub uv (V2 0 (texelSizeY v)))) in
      let new := GL.fetch (textures (gl s') (texture (read (swap v)))) i j in
      px new = px (vel uv) - (R - L) /\ py new = py (vel uv) - (T - B).
Proof.
  intros V P F CH vel prs. subst vel prs.
  destruct s as [cv g pl ptr at_ lt ct rc ls lg].
  destruct g as [cc tx tc au bd fb vp pg un].
  destruct pl as [pd pv pdv pc pp].
  destruct v as [vw vh vtx vty [rt rf rw rh] [wt wf ww wh]].
  destruct p as [pw_ ph ptx pty [prt prf prw prh] [pwt pwf pww pwh]].
  cbn [pool gl velocity pressure read write fbo texture d_width d_height
       fbo_width fbo_height textures texelSizeX texelSizeY log] in *.
  subst.
  unfold step_gradient_subtract. run_flat.
  eexists. split; [reflexivity|].
  cbn [pool gl log canvas textures]. split; [rewrite <- !app_assoc; reflexivity|].
  split; [reflexivity|].
  intros i j I J. cbv zeta.
  rewrite upd_same, fetch_drawn. cbn [image_with_texels GL.img_ifmt].
  rewrite px_expand, py_expand by exact CH.
  rewrite in_viewport_true by assumption.
  unfold fragment_at, fragmentShader, gradientSubtractShader, baseVertexShader, texture2D.
  cbn [uniform texture_unit vUv vL vR vT vB].
  lookup_uniforms. cbn [px py vx vy v2sub xy]. split; reflexivity.
Qed.

(** X12.  Where the sampled curl is zero the vorticity pass leaves the velocity
    as it is: the confinement force is proportional to the curl at the
    texel.  The square root being non-negative, the length the force is
    divided by is not zero. *)
Theorem vorticity_pass_without_curl `{Host} (cfg : Config) (dt_ : Q) (s : State)
    (v : DoubleFBO) (c : FBO) :
  (forall q, 0 <= glsl_sqrt q) ->
  velocity (pool s) = Some v -> curl (pool s) = Some c ->
  fbo (write v) = texture (write v) ->
  (2 <= GL.channels (GL.img_ifmt (textures (gl s) (texture (write v)))))%nat ->
  let vel := GL.texture2D (textures (gl s) (texture (read v))) in
  let crl := GL.texture2D (textures (gl s) (texture c)) in
  exists s',
    step_vorticity cfg dt_ s = Ok tt s' /\
    log s' = log s ++ [EvDraw vorticityProgram (Some (fbo (write v)));
                       EvSwap Fvelocity] /\
    pool s' = pool_with_velocity (Some (swap v)) (pool s) /\
    forall i j, (0 <= i < fbo_width (write v))%Z -> (0 <= j < fbo_height (write v))%Z ->
      let uv := GL.pixel_uv (fbo_width (write v)) (fbo_height (write v)) i j in
      let new := GL.fetch (textures (gl s') (texture (read (swap v)))) i j in
      px (crl uv) == 0 ->
      px new == px (vel uv) /\ py new == py (vel uv).
Proof.
  intros _ V C F CH vel crl. subst vel crl.
  destruct s as [cv g pl ptr at_ lt ct rc ls lg].
  destruct g as [cc tx tc au bd fb vp pg un].
  destruct pl as [pd pv pdv pc pp].
  destruct v as [vw vh vtx vty [rt rf rw rh] [wt wf ww wh]].
  destruct c as [ct_ cf cw ch].
  cbn [pool gl velocity curl read write fbo texture d_width d_height
       fbo_width fbo_height textures texelSizeX texelSizeY log] in *.
  subst.
  unfold step_vorticity. run_flat.
  eexists. split; [reflexivity|].
  cbn [pool gl log canvas textures]. split; [rewrite <- !app_assoc; reflexivity|].
  split; [reflexivity|].
  intros i j I J. cbv zeta.
  rewrite upd_same, fetch_drawn. cbn [image_with_texels GL.img_ifmt].
  rewrite px_expand, py_expand by exact CH.
  rewrite in_viewport_true by assumption.
  unfold fragment_at, fragmentShader, vorticityShader, baseVertexShader, texture2D.
  cbn [uniform texture_unit vUv vL vR vT vB].
  lookup_uniforms. cbn [px py vx vy v2scale xy].
  intros Z. rewrite Z. split; ring.
Qed.

(** X13.  [render(null)] draws the dye over the whole drawing buffer of the
    canvas: every pixel shows the colour of the dye sampled at its centre
    plus the back colour, and is opaque.  The pool is not touched. *)
Theorem render_to_canvas `{Host} (cfg : Config) (s : State) (d : DoubleFBO) :
  dye (pool s) = Some d ->
  let src := GL.texture2D (textures (gl s) (texture (read d))) in
  exists s' img,
    render cfg None s = Ok tt s' /\
    log s' = log s ++ [EvRender; EvDraw displayProgram None] /\
    pool s' = pool s /\
    textures (gl s') = textures (gl s) /\
    presented (canvas s') = Some img /\
    width (canvas s') = width (canvas s) /\
    height (canvas s') = height (canvas s) /\
    forall i j,
      let c := src (GL.pixel_uv (width (canvas s)) (height (canvas s)) i j) in
      img i j = V4 (px c + c_r (BACK_COLOR cfg)) (py c + c_g (BACK_COLOR cfg))
                   (pz c + c_b (BACK_COLOR cfg)) 1.
Proof.
  intros D src. subst src.
  destruct s as [cv g pl ptr at_ lt ct rc ls lg].
  destruct g as [cc tx tc au bd fb vp pg un].
  destruct pl as [pd pv pdv pc pp].
  destruct d as [dw dh dtx dty [rt rf rw rh] [wt wf ww wh]].
  cbn [pool gl dye read write fbo texture d_width d_height
       fbo_width fbo_height textures texelSizeX texelSizeY log canvas] in *.
  subst.
  unfold render. run_flat.
  eexists. eexists. split; [reflexivity|].
  cbn [pool gl log canvas textures present presented width height].
  split; [rewrite <- !app_assoc; reflexivity|].
  split; [reflexivity|]. split; [reflexivity|]. split; [reflexivity|].
  split; [reflexivity|]. split; [reflexivity|].
  intros i j. cbv zeta.
  unfold fragment_at, fragmentShader, displayShader, baseVertexShader, texture2D.
  cbn [uniform texture_unit vUv].
  lookup_uniforms. cbn [px py pz c_r c_g c_b v3add xyz]. reflexivity.
Qed.

(** ** What a pass changes *)

Lemma after_after (s : State) cv g P l cv' g' P' l' :
  after (after s cv g P l) cv' g' P' l' = after s cv' g' P' (l ++ l').
Proof.
  unfold after.
  cbn [with_log with_pool with_gl with_canvas canvas gl pool pointer0
       autoSplatTimer lastTime colorTimer random_calls listeners log].
  rewrite app_assoc. reflexivity.
Qed.

Lemma swap_swap (d : DoubleFBO) : swap (swap d) = d.
Proof. destruct d. reflexivity. Qed.

(** A pass on a state in constructor form: run it, and read the result as
    [after]. *)
Ltac pass_effect :=
  match goal with
  | |- forall s : State, _ =>
      intros s d v dv c p P;
      destruct s as [cv g pl ptr at_ lt ct rc ls lg];
      destruct g as [cc tx tc au bd fb vp pg un];
      cbn [pool] in P; subst pl;
      unfold pool_of, after; run_flat;
      cbn [with_log with_pool with_gl with_canvas canvas gl pool pointer0
           autoSplatTimer lastTime colorTimer random_calls listeners log];
      rewrite <- ?app_assoc; cbn [app];
      eexists; reflexivity
  end.

Ltac pass_effect_in :=
  match goal with
  | |- forall s : State, _ =>
      intros s d v dv c p P PG;
      destruct s as [cv g pl ptr at_ lt ct rc ls lg];
      destruct g as [cc tx tc au bd fb vp pg un];
      cbn [pool gl program] in P, PG; subst pl pg;
      unfold pool_of, after; run_flat;
      cbn [with_log with_pool with_gl with_canvas canvas gl pool pointer0
           autoSplatTimer lastTime colorTimer random_calls listeners log];
      rewrite <- ?app_assoc; cbn [app];
      eexists; split; reflexivity
  end.

Section Effects.
Context `{Host}.
Variable cfg : Config.

Lemma step_curl_effect : forall s d v dv c p,
  pool s = pool_of d v dv c p ->
  exists g, step_curl s =
    Ok tt (after s (canvas s) g (pool_of d v dv c p)
                 [EvDraw curlProgram (Some (fbo c))]).
Proof. unfold step_curl. pass_effect. Qed.

Lemma step_vorticity_effect (dt_ : Q) : forall s d v dv c p,
  pool s = pool_of d v dv c p ->
  exists g, step_vorticity cfg dt_ s =
    Ok tt (after s (canvas s) g (pool_of d (swap v) dv c p)
                 [EvDraw vorticityProgram (Some (fbo (write v))); EvSwap Fvelocity]).
Proof. unfold step_vorticity. pass_effect. Qed.

Lemma step_divergence_effect : forall s d v dv c p,
  pool s = pool_of d v dv c p ->
  exists g, step_divergence s =
    Ok tt (after s (canvas s) g (pool_of d v dv c p)
                 [EvDraw divergenceProgram (Some (fbo dv))]).
Proof. unfold step_divergence. pass_effect. Qed.

Lemma step_clear_pressure_effect : forall s d v dv c p,
  pool s = pool_of d v dv c p ->
  exists g, step_clear_pressure cfg s =
    Ok tt (after s (canvas s) g (pool_of d v dv c (swap p))
                 [EvDraw clearProgram (Some (fbo (write p))); EvSwap Fpressure]).
Proof. unfold step_clear_pressure. pass_effect. Qed.

Lemma pressure_iteration_effect : forall s d v dv c p,
  pool s = pool_of d v dv c p ->
  program (gl s) = Some pressureProgram ->
  exists g, pressure_iteration s =
    Ok tt (after s (canvas s) g (pool_of d v dv c (swap p))
                 [EvDraw pressureProgram (Some (fbo (write p))); EvSwap Fpressure]) /\
    program g = Some pressureProgram.
Proof. unfold pressure_iteration. pass_effect_in. Qed.

Lemma step_gradient_subtract_effect : forall s d v dv c p,
  pool s = pool_of d v dv c p ->
  exists g, step_gradient_subtract s =
    Ok tt (after s (canvas s) g (pool_of d (swap v) dv c p)
                 [EvDraw gradientSubtractProgram (Some (fbo (write v)));
                  EvSwap Fvelocity]).
Proof. unfold step_gradient_subtract. pass_effect. Qed.

Lemma step_advect_dye_effect : forall s d v dv c p,
  pool s = pool_of d v dv c p ->
  program (gl s) = Some advectionProgram ->
  exists g, step_advect_dye cfg s =
    Ok tt (after s (canvas s) g (pool_of (swap d) v dv c p)
                 [EvDraw advectionProgram (Some (fbo (write d))); EvSwap Fdye]) /\
    program g = Some advectionProgram.
Proof. unfold step_advect_dye. pass_effect_in. Qed.

Lemma step_advect_velocity_effect (ext : Ext) (dt_ : Q) : forall s d v dv c p,
  pool s = pool_of d v dv c p ->
  exists g, step_advect_velocity cfg ext dt_ s =
    Ok tt (after s (canvas s) g (pool_of d (swap v) dv c p)
                 [EvDraw advectionProgram (Some (fbo (write v))); EvSwap Fvelocity]) /\
    program g = Some advectionProgram.
Proof.
  unfold step_advect_velocity.
  destruct (supportLinearFiltering ext); cbn [negb];
    intros s d v dv c p P;
    destruct s as [cv g pl ptr at_ lt ct rc ls lg];
    destruct g as [cc tx tc au bd fb vp pg un];
    cbn [pool] in P; subst pl;
    unfold pool_of, after; run_flat;
    cbn [with_log with_pool with_gl with_canvas canvas gl pool pointer0
         autoSplatTimer lastTime colorTimer random_calls listeners log];
    rewrite <- ?app_assoc; cbn [app];
    eexists; split; reflexivity.
Qed.

Lemma splat_effect (x y dx dy : Q) (col : vec3) : forall s d v dv c p,
  pool s = pool_of d v dv c p ->
  exists g, splat cfg x y dx dy col s =
    Ok tt (after s (canvas s) g (pool_of (swap d) (swap v) dv c p)
                 [EvSplat x y dx dy col;
                  EvDraw splatProgram (Some (fbo (write v))); EvSwap Fvelocity;
                  EvDraw splatProgram (Some (fbo (write d))); EvSwap Fdye]).
Proof. unfold splat, correctRadius. pass_effect. Qed.

End Effects.

Section Step.
Context `{Host}.
Variable cfg : Config.

Lemma after_nothing (s : State) : after s (canvas s) (gl s) (pool s) [] = s.
Proof. destruct s. unfold after. cbn. rewrite app_nil_r. reflexivity. Qed.

Lemma pressure_loop_effect (n : nat) : forall s d v dv c p,
  pool s = pool_of d v dv c p ->
  program (gl s) = Some pressureProgram ->
  exists g, repeatM n pressure_iteration s =
    Ok tt (after s (canvas s) g (pool_of d v dv c (Nat.iter n swap p))
                 (sweeps_log n p)) /\
    program g = Some pressureProgram.
Proof.
  induction n as [|n IH]; intros s d v dv c p P PG.
  - exists (gl s). split; [|exact PG]. cbn [repeatM sweeps_log ret].
    change (Nat.iter 0 swap p) with p. rewrite <- P. rewrite after_nothing. reflexivity.
  - destruct (pressure_iteration_effect s d v dv c p P PG) as (g1 & E1 & PG1).
    cbn [repeatM]. rewrite (bind_Ok _ _ _ _ _ E1).
    match goal with |- exists g, repeatM n _ ?S = _ /\ _ =>
      destruct (IH S d v dv c (swap p) eq_refl PG1) as (g2 & E2 & PG2) end.
    exists g2. split; [|exact PG2]. rewrite E2, after_after.
    rewrite Nat.iter_succ_r. reflexivity.
Qed.

Lemma step_pressure_solve_effect : forall s d v dv c p,
  pool s = pool_of d v dv c p ->
  exists g, step_pressure_solve cfg s =
    Ok tt (after s (canvas s) g
                 (pool_of d v dv c (Nat.iter (Z.to_nat (PRESSURE_ITERATIONS cfg)) swap p))
                 (sweeps_log (Z.to_nat (PRESSURE_ITERATIONS cfg)) p)).
Proof.
  intros s d v dv c p P.
  destruct s as [cv g pl ptr at_ lt ct rc ls lg].
  destruct g as [cc tx tc au bd fb vp pg un].
  cbn [pool] in P. subst pl.
  unfold step_pressure_solve, pool_of, for_lt. run_flat.
  match goal with
  | |- exists g, repeatM ?n _ ?S = _ =>
      destruct (pressure_loop_effect n S d v dv c p eq_refl eq_refl) as (g2 & E & _)
  end.
  exists g2. rewrite E. reflexivity.
Qed.

(** The passes of one step, in order, and what it leaves: the dye swapped
    once, the velocity three times, the pressure once more than the Jacobi
    loop has turns, and everything but the WebGL state, the pool and the log
    as it was. *)
Lemma step_effect (ext : Ext) (dt_ : Q) (s : State) (d v : DoubleFBO)
    (dv c : FBO) (p : DoubleFBO) :
  pool s = pool_of d v dv c p ->
  let n := Z.to_nat (PRESSURE_ITERATIONS cfg) in
  exists g,
    step cfg ext dt_ s =
    Ok tt (after s (canvas s) g
                 (pool_of (swap d) (swap v) dv c (Nat.iter (S n) swap p))
                 (step_events n d v dv c p)).
Proof.
  intros P n. unfold step.
  rewrite bind_emit.
  match goal with |- exists g, bind _ _ ?S = _ =>
    destruct (step_curl_effect S d v dv c p P) as (g1 & E1) end.
  rewrite (bind_Ok _ _ _ _ _ E1).
  match goal with |- exists g, bind _ _ ?S = _ =>
    destruct (step_vorticity_effect cfg dt_ S d v dv c p eq_refl) as (g2 & E2) end.
  rewrite (bind_Ok _ _ _ _ _ E2).
  match goal with |- exists g, bind _ _ ?S = _ =>
    destruct (step_divergence_effect S d (swap v) dv c p eq_refl) as (g3 & E3) end.
  rewrite (bind_Ok _ _ _ _ _ E3).
  match goal with |- exists g, bind _ _ ?S = _ =>
    destruct (step_clear_pressure_effect cfg S d (swap v) dv c p eq_refl) as (g4 & E4) end.
  rewrite (bind_Ok _ _ _ _ _ E4).
  match goal with |- exists g, bind _ _ ?S = _ =>
    destruct (step_pressure_solve_effect S d (swap v) dv c (swap p) eq_refl) as (g5 & E5) end.
  rewrite (bind_Ok _ _ _ _ _ E5).
  match goal with |- exists g, bind _ _ ?S = _ =>
    destruct (step_gradient_subtract_effect S d (swap v) dv c
                (Nat.iter n swap (swap p)) eq_refl) as (g6 & E6) end.
  rewrite (bind_Ok _ _ _ _ _ E6).
  match goal with |- exists g, bind _ _ ?S = _ =>
    destruct (step_advect_velocity_effect cfg ext dt_ S d (swap (swap v)) dv c
                (Nat.iter n swap (swap p)) eq_refl) as (g7 & E7 & PG7) end.
  rewrite (bind_Ok _ _ _ _ _ E7).
  match goal with |- exists g, _ ?S = _ =>
    destruct (step_advect_dye_effect cfg S d (swap (swap (swap v))) dv c
                (Nat.iter n swap (swap p)) eq_refl PG7) as (g8 & E8 & _) end.
  exists g8. rewrite E8. rewrite !after_after.
  rewrite !swap_swap, Nat.iter_succ_r.
  unfold step_events, after.
  cbn [with_log with_pool with_gl with_canvas canvas gl pool pointer0
       autoSplatTimer lastTime colorTimer random_calls listeners log
       swap read write fbo].
  rewrite <- !app_assoc. reflexivity.
Qed.

(** X14.  The passes of one step, in order, and what it leaves: the dye swapped
    once, the velocity three times, the pressure once more than the Jacobi
    loop has turns, and everything but the WebGL state, the pool and the log
    as it was. *)
Theorem step_passes (ext : Ext) (dt_ : Q) (s : State) (d v : DoubleFBO)
    (dv c : FBO) (p : DoubleFBO) :
  pool s = pool_of d v dv c p ->
  let n := Z.to_nat (PRESSURE_ITERATIONS cfg) in
  exists g,
    step cfg ext dt_ s =
    Ok tt (after s (canvas s) g
                 (pool_of (swap d) (swap v) dv c (Nat.iter (S n) swap p))
                 (step_events n d v dv c p)).
Proof.
  intros P n. unfold step.
  rewrite bind_emit.
  match goal with |- exists g, bind _ _ ?S = _ =>
    destruct (step_curl_effect S d v dv c p P) as (g1 & E1) end.
  rewrite (bind_Ok _ _ _ _ _ E1).
  match goal with |- exists g, bind _ _ ?S = _ =>
    destruct (step_vorticity_effect cfg dt_ S d v dv c p eq_refl) as (g2 & E2) end.
  rewrite (bind_Ok _ _ _ _ _ E2).
  match goal with |- exists g, bind _ _ ?S = _ =>
    destruct (step_divergence_effect S d (swap v) dv c p eq_refl) as (g3 & E3) end.
  rewrite (bind_Ok _ _ _ _ _ E3).
  match goal with |- exists g, bind _ _ ?S = _ =>
    destruct (step_clear_pressure_effect cfg S d (swap v) dv c p eq_refl) as (g4 & E4) end.
  rewrite (bind_Ok _ _ _ _ _ E4).
  match goal with |- exists g, bind _ _ ?S = _ =>
    destruct (step_pressure_solve_effect S d (swap v) dv c (swap p) eq_refl) as (g5 & E5) end.
  rewrite (bind_Ok _ _ _ _ _ E5).
  match goal with |- exists g, bind _ _ ?S = _ =>
    destruct (step_gradient_subtract_effect S d (swap v) dv c
                (Nat.iter n swap (swap p)) eq_refl) as (g6 & E6) end.
  rewrite (bind_Ok _ _ _ _ _ E6).
  match goal with |- exists g, bind _ _ ?S = _ =>
    destruct (step_advect_velocity_effect cfg ext dt_ S d (swap (swap v)) dv c
                (Nat.iter n swap (swap p)) eq_refl) as (g7 & E7 & PG7) end.
  rewrite (bind_Ok _ _ _ _ _ E7).
  match goal with |- exists g, _ ?S = _ =>
    destruct (step_advect_dye_effect cfg S d (swap (swap (swap v))) dv c
                (Nat.iter n swap (swap p)) eq_refl PG7) as (g8 & E8 & _) end.
  exists g8. rewrite E8. rewrite !after_after.
  rewrite !swap_swap, Nat.iter_succ_r.
  unfold step_events, after.
  cbn [with_log with_pool with_gl with_canvas canvas gl pool pointer0
       autoSplatTimer lastTime colorTimer random_calls listeners log
       swap read write fbo].
  rewrite <- !app_assoc. reflexivity.
Qed.

Lemma render_effect : forall s d v dv c p,
  pool s = pool_of d v dv c p ->
  exists g img, render cfg None s =
    Ok tt (after s (present img (canvas s)) g (pool_of d v dv c p)
                 [EvRender; EvDraw displayProgram None]).
Proof.
  intros s d v dv c p P.
  destruct s as [cv g pl ptr at_ lt ct rc ls lg].
  destruct g as [cc tx tc au bd fb vp pg un].
  cbn [pool] in P. subst pl.
  unfold render, pool_of, after. run_flat.
  cbn [with_log with_pool with_gl with_canvas canvas gl pool pointer0
       autoSplatTimer lastTime colorTimer random_calls listeners log].
  rewrite <- ?app_assoc. cbn [app].
  eexists. eexists. reflexivity.
Qed.

End Step.

Section Tick.
Context `{Host}.
Variable cfg : Config.
Variable ext : Ext.

Lemma resizeCanvas_noop (s : State) :
  (width (canvas s), height (canvas s)) = client_pixels (canvas s) ->
  resizeCanvas s = Ok false s.
Proof.
  intros E. unfold resizeCanvas, bind, gets. rewrite <- E.
  rewrite !Z.eqb_refl. reflexivity.
Qed.

(** Below the threshold [autoSplat] only advances its timer: no random
    number is drawn and WebGL is not touched. *)
Lemma autoSplat_idle (dt_ : Q) (s : State) :
  autoSplatTimer s + dt_ <= 4#10 ->
  autoSplat cfg dt_ s =
  Ok tt (with_log (log s ++ [EvAutoSplat])
           (with_timers (autoSplatTimer s + dt_) (lastTime s) (colorTimer s) s)).
Proof.
  intros L. apply Qltb_ge in L. unfold autoSplat. run_monad.
  rewrite L. reflexivity.
Qed.

(** X15.  Below the threshold [autoSplat] only advances its timer: no random
    number is drawn and WebGL is not touched. *)
Theorem autoSplat_waits (dt_ : Q) (s : State) :
  autoSplatTimer s + dt_ <= 4#10 ->
  autoSplat cfg dt_ s =
  Ok tt (with_log (log s ++ [EvAutoSplat])
           (with_timers (autoSplatTimer s + dt_) (lastTime s) (colorTimer s) s)).
Proof.
  intros L. apply Qltb_ge in L. unfold autoSplat. run_monad.
  rewrite L. reflexivity.
Qed.

(** X17.  A tick in which nothing happened outside (the canvas has the size of
    its box, the pointer has not moved, the ambient timer stays below its
    threshold) is one step, one draw of the dye to the canvas and one
    request for the next frame, and draws no random number. *)
Theorem quiet_tick (now : Z) (s : State) (d v : DoubleFBO) (dv c : FBO)
    (p : DoubleFBO) :
  pool s = pool_of d v dv c p ->
  (width (canvas s), height (canvas s)) = client_pixels (canvas s) ->
  moved (pointer0 s) = false ->
  autoSplatTimer s + tick_dt now s <= 4#10 ->
  let n := Z.to_nat (PRESSURE_ITERATIONS cfg) in
  exists g img,
    update cfg ext now s =
    Ok tt (with_timers (autoSplatTimer s + tick_dt now s) now (colorTimer s)
            (after s (present img (canvas s)) g
               (pool_of (swap d) (swap v) dv c (Nat.iter (S n) swap p))
               (EvUpdate :: EvAutoSplat :: step_events n d v dv c p
                ++ [EvRender; EvDraw displayProgram None; EvRequestFrame]))).
Proof.
  intros P C M T n. unfold update. fold (tick_dt now s).
  rewrite bind_emit, bind_gets.
  cbn [lastTime with_log]. fold (tick_dt now s).
  rewrite bind_modify.
  match goal with |- exists g img, bind resizeCanvas _ ?S = _ =>
    rewrite (bind_Ok _ _ _ _ _ (resizeCanvas_noop S C)) end.
  cbn [when]. rewrite bind_ret, bind_gets.
  cbn [pointer0 with_timers with_log]. rewrite M. cbn [when]. rewrite bind_ret.
  match goal with |- exists g img, bind (autoSplat _ _) _ ?S = _ =>
    rewrite (bind_Ok _ _ _ _ _ (autoSplat_idle (tick_dt now s) S T)) end.
  match goal with |- exists g img, bind (step _ _ _) _ ?S = _ =>
    destruct (step_effect cfg ext (tick_dt now s) S d v dv c p P) as (g1 & E1) end.
  rewrite (bind_Ok _ _ _ _ _ E1).
  match goal with |- exists g img, bind (render _ _) _ ?S = _ =>
    destruct (render_effect cfg S _ _ _ _ _ eq_refl) as (g2 & img & E2) end.
  rewrite (bind_Ok _ _ _ _ _ E2).
  exists g2, img. unfold emit, modify, after.
  cbn [with_log with_pool with_gl with_canvas with_timers canvas gl pool pointer0
       autoSplatTimer lastTime colorTimer random_calls listeners log].
  rewrite <- !app_assoc. cbn [app]. reflexivity.
Qed.

End Tick.

Section Ambient.
Context `{Host}.
Variable cfg : Config.
Variable ext : Ext.

Lemma ambient_force_bound (r : Q) :
  0 <= r -> r < 1 -> Qabs ((r - (1#2)) * (3#10000)) <= (15#100000).
Proof.
  intros L U. apply Qabs_Qle_condition. split; lra.
Qed.

(** Above the threshold [autoSplat] resets its timer and makes one splat:
    the position is two draws of [Math.random], the force components are at
    most 0.00015 in magnitude, the colour is a scaled palette colour, and
    five random numbers are drawn in all. *)
Lemma autoSplat_effect (dt_ : Q) (s : State) (d v : DoubleFBO) (dv c : FBO)
    (p : DoubleFBO) :
  random_in_range _ ->
  pool s = pool_of d v dv c p ->
  4#10 < autoSplatTimer s + dt_ ->
  exists g dx dy col,
    let x := Math_random (random_calls s) in
    let y := Math_random (S (random_calls s)) in
    autoSplat cfg dt_ s =
    Ok tt (with_random_calls (5 + random_calls s)
            (with_timers 0 (lastTime s) (colorTimer s)
               (after s (canvas s) g (pool_of (swap d) (swap v) dv c p)
                  (EvAutoSplat :: splat_events x y dx dy col d v)))) /\
    (0 <= x /\ x < 1) /\ (0 <= y /\ y < 1) /\
    Qabs dx <= (15#100000) /\ Qabs dy <= (15#100000) /\
    palette_colour col.
Proof.
  intros R P T. apply Qltb_lt in T. unfold autoSplat. run_monad.
  rewrite T. run_monad.
  repeat (rewrite (bind_Ok _ _ _ _ _ (random_spec _)); run_monad).
  match goal with
  | |- context [bind getRandomColor ?k ?S] =>
      destruct (getRandomColor_palette S R) as (pc & IN & E);
      rewrite (bind_Ok _ k S _ _ E)
  end.
  match goal with
  | |- context [splat cfg ?x ?y ?fx ?fy ?col ?S] =>
      destruct (splat_effect cfg x y fx fy col S d v dv c p P) as (g & E')
  end.
  exists g. do 3 eexists. cbv zeta. split.
  { rewrite E'. unfold after, splat_events.
    cbn [with_log with_pool with_gl with_canvas with_timers with_random_calls
         canvas gl pool pointer0
         autoSplatTimer lastTime colorTimer random_calls listeners log].
    rewrite <- !app_assoc. cbn [app Nat.add]. reflexivity. }
  split; [exact (R _)|]. split; [exact (R _)|].
  split; [apply ambient_force_bound; apply R|].
  split; [apply ambient_force_bound; apply R|].
  exists pc. split; [exact IN|reflexivity].
Qed.

(** X16.  Above the threshold [autoSplat] resets its timer and makes one splat:
    the position is two draws of [Math.random], the force components are at
    most 0.00015 in magnitude, the colour is a scaled palette colour, and
    five random numbers are drawn in all. *)
Theorem autoSplat_fires (dt_ : Q) (s : State) (d v : DoubleFBO) (dv c : FBO)
    (p : DoubleFBO) :
  random_in_range _ ->
  pool s = pool_of d v dv c p ->
  4#10 < autoSplatTimer s + dt_ ->
  exists g dx dy col,
    let x := Math_random (random_calls s) in
    let y := Math_random (S (random_calls s)) in
    autoSplat cfg dt_ s =
    Ok tt (with_random_calls (5 + random_calls s)
            (with_timers 0 (lastTime s) (colorTimer s)
               (after s (canvas s) g (pool_of (swap d) (swap v) dv c p)
                  (EvAutoSplat :: splat_events x y dx dy col d v)))) /\
    (0 <= x /\ x < 1) /\ (0 <= y /\ y < 1) /\
    Qabs dx <= (15#100000) /\ Qabs dy <= (15#100000) /\
    palette_colour col.
Proof.
  intros R P T. apply Qltb_lt in T. unfold autoSplat. run_monad.
  rewrite T. run_monad.
  repeat (rewrite (bind_Ok _ _ _ _ _ (random_spec _)); run_monad).
  match goal with
  | |- context [bind getRandomColor ?k ?S] =>
      destruct (getRandomColor_palette S R) as (pc & IN & E);
      rewrite (bind_Ok _ k S _ _ E)
  end.
  match goal with
  | |- context [splat cfg ?x ?y ?fx ?fy ?col ?S] =>
      destruct (splat_effect cfg x y fx fy col S d v dv c p P) as (g & E')
  end.
  exists g. do 3 eexists. cbv zeta. split.
  { rewrite E'. unfold after, splat_events.
    cbn [with_log with_pool with_gl with_canvas with_timers with_random_calls
         canvas gl pool pointer0
         autoSplatTimer lastTime colorTimer random_calls listeners log].
    rewrite <- !app_assoc. cbn [app Nat.add]. reflexivity. }
  split; [exact (R _)|]. split; [exact (R _)|].
  split; [apply ambient_force_bound; apply R|].
  split; [apply ambient_force_bound; apply R|].
  exists pc. split; [exact IN|reflexivity].
Qed.

End Ambient.

Section Ticks.
Context `{Host}.
Variable cfg : Config.
Variable ext : Ext.

Lemma tail_effect (dt_ : Q) (s : State) (d v : DoubleFBO) (dv c : FBO)
    (p : DoubleFBO) :
  random_in_range _ ->
  pool s = pool_of d v dv c p ->
  exists s' amb stp d' v' dv' c' p',
    (autoSplat cfg dt_ ;; step cfg ext dt_ ;; render cfg None ;;
     emit EvRequestFrame) s = Ok tt s' /\
    log s' = log s ++ EvAutoSplat :: amb ++ stp
               ++ [EvRender; EvDraw displayProgram None; EvRequestFrame] /\
    splat_or_nothing amb /\ some_step stp /\
    (autoSplatTimer s + dt_ <= 4#10 -> amb = []) /\
    (4#10 < autoSplatTimer s + dt_ -> amb <> []) /\
    pool s' = pool_of d' v' dv' c' p' /\
    autoSplatTimer s' =
      (if Qltb (4#10) (autoSplatTimer s + dt_) then 0 else autoSplatTimer s + dt_) /\
    lastTime s' = lastTime s /\ pointer0 s' = pointer0 s /\
    listeners s' = listeners s.
Proof.
  intros R P.
  destruct (Qltb (4#10) (autoSplatTimer s + dt_)) eqn:T.
  - apply Qltb_lt in T.
    destruct (autoSplat_effect cfg dt_ s d v dv c p R P T)
      as (g0 & dx & dy & col & E0 & _).
    cbv zeta in E0. rewrite (bind_Ok _ _ _ _ _ E0).
    match goal with |- context [bind (step _ _ _) _ ?S] =>
      destruct (step_effect cfg ext dt_ S (swap d) (swap v) dv c p eq_refl) as (g1 & E1) end.
    rewrite (bind_Ok _ _ _ _ _ E1).
    match goal with |- context [bind (render _ _) _ ?S] =>
      destruct (render_effect cfg S _ _ _ _ _ eq_refl) as (g2 & img & E2) end.
    rewrite (bind_Ok _ _ _ _ _ E2).
    eexists.
    exists (splat_events (Math_random (random_calls s))
              (Math_random (S (random_calls s))) dx dy col d v),
           (step_events (Z.to_nat (PRESSURE_ITERATIONS cfg)) (swap d) (swap v) dv c p).
    do 5 eexists. split; [reflexivity|].
    unfold emit, modify, after.
    cbn [with_log with_pool with_gl with_canvas with_timers with_random_calls
         canvas gl pool pointer0
         autoSplatTimer lastTime colorTimer random_calls listeners log].
    split; [rewrite <- !app_assoc; cbn [app]; reflexivity|].
    split; [right; do 7 eexists; reflexivity|].
    split; [do 6 eexists; reflexivity|].
    split; [intros L; exfalso; apply (Qlt_not_le _ _ T L)|].
    split; [discriminate|].
    split; [reflexivity|]. repeat split.
  - apply Qltb_ge in T.
    rewrite (bind_Ok _ _ _ _ _ (autoSplat_idle cfg dt_ s T)).
    match goal with |- context [bind (step _ _ _) _ ?S] =>
      destruct (step_effect cfg ext dt_ S d v dv c p P) as (g1 & E1) end.
    rewrite (bind_Ok _ _ _ _ _ E1).
    match goal with |- context [bind (render _ _) _ ?S] =>
      destruct (render_effect cfg S _ _ _ _ _ eq_refl) as (g2 & img & E2) end.
    rewrite (bind_Ok _ _ _ _ _ E2).
    eexists.
    exists [], (step_events (Z.to_nat (PRESSURE_ITERATIONS cfg)) d v dv c p).
    do 5 eexists. split; [reflexivity|].
    unfold emit, modify, after.
    cbn [with_log with_pool with_gl with_canvas with_timers with_random_calls
         canvas gl pool pointer0
         autoSplatTimer lastTime colorTimer random_calls listeners log].
    split; [rewrite <- !app_assoc; cbn [app]; reflexivity|].
    split; [left; reflexivity|].
    split; [do 6 eexists; reflexivity|].
    split; [reflexivity|].
    split; [intros L; exfalso; apply (Qlt_not_le _ _ L T)|].
    split; [reflexivity|]. repeat split.
Qed.

Lemma allocated_pool_of (pl : Pool) :
  allocated pl -> exists d v dv c p, pl = pool_of d v dv c p.
Proof.
  intros (A1 & A2 & A3 & A4 & A5).
  destruct pl as [[d|] [v|] [dv|] [c|] [p|]]; cbn in *; try congruence.
  do 5 eexists. reflexivity.
Qed.

Lemma pool_of_allocated (d v : DoubleFBO) (dv c : FBO) (p : DoubleFBO) :
  allocated (pool_of d v dv c p).
Proof. repeat split; discriminate. Qed.

Lemma pointer_block_effect (dt_ : Q) (s : State) (d v : DoubleFBO) (dv c : FBO)
    (p : DoubleFBO) :
  random_in_range _ ->
  pool s = pool_of d v dv c p ->
  exists s' pp amb stp d' v' dv' c' p',
    (p <- gets pointer0 ;;
     when (moved p)
       (modify (fun s => with_pointer0 (with_moved false (pointer0 s)) s) ;;
        emit EvMovedCleared ;;
        modify (fun s => with_timers (autoSplatTimer s) (lastTime s)
                           (colorTimer s + dt_ * COLOR_UPDATE_SPEED cfg) s) ;;
        c <- getRandomColor ;;
        modify (fun s => with_pointer0 (with_pcolor c (pointer0 s)) s) ;;
        p <- gets pointer0 ;;
        splat cfg (texcoordX p) (texcoordY p) (deltaX p) (deltaY p) (pcolor p)) ;;
     autoSplat cfg dt_ ;; step cfg ext dt_ ;; render cfg None ;;
     emit EvRequestFrame) s = Ok tt s' /\
    log s' = log s ++ pp ++ EvAutoSplat :: amb ++ stp
               ++ [EvRender; EvDraw displayProgram None; EvRequestFrame] /\
    pointer_events pp /\ splat_or_nothing amb /\ some_step stp /\
    (moved (pointer0 s) = false -> pp = []) /\
    (moved (pointer0 s) = true -> pp <> []) /\
    (autoSplatTimer s + dt_ <= 4#10 -> amb = []) /\
    (4#10 < autoSplatTimer s + dt_ -> amb <> []) /\
    pool s' = pool_of d' v' dv' c' p' /\
    autoSplatTimer s' =
      (if Qltb (4#10) (autoSplatTimer s + dt_) then 0 else autoSplatTimer s + dt_) /\
    lastTime s' = lastTime s /\ moved (pointer0 s') = false /\
    listeners s' = listeners s.
Proof.
  intros R P. rewrite bind_gets.
  destruct (moved (pointer0 s)) eqn:M; cbn [when].
  - run_monad.
    match goal with
    | |- context [bind getRandomColor ?k ?S] =>
        destruct (getRandomColor_palette S R) as (pc & _ & E0);
        rewrite (bind_Ok _ k S _ _ E0)
    end.
    run_monad.
    match goal with
    | |- context [bind (splat cfg ?x ?y ?fx ?fy ?col) ?k ?S] =>
        destruct (splat_effect cfg x y fx fy col S d v dv c p P) as (g1 & E1);
        rewrite (bind_Ok _ k S _ _ E1);
        pose (pp := EvMovedCleared :: splat_events x y fx fy col d v)
    end.
    match goal with
    | |- context [bind (autoSplat _ _) _ ?S] =>
        destruct (tail_effect dt_ S (swap d) (swap v) dv c p R eq_refl)
          as (s' & amb & stp & d' & v' & dv' & c' & p' & E & L & SA & SS & A0 & A1
              & PL & AT & LT & PT & LS)
    end.
    exists s', pp, amb, stp, d', v', dv', c', p'.
    split; [exact E|].
    unfold after in L, A0, A1, AT, LT, PT, LS.
    cbn [with_log with_pool with_gl with_canvas with_timers with_random_calls
         with_pointer0 canvas gl pool pointer0
         autoSplatTimer lastTime colorTimer random_calls listeners log] in *.
    split; [rewrite L; subst pp; unfold splat_events;
            rewrite <- !app_assoc; cbn [app]; reflexivity|].
    split; [right; do 7 eexists; reflexivity|].
    split; [exact SA|]. split; [exact SS|].
    split; [discriminate|]. split; [intros _; discriminate|].
    split; [exact A0|]. split; [exact A1|]. split; [exact PL|].
    split; [exact AT|]. split; [exact LT|].
    split; [rewrite PT; reflexivity|exact LS].
  - rewrite bind_ret.
    destruct (tail_effect dt_ s d v dv c p R P)
      as (s' & amb & stp & d' & v' & dv' & c' & p' & E & L & SA & SS & A0 & A1
          & PL & AT & LT & PT & LS).
    exists s', [], amb, stp, d', v', dv', c', p'.
    split; [exact E|]. split; [exact L|]. split; [left; reflexivity|].
    split; [exact SA|]. split; [exact SS|].
    split; [reflexivity|]. split; [discriminate|].
    split; [exact A0|]. split; [exact A1|]. split; [exact PL|].
    split; [exact AT|]. split; [exact LT|].
    split; [rewrite PT; exact M|exact LS].
Qed.

(** What one tick does, whatever happened outside. *)
Lemma update_effect (now : Z) (s : State) :
  random_in_range _ -> usable ext -> allocated (pool s) ->
  exists s' rs pp amb stp,
    update cfg ext now s = Ok tt s' /\
    log s' = log s ++ tick_events rs pp amb stp /\
    rebuild_events rs /\ pointer_events pp /\ splat_or_nothing amb /\
    some_step stp /\
    (moved (pointer0 s) = false -> pp = []) /\
    (moved (pointer0 s) = true -> pp <> []) /\
    (autoSplatTimer s + tick_dt now s <= 4#10 -> amb = []) /\
    (4#10 < autoSplatTimer s + tick_dt now s -> amb <> []) /\
    allocated (pool s') /\
    autoSplatTimer s' =
      (if Qltb (4#10) (autoSplatTimer s + tick_dt now s) then 0
       else autoSplatTimer s + tick_dt now s) /\
    lastTime s' = now /\ moved (pointer0 s') = false /\
    listeners s' = listeners s.
Proof.
  intros R (rgba & rg & r & F1 & F2 & F3) A.
  destruct (allocated_pool_of _ A) as (d & v & dv & c & p & P).
  unfold update. fold (tick_dt now s).
  rewrite bind_emit, bind_gets. cbn [lastTime with_log]. fold (tick_dt now s).
  rewrite bind_modify.
  match goal with
  | |- context [bind resizeCanvas ?k ?S] =>
      destruct (resizeCanvas_spec S) as (b & c' & E0 & _);
      rewrite (bind_Ok _ k S _ _ E0)
  end.
  destruct b; cbn [when].
  - match goal with
    | |- context [bind (initFramebuffers cfg ext) ?k ?S] =>
        destruct (initFramebuffers_allocates cfg ext S rgba rg r F1 F2 F3)
          as (g' & E1 & _);
        rewrite (bind_Ok _ k S _ _ E1)
    end.
    cbv beta.
    match goal with
    | |- context [bind (gets pointer0) _ ?S] =>
        destruct (pointer_block_effect (tick_dt now s) S _ _ _ _ _ R eq_refl)
          as (s' & pp & amb & stp & d' & v' & dv' & c1 & p' & E & L & SP & SA & SS
              & M0 & M1 & A0 & A1 & PL & AT & LT & MV & LS)
    end.
    exists s', [EvInitFramebuffers], pp, amb, stp.
    cbn [with_log with_pool with_gl with_canvas with_timers with_random_calls
         with_pointer0 canvas gl pool pointer0
         autoSplatTimer lastTime colorTimer random_calls listeners log] in *.
    split; [exact E|].
    split; [rewrite L; unfold tick_events; rewrite <- !app_assoc; reflexivity|].
    split; [right; reflexivity|]. split; [exact SP|]. split; [exact SA|].
    split; [exact SS|]. split; [exact M0|]. split; [exact M1|].
    split; [exact A0|]. split; [exact A1|].
    split; [rewrite PL; apply pool_of_allocated|].
    split; [exact AT|]. split; [exact LT|]. split; [exact MV|exact LS].
  - rewrite bind_ret.
    match goal with
    | |- context [bind (gets pointer0) _ ?S] =>
        destruct (pointer_block_effect (tick_dt now s) S d v dv c p R P)
          as (s' & pp & amb & stp & d' & v' & dv' & c1 & p' & E & L & SP & SA & SS
              & M0 & M1 & A0 & A1 & PL & AT & LT & MV & LS)
    end.
    exists s', [], pp, amb, stp.
    cbn [with_log with_pool with_gl with_canvas with_timers with_random_calls
         with_pointer0 canvas gl pool pointer0
         autoSplatTimer lastTime colorTimer random_calls listeners log] in *.
    split; [exact E|].
    split; [rewrite L; unfold tick_events; rewrite <- !app_assoc; reflexivity|].
    split; [left; reflexivity|]. split; [exact SP|]. split; [exact SA|].
    split; [exact SS|]. split; [exact M0|]. split; [exact M1|].
    split; [exact A0|]. split; [exact A1|].
    split; [rewrite PL; apply pool_of_allocated|].
    split; [exact AT|]. split; [exact LT|]. split; [exact MV|exact LS].
Qed.

End Ticks.

(** ** The shape of a tick *)

Lemma filter_sweeps_log (f : Event -> bool) (n : nat) (p : DoubleFBO) :
  (forall q t, f (EvDraw q (Some t)) = false) ->
  (forall fl, f (EvSwap fl) = false) ->
  filter f (sweeps_log n p) = [].
Proof.
  intros D S. revert p. induction n as [|n IH]; intros p; [reflexivity|].
  cbn [sweeps_log filter]. rewrite D, S. apply IH.
Qed.

Lemma count_app (f : Event -> bool) (a b : list Event) :
  count f (a ++ b) = (count f a + count f b)%nat.
Proof. unfold count. rewrite filter_app, length_app. reflexivity. Qed.

Lemma count_step_events (f : Event -> bool) n d v dv c p :
  (forall q t, f (EvDraw q (Some t)) = false) ->
  (forall fl, f (EvSwap fl) = false) ->
  count f (step_events n d v dv c p) = (if f EvStep then 1 else 0)%nat.
Proof.
  intros D S. unfold step_events. rewrite !count_app.
  unfold count at 2. rewrite (filter_sweeps_log f n (swap p) D S).
  unfold count. cbn [filter]. rewrite !D, !S.
  destruct (f EvStep); reflexivity.
Qed.

Lemma count_splat_events (f : Event -> bool) x y dx dy col d v :
  (forall q t, f (EvDraw q (Some t)) = false) ->
  (forall fl, f (EvSwap fl) = false) ->
  count f (splat_events x y dx dy col d v) =
  (if f (EvSplat x y dx dy col) then 1 else 0)%nat.
Proof.
  intros D S. unfold count, splat_events. cbn [filter]. rewrite !D, !S.
  destruct (f (EvSplat x y dx dy col)); reflexivity.
Qed.

Section Structure.
Context `{Host}.
Variable cfg : Config.
Variable ext : Ext.

(** X18.  Every tick makes one step and one draw to the canvas and ends by
    requesting the next frame, once; it makes a splat for the pointer when
    the pointer has moved and one more when the ambient timer passes its
    threshold, and no other. *)
Theorem tick_structure (now : Z) (s : State) :
  random_in_range _ -> usable ext -> allocated (pool s) ->
  exists s' tick,
    update cfg ext now s = Ok tt s' /\
    log s' = log s ++ tick /\
    count is_step tick = 1%nat /\
    count is_canvas_draw tick = 1%nat /\
    count is_frame_request tick = 1%nat /\
    last tick EvUpdate = EvRequestFrame /\
    splat_count tick =
      ((if moved (pointer0 s) then 1 else 0) +
       (if Qltb (4#10) (autoSplatTimer s + tick_dt now s) then 1 else 0))%nat /\
    allocated (pool s') /\ lastTime s' = now.
Proof.
  intros R U A.
  destruct (update_effect cfg ext now s R U A)
    as (s' & rs & pp & amb & stp & E & L & SR & SP & SA & SS & M0 & M1 & A0 & A1
        & AL & _ & LT & _).
  exists s', (tick_events rs pp amb stp).
  split; [exact E|]. split; [exact L|].
  destruct SS as (n & d & v & dv & c & p & ->).
  assert (CR : forall f, f EvInitFramebuffers = false ->
                 count f rs = 0%nat).
  { intros f F. destruct SR as [-> | ->]; [reflexivity|].
    unfold count. cbn [filter]. rewrite F. reflexivity. }
  assert (CP : forall f, f EvMovedCleared = false ->
                 (forall q t, f (EvDraw q (Some t)) = false) ->
                 (forall fl, f (EvSwap fl) = false) ->
                 (forall x y dx dy col, f (EvSplat x y dx dy col) = false) ->
                 count f pp = 0%nat).
  { intros f F D S X. destruct SP as [-> | (x & y & dx & dy & col & d' & v' & ->)];
      [reflexivity|].
    change (EvMovedCleared :: splat_events x y dx dy col d' v')
      with ([EvMovedCleared] ++ splat_events x y dx dy col d' v').
    rewrite count_app, count_splat_events by assumption.
    unfold count. cbn [filter]. rewrite F, X. reflexivity. }
  assert (CA : forall f,
                 (forall q t, f (EvDraw q (Some t)) = false) ->
                 (forall fl, f (EvSwap fl) = false) ->
                 (forall x y dx dy col, f (EvSplat x y dx dy col) = false) ->
                 count f amb = 0%nat).
  { intros f D S X. destruct SA as [-> | (x & y & dx & dy & col & d' & v' & ->)];
      [reflexivity|].
    rewrite count_splat_events by assumption. rewrite X. reflexivity. }
  assert (T : forall f,
            count f (tick_events rs pp amb (step_events n d v dv c p)) =
            ((if f EvUpdate then 1 else 0) + (count f rs + (count f pp +
             ((if f EvAutoSplat then 1 else 0) + (count f amb +
              (count f (step_events n d v dv c p) +
               count f [EvRender; EvDraw displayProgram None; EvRequestFrame]))))))%nat).
  { intros f. unfold tick_events.
    change (EvUpdate :: ?l) with ([EvUpdate] ++ l).
    rewrite count_app, count_app, count_app.
    change (EvAutoSplat :: ?l) with ([EvAutoSplat] ++ l).
    rewrite count_app, count_app, count_app.
    unfold count at 1 4. cbn [filter].
    destruct (f EvUpdate), (f EvAutoSplat); reflexivity. }
  split; [|split; [|split; [|split; [|split; [|split; [exact AL|exact LT]]]]]].
  - rewrite T, CR, CP, CA, count_step_events by reflexivity. reflexivity.
  - rewrite T, CR, CP, CA, count_step_events by reflexivity. reflexivity.
  - rewrite T, CR, CP, CA, count_step_events by reflexivity. reflexivity.
  - unfold tick_events.
    rewrite !app_comm_cons, !app_assoc.
    change [EvRender; EvDraw displayProgram None; EvRequestFrame]
      with ([EvRender; EvDraw displayProgram None] ++ [EvRequestFrame]).
    rewrite app_assoc. apply last_last.
  - change splat_count with (count is_splat).
    rewrite T, CR, count_step_events by reflexivity.
    cbn [is_splat Nat.add]. change (count is_splat [EvRender; _; _]) with 0%nat.
    rewrite !Nat.add_0_r.
    assert (PPc : count is_splat pp = (if moved (pointer0 s) then 1 else 0)%nat).
    { destruct (moved (pointer0 s)).
      - destruct SP as [-> | (x & y & dx & dy & col & d' & v' & ->)];
          [exfalso; apply (M1 eq_refl); reflexivity|reflexivity].
      - rewrite (M0 eq_refl). reflexivity. }
    assert (AMc : count is_splat amb =
                  (if Qltb (4#10) (autoSplatTimer s + tick_dt now s) then 1 else 0)%nat).
    { destruct (Qltb (4#10) (autoSplatTimer s + tick_dt now s)) eqn:Q.
      - apply Qltb_lt in Q.
        destruct SA as [-> | (x & y & dx & dy & col & d' & v' & ->)];
          [exfalso; apply (A1 Q); reflexivity|reflexivity].
      - apply Qltb_ge in Q. rewrite (A0 Q). reflexivity. }
    rewrite PPc, AMc. reflexivity.
Qed.

Lemma tick_dt_le (now : Z) (s : State) : tick_dt now s <= 16667#1000000.
Proof.
  unfold tick_dt, Math_min.
  destruct (Qle_bool _ (16667#1000000)) eqn:E;
    [apply Qle_bool_iff; exact E|apply Qle_refl].
Qed.

Lemma on_pointermove_effect (x y : Q) (s : State) :
  exists ptr, on_pointermove x y s = Ok tt (with_pointer0 ptr s).
Proof.
  unfold on_pointermove.
  cbv beta iota zeta delta [pointer_moved_to correctDeltaX correctDeltaY bind gets modify ret].
  eexists. reflexivity.
Qed.

(** X19.  Ambient splats are spaced: as long as the frames run so far cannot
    have brought the timer past 0.4 s, each counting for at most 0.016667 s,
    no frame makes an ambient splat, whatever the clock readings and the
    pointer motions. *)
Theorem ambient_splats_are_spaced (evs : list PageEvent) : forall s : State,
  random_in_range _ -> usable ext -> allocated (pool s) ->
  autoSplatTimer s + inject_Z (Z.of_nat (frames_in evs)) * (16667#1000000) <= 4#10 ->
  exists s' l,
    page cfg ext evs s = Ok tt s' /\
    log s' = log s ++ l /\
    no_ambient_splat l /\
    allocated (pool s').
Proof.
  induction evs as [|e evs IH]; intros s R U A B.
  - exists s, []. split; [reflexivity|]. split; [rewrite app_nil_r; reflexivity|].
    split; [constructor|exact A].
  - destruct e as [now | x y].
    + assert (F : frames_in (Frame now :: evs) = S (frames_in evs)) by reflexivity.
      rewrite F, Nat2Z.inj_succ in B. unfold Z.succ in B.
      rewrite inject_Z_plus in B. change (inject_Z 1) with 1 in B.
      assert (N : 0 <= inject_Z (Z.of_nat (frames_in evs))).
      { change 0 with (inject_Z 0). rewrite <- Zle_Qle. lia. }
      pose proof (tick_dt_le now s) as D.
      assert (Q : autoSplatTimer s + tick_dt now s <= 4#10) by nra.
      destruct (update_effect cfg ext now s R U A)
        as (s1 & rs & pp & amb & stp & E & L & SR & SP & SA & SS & _ & _ & A0 & _
            & AL & AT & _).
      rewrite (A0 Q) in L.
      assert (Q' : Qltb (4#10) (autoSplatTimer s + tick_dt now s) = false)
        by (apply Qltb_ge; exact Q).
      rewrite Q' in AT.
      destruct (IH s1 R U AL) as (s' & l & E' & L' & NA & AL').
      { rewrite AT. nra. }
      exists s', (tick_events rs pp [] stp ++ l).
      cbn [page]. rewrite (bind_Ok _ _ _ _ _ E).
      split; [exact E'|]. split; [rewrite L', L, app_assoc; reflexivity|].
      split; [constructor; assumption|exact AL'].
    + destruct (on_pointermove_effect x y s) as (ptr & E).
      destruct (IH (with_pointer0 ptr s) R U A B) as (s' & l & E' & L' & NA & AL').
      exists s', l. cbn [page]. rewrite (bind_Ok _ _ _ _ _ E).
      split; [exact E'|]. split; [exact L'|]. split; assumption.
Qed.

End Structure.

(** ** Advection at rest *)

(** A texture sampled at a coordinate that is the centre of one of its
    texels, up to the value of the rationals. *)
Lemma texture2D_at_centre (im : GL.Image) (i j : Z) (uv : vec2) :
  (0 <= i < GL.img_w im)%Z -> (0 <= j < GL.img_h im)%Z ->
  vx uv * inject_Z (GL.img_w im) == inject_Z i + (1#2) ->
  vy uv * inject_Z (GL.img_h im) == inject_Z j + (1#2) ->
  v4eq (GL.texture2D im uv) (GL.fetch im i j).
Proof.
  intros I J X Y. unfold GL.texture2D.
  destruct (GL.img_filter im =? GL.LINEAR)%Z.
  - unfold GL.linear.
    set (u := vx uv * inject_Z (GL.img_w im) - (1#2)).
    set (v := vy uv * inject_Z (GL.img_h im) - (1#2)).
    assert (U : u == inject_Z i) by (unfold u; rewrite X; ring).
    assert (V : v == inject_Z j) by (unfold v; rewrite Y; ring).
    assert (FU : Qfloor u = i) by (rewrite (Qfloor_comp _ _ U); apply Qfloor_Z).
    assert (FV : Qfloor v = j) by (rewrite (Qfloor_comp _ _ V); apply Qfloor_Z).
    assert (RU : glsl_fract u == 0).
    { unfold glsl_fract, glsl_floor. rewrite FU, U. ring. }
    assert (RV : glsl_fract v == 0).
    { unfold glsl_fract, glsl_floor. rewrite FV, V. ring. }
    rewrite FU, FV. rewrite !(clampZ_inside i), !(clampZ_inside j) by lia.
    apply mix4_cong; [|exact RV]. apply mix4_0. exact RU.
  - unfold GL.nearest.
    rewrite (Qfloor_comp _ _ X), (Qfloor_comp _ _ Y).
    rewrite !Qfloor_plus_half.
    rewrite (clampZ_inside i), (clampZ_inside j) by lia.
    apply v4eq_refl.
Qed.

(** The filter the advection shader writes out by hand gives, at the
    centre of a texel of its grid, that texel. *)
Lemma bilerp_centre (im : GL.Image) (i j : Z) (uv : vec2) :
  (0 <= i < GL.img_w im)%Z -> (0 <= j < GL.img_h im)%Z ->
  vx uv == (inject_Z i + (1#2)) / inject_Z (GL.img_w im) ->
  vy uv == (inject_Z j + (1#2)) / inject_Z (GL.img_h im) ->
  v4eq (bilerp (GL.texture2D im) uv
               (V2 (1 / inject_Z (GL.img_w im)) (1 / inject_Z (GL.img_h im))))
       (GL.fetch im i j).
Proof.
  intros I J X Y.
  assert (NW : ~ inject_Z (GL.img_w im) == 0) by (apply inject_Z_nonzero; lia).
  assert (NH : ~ inject_Z (GL.img_h im) == 0) by (apply inject_Z_nonzero; lia).
  unfold bilerp, v2subs, v2div, floor2, fract2, v2mul, v2add. cbn [vx vy].
  set (sx := vx uv / (1 / inject_Z (GL.img_w im)) - (1#2)).
  set (sy := vy uv / (1 / inject_Z (GL.img_h im)) - (1#2)).
  assert (SX : sx == inject_Z i) by (unfold sx; rewrite X; field; exact NW).
  assert (SY : sy == inject_Z j) by (unfold sy; rewrite Y; field; exact NH).
  assert (FX : glsl_floor sx = inject_Z i).
  { unfold glsl_floor. rewrite (Qfloor_comp _ _ SX), Qfloor_Z. reflexivity. }
  assert (FY : glsl_floor sy = inject_Z j).
  { unfold glsl_floor. rewrite (Qfloor_comp _ _ SY), Qfloor_Z. reflexivity. }
  assert (RX : glsl_fract sx == 0) by (unfold glsl_fract; rewrite FX, SX; ring).
  assert (RY : glsl_fract sy == 0) by (unfold glsl_fract; rewrite FY, SY; ring).
  rewrite FX, FY.
  apply mix4_cong; [|exact RY]. apply mix4_cong; [|exact RX].
  apply texture2D_at_centre; try assumption; cbn [vx vy]; field; assumption.
Qed.

(** X20.  The filter the advection shader writes out by hand gives, at the
    centre of a texel of its grid, that texel. *)
Theorem bilerp_at_centre (im : GL.Image) (i j : Z) (uv : vec2) :
  (0 <= i < GL.img_w im)%Z -> (0 <= j < GL.img_h im)%Z ->
  vx uv == (inject_Z i + (1#2)) / inject_Z (GL.img_w im) ->
  vy uv == (inject_Z j + (1#2)) / inject_Z (GL.img_h im) ->
  v4eq (bilerp (GL.texture2D im) uv
               (V2 (1 / inject_Z (GL.img_w im)) (1 / inject_Z (GL.img_h im))))
       (GL.fetch im i j).
Proof.
  intros I J X Y.
  assert (NW : ~ inject_Z (GL.img_w im) == 0) by (apply inject_Z_nonzero; lia).
  assert (NH : ~ inject_Z (GL.img_h im) == 0) by (apply inject_Z_nonzero; lia).
  unfold bilerp, v2subs, v2div, floor2, fract2, v2mul, v2add. cbn [vx vy].
  set (sx := vx uv / (1 / inject_Z (GL.img_w im)) - (1#2)).
  set (sy := vy uv / (1 / inject_Z (GL.img_h im)) - (1#2)).
  assert (SX : sx == inject_Z i) by (unfold sx; rewrite X; field; exact NW).
  assert (SY : sy == inject_Z j) by (unfold sy; rewrite Y; field; exact NH).
  assert (FX : glsl_floor sx = inject_Z i).
  { unfold glsl_floor. rewrite (Qfloor_comp _ _ SX), Qfloor_Z. reflexivity. }
  assert (FY : glsl_floor sy = inject_Z j).
  { unfold glsl_floor. rewrite (Qfloor_comp _ _ SY), Qfloor_Z. reflexivity. }
  assert (RX : glsl_fract sx == 0) by (unfold glsl_fract; rewrite FX, SX; ring).
  assert (RY : glsl_fract sy == 0) by (unfold glsl_fract; rewrite FY, SY; ring).
  rewrite FX, FY.
  apply mix4_cong; [|exact RY]. apply mix4_cong; [|exact RX].
  apply texture2D_at_centre; try assumption; cbn [vx vy]; field; assumption.
Qed.

Lemma mix4_rest (a b : vec4) (t : Q) :
  (px a == 0 /\ py a == 0) -> (px b == 0 /\ py b == 0) ->
  px (mix4 a b t) == 0 /\ py (mix4 a b t) == 0.
Proof.
  intros [A1 A2] [B1 B2]. unfold mix4, glsl_mix. cbn [px py].
  rewrite A1, A2, B1, B2. split; ring.
Qed.

Lemma texture2D_rest (im : GL.Image) (uv : vec2) :
  (0 < GL.img_w im)%Z -> (0 < GL.img_h im)%Z -> at_rest im ->
  px (GL.texture2D im uv) == 0 /\ py (GL.texture2D im uv) == 0.
Proof.
  intros W H R. unfold GL.texture2D.
  destruct (GL.img_filter im =? GL.LINEAR)%Z.
  - unfold GL.linear.
    repeat apply mix4_rest; apply R; apply clampZ_range; assumption.
  - unfold GL.nearest. apply R; apply clampZ_range; assumption.
Qed.

Lemma bilerp_rest (im : GL.Image) (uv ts : vec2) :
  (0 < GL.img_w im)%Z -> (0 < GL.img_h im)%Z -> at_rest im ->
  px (bilerp (GL.texture2D im) uv ts) == 0 /\
  py (bilerp (GL.texture2D im) uv ts) == 0.
Proof.
  intros W H R. unfold bilerp.
  repeat apply mix4_rest; apply texture2D_rest; assumption.
Qed.

Lemma advect_velocity_image `{Host} (cfg : Config) (ext : Ext) (dt_ : Q)
    (s : State) (v : DoubleFBO) :
  velocity (pool s) = Some v ->
  fbo (write v) = texture (write v) ->
  let vel := GL.texture2D (textures (gl s) (texture (read v))) in
  let ts := V2 (texelSizeX v) (texelSizeY v) in
  let old := textures (gl s) (texture (write v)) in
  exists s' grid_,
    step_advect_velocity cfg ext dt_ s = Ok tt s' /\
    pool s' = pool_with_velocity (Some (swap v)) (pool s) /\
    program (gl s') = Some advectionProgram /\
    uniforms (gl s') advectionProgram texelSize = U2f (texelSizeX v) (texelSizeY v) /\
    uniforms (gl s') advectionProgram dt = U1f dt_ /\
    (forall t, t <> texture (write v) -> textures (gl s') t = textures (gl s) t) /\
    textures (gl s') (texture (write v)) =
      image_with_texels
        (fun i j =>
           if GL.in_viewport (fbo_width (write v)) (fbo_height (write v)) i j
           then advect vel vel ts grid_ dt_ (VELOCITY_DISSIPATION cfg)
                  (GL.pixel_uv (fbo_width (write v)) (fbo_height (write v)) i j)
           else GL.img_texel old i j)
        old.
Proof.
  intros V F vel ts old. subst vel ts old.
  destruct s as [cv g pl ptr at_ lt ct rc ls lg].
  destruct g as [cc tx tc au bd fb vp pg un].
  destruct pl as [pd pv pdv pc pp].
  destruct v as [vw vh vtx vty [rt rf rw rh] [wt wf ww wh]].
  cbn [pool gl velocity read write fbo texture d_width d_height fbo_width
       fbo_height textures texelSizeX texelSizeY log uniforms] in *.
  subst.
  destruct (supportLinearFiltering ext) eqn:LF.
  - eexists. eexists. split.
    { unfold step_advect_velocity. rewrite LF. cbn [negb]. run_flat. reflexivity. }
    cbn [pool gl log textures program uniforms].
    split; [reflexivity|]. split; [reflexivity|]. split; [reflexivity|].
    split; [reflexivity|].
    split; [intros t T; solve_image|].
    rewrite upd_same.
    unfold fragment_at, fragmentShader, advectionShader, baseVertexShader, texture2D.
    cbn [uniform texture_unit vUv]. lookup_uniforms. reflexivity.
  - eexists. eexists. split.
    { unfold step_advect_velocity. rewrite LF. cbn [negb]. run_flat. reflexivity. }
    cbn [pool gl log textures program uniforms].
    split; [reflexivity|]. split; [reflexivity|]. split; [reflexivity|].
    split; [reflexivity|].
    split; [intros t T; solve_image|].
    rewrite upd_same.
    unfold fragment_at, fragmentShader, advectionShader, baseVertexShader, texture2D.
    cbn [uniform texture_unit vUv]. lookup_uniforms. reflexivity.
Qed.

Lemma advect_dye_image `{Host} (cfg : Config) (s : State) (v d : DoubleFBO) :
  velocity (pool s) = Some v ->
  dye (pool s) = Some d ->
  program (gl s) = Some advectionProgram ->
  fbo (write d) = texture (write d) ->
  let vel := GL.texture2D (textures (gl s) (texture (read v))) in
  let src := GL.texture2D (textures (gl s) (texture (read d))) in
  let old := textures (gl s) (texture (write d)) in
  exists s',
    step_advect_dye cfg s = Ok tt s' /\
    pool s' = pool_with_dye (Some (swap d)) (pool s) /\
    (forall t, t <> texture (write d) -> textures (gl s') t = textures (gl s) t) /\
    textures (gl s') (texture (write d)) =
      image_with_texels
        (fun i j =>
           if GL.in_viewport (fbo_width (write d)) (fbo_height (write d)) i j
           then advect vel src (as_vec2 (uniforms (gl s) advectionProgram texelSize))
                  (V2 (texelSizeX d) (texelSizeY d))
                  (as_float (uniforms (gl s) advectionProgram dt))
                  (DENSITY_DISSIPATION cfg)
                  (GL.pixel_uv (fbo_width (write d)) (fbo_height (write d)) i j)
           else GL.img_texel old i j)
        old.
Proof.
  intros V D PG F vel src old. subst vel src old.
  destruct s as [cv g pl ptr at_ lt ct rc ls lg].
  destruct g as [cc tx tc au bd fb vp pg un].
  destruct pl as [pd pv pdv pc pp].
  destruct v as [vw vh vtx vty [rt rf rw rh] [wt wf ww wh]].
  destruct d as [dw dh dtx dty [drt drf drw drh] [dwt dwf dww dwh]].
  cbn [pool gl velocity dye read write fbo texture d_width d_height fbo_width
       fbo_height textures texelSizeX texelSizeY log uniforms program] in *.
  subst.
  eexists. split.
  { unfold step_advect_dye. run_flat. reflexivity. }
  cbn [pool gl log textures program uniforms].
  split; [reflexivity|].
  split; [intros t T; solve_image|].
  rewrite upd_same.
  unfold fragment_at, fragmentShader, advectionShader, baseVertexShader, texture2D.
  cbn [uniform texture_unit vUv]. lookup_uniforms. reflexivity.
Qed.

Lemma py_expand_rest (i : Z) (v : vec4) : py v == 0 -> py (GL.expand i v) == 0.
Proof.
  intros E. unfold GL.expand.
  destruct (GL.channels i) as [|[|[|k]]]; cbn [py]; try exact E; reflexivity.
Qed.

(** X21.  A fluid at rest only fades: when the velocity is zero at every texel,
    the two advection passes leave it zero and divide every dye texel by
    [1 + DENSITY_DISSIPATION * dt], moving nothing.  The shader divides by
    the two decay factors and by the pitches of its grids, none of which is
    zero here: the texel sizes of the velocity and of the dye are those
    [createDoubleFBO] gives them, and the grid on which the velocity pass
    interpolates its source, [velocity_source_grid], has no zero component.
    With linear filtering that grid is the uniform [dyeTexelSize] as it was
    left, which is zero until a dye pass has run. *)
Theorem fluid_at_rest_only_fades `{Host} (cfg : Config) (ext : Ext) (dt_ : Q)
    (s : State) (v d : DoubleFBO) :
  velocity (pool s) = Some v -> dye (pool s) = Some d ->
  double_ok (gl s) v 2 -> double_ok (gl s) d 3 ->
  NoDup [texture (read v); texture (write v); texture (read d); texture (write d)] ->
  texelSizeX v = 1 / inject_Z (d_width v) ->
  texelSizeY v = 1 / inject_Z (d_height v) ->
  texelSizeX d = 1 / inject_Z (d_width d) ->
  texelSizeY d = 1 / inject_Z (d_height d) ->
  ~ vx (velocity_source_grid ext s v) == 0 ->
  ~ vy (velocity_source_grid ext s v) == 0 ->
  at_rest (textures (gl s) (texture (read v))) ->
  ~ 1 + VELOCITY_DISSIPATION cfg * dt_ == 0 ->
  ~ 1 + DENSITY_DISSIPATION cfg * dt_ == 0 ->
  exists s',
    (step_advect_velocity cfg ext dt_ ;; step_advect_dye cfg) s = Ok tt s' /\
    velocity (pool s') = Some (swap v) /\
    dye (pool s') = Some (swap d) /\
    at_rest (textures (gl s') (texture (read (swap v)))) /\
    forall i j, (0 <= i < d_width d)%Z -> (0 <= j < d_height d)%Z ->
      let old := GL.fetch (textures (gl s) (texture (read d))) i j in
      let new := GL.fetch (textures (gl s') (texture (read (swap d)))) i j in
      let k := 1 + DENSITY_DISSIPATION cfg * dt_ in
      px new == px old / k /\ py new == py old / k /\ pz new == pz old / k.
Proof.
  intros V D OV OD N _ _ TX TY _ _ R _ _.
  destruct OV as [vfr vfw vdis vw vh vrw vrh vww vwh virw virh viww viwh vcr vcw].
  destruct OD as [dfr dfw ddis dw dh drw drh dww dwh dirw dirh diww diwh dcr dcw].
  assert (N1 : texture (write d) <> texture (write v)
               /\ texture (read d) <> texture (write v)).
  { inversion N as [|? ? A1 N1]; subst. inversion N1 as [|? ? A2 N2]; subst.
    cbn [In] in *. split; intros E; apply A2; rewrite <- E; tauto. }
  destruct N1 as [NW NR].
  destruct (advect_velocity_image cfg ext dt_ s v V vfw)
    as (s1 & grid_ & E1 & P1 & PG1 & U1 & UD1 & O1 & I1).
  assert (V1 : velocity (pool s1) = Some (swap v)) by (rewrite P1; reflexivity).
  assert (D1 : dye (pool s1) = Some d) by (rewrite P1; exact D).
  destruct (advect_dye_image cfg s1 (swap v) d V1 D1 PG1 dfw)
    as (s2 & E2 & P2 & O2 & I2).
  exists s2. rewrite (bind_Ok _ _ _ _ _ E1).
  split; [exact E2|].
  split; [rewrite P2; exact V1|]. split; [rewrite P2; reflexivity|].
  cbn [swap read write].
  (* the velocity the first pass wrote *)
  assert (R1 : at_rest (textures (gl s1) (texture (write v)))).
  { rewrite I1. intros x y X Y.
    cbn [image_with_texels GL.img_w GL.img_h] in X, Y.
    rewrite fetch_drawn, px_expand.
    rewrite in_viewport_true by lia.
    unfold advect, v4divs. cbn [px py].
    destruct (bilerp_rest (textures (gl s) (texture (read v)))
                (v2sub (GL.pixel_uv (fbo_width (write v)) (fbo_height (write v)) x y)
                   (v2mul (v2scale dt_
                      (xy (bilerp (GL.texture2D (textures (gl s) (texture (read v))))
                             (GL.pixel_uv (fbo_width (write v)) (fbo_height (write v)) x y)
                             (V2 (texelSizeX v) (texelSizeY v)))))
                      (V2 (texelSizeX v) (texelSizeY v))))
                grid_ ltac:(lia) ltac:(lia) R) as [B1 B2].
    split; [rewrite B1|apply py_expand_rest; cbn [py]; rewrite B2];
      unfold Qdiv; ring. }
  split.
  - rewrite (O2 _ (not_eq_sym NW)). exact R1.
  - intros i j I J. cbv zeta. rewrite I2.
    rewrite fetch_drawn. cbn [image_with_texels GL.img_ifmt].
    rewrite (O1 _ NW).
    rewrite px_expand, py_expand, pz_expand by lia.
    rewrite in_viewport_true by lia.
    rewrite U1, UD1. cbn [as_vec2 as_float swap read].
    rewrite (O1 _ NR).
    unfold advect, v4divs. cbn [px py pz].
    set (uv := GL.pixel_uv (fbo_width (write d)) (fbo_height (write d)) i j).
    set (vel1 := GL.texture2D (textures (gl s1) (texture (write v)))).
    set (ts := V2 (texelSizeX v) (texelSizeY v)).
    destruct (bilerp_rest (textures (gl s1) (texture (write v))) uv ts) as [B1 B2].
    { rewrite I1. cbn [image_with_texels GL.img_w]. lia. }
    { rewrite I1. cbn [image_with_texels GL.img_h]. lia. }
    { exact R1. }
    fold vel1 in B1, B2.
    set (coord := v2sub uv (v2mul (v2scale dt_ (xy (bilerp vel1 uv ts))) ts)).
    assert (CX : vx coord == (inject_Z i + (1#2))
                              / inject_Z (GL.img_w (textures (gl s) (texture (read d))))).
    { unfold coord, v2sub, v2mul, v2scale, xy. cbn [vx vy]. rewrite B1.
      unfold uv, GL.pixel_uv. cbn [vx]. rewrite dirw, dww. ring. }
    assert (CY : vy coord == (inject_Z j + (1#2))
                              / inject_Z (GL.img_h (textures (gl s) (texture (read d))))).
    { unfold coord, v2sub, v2mul, v2scale, xy. cbn [vx vy]. rewrite B2.
      unfold uv, GL.pixel_uv. cbn [vy]. rewrite dirh, dwh. ring. }
    pose proof (bilerp_centre (textures (gl s) (texture (read d))) i j coord
                  ltac:(lia) ltac:(lia) CX CY) as (Q1 & Q2 & Q3 & _).
    rewrite dirw, dirh, <- TX, <- TY in Q1, Q2, Q3.
    rewrite Q1, Q2, Q3. repeat split; reflexivity.
Qed.

(** X22.  The dye pass traces back through the velocity the velocity pass has
    just written, with the velocity texel size and the same time step, and
    interpolates the dye on the dye grid. *)
Theorem dye_advection_follows_new_velocity `{Host} (cfg : Config) (ext : Ext)
    (dt_ : Q) (s : State) (v d : DoubleFBO) :
  velocity (pool s) = Some v -> dye (pool s) = Some d ->
  fbo (write v) = texture (write v) -> fbo (write d) = texture (write d) ->
  texture (read d) <> texture (write v) ->
  exists s1 s2,
    step_advect_velocity cfg ext dt_ s = Ok tt s1 /\
    step_advect_dye cfg s1 = Ok tt s2 /\
    velocity (pool s2) = Some (swap v) /\ dye (pool s2) = Some (swap d) /\
    forall i j, (0 <= i < fbo_width (write d))%Z -> (0 <= j < fbo_height (write d))%Z ->
      GL.img_texel (textures (gl s2) (texture (write d))) i j =
      advect (GL.texture2D (textures (gl s1) (texture (write v))))
             (GL.texture2D (textures (gl s) (texture (read d))))
             (V2 (texelSizeX v) (texelSizeY v))
             (V2 (texelSizeX d) (texelSizeY d))
             dt_ (DENSITY_DISSIPATION cfg)
             (GL.pixel_uv (fbo_width (write d)) (fbo_height (write d)) i j).
Proof.
  intros V D FV FD NR.
  destruct (advect_velocity_image cfg ext dt_ s v V FV)
    as (s1 & grid_ & E1 & P1 & PG1 & U1 & UD1 & O1 & _).
  assert (V1 : velocity (pool s1) = Some (swap v)) by (rewrite P1; reflexivity).
  assert (D1 : dye (pool s1) = Some d) by (rewrite P1; exact D).
  destruct (advect_dye_image cfg s1 (swap v) d V1 D1 PG1 FD)
    as (s2 & E2 & P2 & _ & I2).
  exists s1, s2. split; [exact E1|]. split; [exact E2|].
  split; [rewrite P2; exact V1|]. split; [rewrite P2; reflexivity|].
  intros i j I J. rewrite I2. cbn [image_with_texels GL.img_texel].
  rewrite in_viewport_true by assumption.
  rewrite U1, UD1, (O1 _ NR). reflexivity.
Qed.

(** ** Startup *)

(** X23.  Without WebGL the module returns at once: nothing throws, the canvas
    keeps its size, style and bitmap, and no listener is registered. *)
Theorem main_without_webgl `{Host} (cfg : Config) (d : Device) (c : Canvas)
    (t0 t1 : Z) :
  webgl2 d = false -> webgl1 d = false ->
  getWebGLContext d = None /\
  exists s',
    main cfg d c t0 t1 = Ok tt s' /\
    canvas s' = c /\ listeners s' = [] /\ log s' = [] /\ pool s' = no_pool /\
    texture_count (gl s') = texture_count fresh_gl.
Proof.
  intros W2 W1.
  assert (G : getWebGLContext d = None).
  { unfold getWebGLContext. rewrite W2, W1. reflexivity. }
  split; [exact G|]. unfold main. rewrite G.
  eexists. split; [reflexivity|]. repeat split.
Qed.

Section Startup.
Context `{Host}.
Variable cfg : Config.

Lemma initial_splat_effect : forall s d v dv c p,
  random_in_range _ ->
  pool s = pool_of d v dv c p ->
  exists g x y dx dy col,
    initial_splat cfg s =
    Ok tt (with_random_calls (5 + random_calls s)
             (after s (canvas s) g (pool_of (swap d) (swap v) dv c p)
                    (splat_events x y dx dy col d v))).
Proof.
  intros s d v dv c p R P. unfold initial_splat.
  destruct (getRandomColor_palette s R) as (pc & _ & E0).
  rewrite (bind_Ok _ _ _ _ _ E0).
  repeat (rewrite (bind_Ok _ _ _ _ _ (random_spec _)); run_monad).
  match goal with
  | |- context [splat cfg ?x ?y ?fx ?fy ?col ?S] =>
      destruct (splat_effect cfg x y fx fy col S d v dv c p P) as (g & E')
  end.
  exists g. do 5 eexists. rewrite E'. unfold after, splat_events.
  cbn [with_log with_pool with_gl with_canvas with_timers with_random_calls
       canvas gl pool pointer0
       autoSplatTimer lastTime colorTimer random_calls listeners log].
  reflexivity.
Qed.

(** X24.  On a device with a 4-channel format the module body, up to the first
    call of [update], sizes the canvas to its client box, makes it
    transparent to the pointer, registers its two listeners once, starts
    both timers at zero and draws twenty random numbers; nothing has been
    drawn to the canvas yet. *)
Theorem startup_page_setup (d : Device) (c : Canvas) (t0 : Z) (ctx : Context) :
  random_in_range _ ->
  getWebGLContext d = Some ctx ->
  formatRGBA (ctx_ext ctx) <> None ->
  exists s',
    module_init cfg (ctx_ext ctx) t0 (initial_state c (ctx_gl ctx)) = Ok tt s' /\
    (width (canvas s'), height (canvas s')) = client_pixels c /\
    pointerEvents (canvas s') = Some "none"%string /\
    listeners s' = ["pointermove"; "touchmove"]%string /\
    lastTime s' = t0 /\ autoSplatTimer s' = 0 /\ colorTimer s' = 0 /\
    pointer0 s' = initial_pointer /\
    random_calls s' = 20%nat /\
    allocated (pool s') /\
    ((width c, height c) = client_pixels c -> presented (canvas s') = presented c) /\
    ((width c, height c) <> client_pixels c -> presented (canvas s') = None).
Proof.
  intros R G F.
  destruct (getWebGLContext_usable d ctx G F)
    as (G0 & rgba & rg & r & F1 & F2 & F3 & _).
  unfold module_init. set (s0 := initial_state c (ctx_gl ctx)).
  destruct (resizeCanvas_twice s0)
    as (b & s1 & E0 & B0 & B1 & B2 & SZ & GL1 & PL1 & _).
  destruct (resizeCanvas_spec s0) as (b' & c' & E0' & _ & _ & _ & _ & PE & _).
  rewrite E0 in E0'. injection E0' as <- ->.
  rewrite (bind_Ok _ _ _ _ _ E0).
  match goal with
  | |- context [bind (initFramebuffers cfg ?e) ?k ?S] =>
      destruct (initFramebuffers_allocates cfg e S rgba rg r F1 F2 F3)
        as (g' & E1 & _ & _ & _ & _ & K & _);
      rewrite (bind_Ok _ k S _ _ E1)
  end.
  rewrite !bind_modify. unfold for_lt. change (Z.to_nat 4) with 4%nat.
  cbn [repeatM].
  match goal with |- context [bind (initial_splat cfg) _ ?S] =>
    destruct (initial_splat_effect S _ _ _ _ _ R eq_refl)
      as (g1 & x1 & y1 & dx1 & dy1 & col1 & S1) end.
  rewrite (bind_Ok _ _ _ _ _ S1).
  match goal with |- context [bind (initial_splat cfg) _ ?S] =>
    destruct (initial_splat_effect S _ _ _ _ _ R eq_refl)
      as (g2 & x2 & y2 & dx2 & dy2 & col2 & S2) end.
  rewrite (bind_Ok _ _ _ _ _ S2).
  match goal with |- context [bind (initial_splat cfg) _ ?S] =>
    destruct (initial_splat_effect S _ _ _ _ _ R eq_refl)
      as (g3 & x3 & y3 & dx3 & dy3 & col3 & S3) end.
  rewrite (bind_Ok _ _ _ _ _ S3).
  match goal with |- context [bind (initial_splat cfg) _ ?S] =>
    destruct (initial_splat_effect S _ _ _ _ _ R eq_refl)
      as (g4 & x4 & y4 & dx4 & dy4 & col4 & S4) end.
  rewrite (bind_Ok _ _ _ _ _ S4).
  eexists. split; [reflexivity|].
  unfold after.
  cbn [with_log with_pool with_gl with_canvas with_timers with_random_calls
       with_listeners with_pointer0 canvas gl pool pointer0
       autoSplatTimer lastTime colorTimer random_calls listeners log
       s0 initial_state canvas_with_pointerEvents width height pointerEvents
       presented app Nat.add] in *.
  split; [exact SZ|]. split; [reflexivity|]. split; [reflexivity|].
  split; [reflexivity|]. split; [reflexivity|]. split; [reflexivity|].
  split; [reflexivity|]. split; [reflexivity|].
  split; [apply pool_of_allocated|].
  split.
  - intros Q. apply B0 in Q. subst b.
    pose proof (f_equal canvas (B1 eq_refl)) as X.
    cbn [canvas with_canvas] in X. rewrite X. reflexivity.
  - intros Q. destruct b; [exact (B2 eq_refl)|].
    exfalso. apply Q. apply B0. reflexivity.
Qed.
End Startup.

(* ------------------------------------------------------------------ *)
(** ** The further properties on the sample pages *)

Lemma sample_pool : pool sample_started =
  pool_of sample_dye sample_velocity sample_divergence sample_curl sample_pressure.
Proof. vm_compute. reflexivity. Defined.

Lemma sample_moved_pool : pool sample_moved =
  pool_of sample_dye sample_velocity sample_divergence sample_curl sample_pressure.
Proof. vm_compute. reflexivity. Defined.

Lemma sample_started_allocated : allocated (pool sample_started).
Proof. vm_compute. repeat split; discriminate. Defined.

Lemma sample_sqrt_nonneg : forall q, 0 <= @glsl_sqrt sample_host q.
Proof. intros q. apply Qabs_nonneg. Defined.

Lemma sample_velocity_at_rest :
  at_rest (textures (gl sample_started) (texture (read sample_velocity))).
Proof. intros x y _ _. vm_compute. split; reflexivity. Defined.

Lemma getSupportedFormat_sound_witness :
  getSupportedFormat two_channel_device GL.R16F GL.RED (Some GL.HALF_FLOAT)
    = Some rg_format /\
  supportRenderTextureFormat two_channel_device GL.RG16F GL.RG (Some GL.HALF_FLOAT)
    = true.
Proof.
  assert (E : getSupportedFormat two_channel_device GL.R16F GL.RED (Some GL.HALF_FLOAT)
              = Some rg_format) by (vm_compute; reflexivity).
  split; [exact E|].
  exact (proj1 (getSupportedFormat_sound two_channel_device GL.R16F GL.RED
                  (Some GL.HALF_FLOAT) rg_format E)).
Defined.

Lemma initFramebuffers_never_throws_witness :
  getWebGLContext desktop = Some desktop_context /\
  exists s', initFramebuffers config desktop_ext sample_page = Ok tt s'.
Proof.
  split; [reflexivity|].
  destruct (initFramebuffers_never_throws config desktop desktop_context
              sample_page eq_refl) as (s' & E & _).
  exists s'. exact E.
Defined.

Lemma initFramebuffers_keeps_old_textures_witness :
  usable desktop_ext /\
  exists s', initFramebuffers config desktop_ext sample_started = Ok tt s' /\
             texture_count (gl s') = 17%nat.
Proof.
  split; [exact desktop_usable|].
  destruct (initFramebuffers_keeps_old_textures config desktop_ext sample_started
              desktop_usable) as (s' & E & K & _).
  exists s'. split; [exact E|exact K].
Defined.

Lemma resizeCanvas_at_most_double_witness :
  (0 <= clientWidth (canvas sample_page))%Z /\
  (0 <= clientHeight (canvas sample_page))%Z /\
  exists b s1, resizeCanvas sample_page = Ok b s1 /\
               (width (canvas s1) <= 1600)%Z /\ (height (canvas s1) <= 1200)%Z.
Proof.
  assert (W : (0 <= clientWidth (canvas sample_page))%Z) by (vm_compute; discriminate).
  assert (H : (0 <= clientHeight (canvas sample_page))%Z) by (vm_compute; discriminate).
  split; [exact W|]. split; [exact H|].
  exact (resizeCanvas_at_most_double sample_page W H).
Defined.

Lemma correctDelta_never_amplifies_witness :
  (0 < width (canvas sample_started))%Z /\ (0 < height (canvas sample_started))%Z /\
  exists dx dy,
    correctDeltaX (1#10) sample_started = Ok dx sample_started /\
    correctDeltaY (1#10) sample_started = Ok dy sample_started /\
    Qabs dx <= Qabs (1#10) /\ Qabs dy <= Qabs (1#10).
Proof.
  split; [reflexivity|]. split; [reflexivity|].
  destruct (correctDelta_never_amplifies sample_started (1#10) eq_refl eq_refl)
    as (dx & dy & EX & EY & BX & BY & _).
  exists dx, dy. split; [exact EX|]. split; [exact EY|]. split; [exact BX|exact BY].
Defined.

Lemma correctRadius_never_shrinks_witness :
  (0 < width (canvas sample_started))%Z /\ (0 < height (canvas sample_started))%Z /\
  0 <= 3#1000 /\
  exists r, correctRadius (3#1000) sample_started = Ok r sample_started /\ 3#1000 <= r.
Proof.
  assert (P : 0 <= 3#1000) by (vm_compute; discriminate).
  split; [reflexivity|]. split; [reflexivity|]. split; [exact P|].
  destruct (correctRadius_never_shrinks sample_started (3#1000) eq_refl eq_refl P)
    as (r & E & B & _).
  exists r. split; [exact E|exact B].
Defined.

Lemma pointermove_same_place_clears_moved_witness :
  (0 < clientWidth (canvas sample_started))%Z /\
  (0 < clientHeight (canvas sample_started))%Z /\
  (0 < width (canvas sample_started))%Z /\ (0 < height (canvas sample_started))%Z /\
  exists s1 s2,
    on_pointermove 400 300 sample_started = Ok tt s1 /\
    on_pointermove 400 300 s1 = Ok tt s2 /\
    moved (pointer0 s2) = false.
Proof.
  split; [reflexivity|]. split; [reflexivity|]. split; [reflexivity|].
  split; [reflexivity|].
  destruct (pointermove_same_place_clears_moved 400 300 sample_started
              eq_refl eq_refl eq_refl eq_refl) as (s1 & s2 & E1 & E2 & M & _).
  exists s1, s2. split; [exact E1|]. split; [exact E2|exact M].
Defined.

Lemma curl_pass_witness :
  velocity (pool sample_started) = Some sample_velocity /\
  curl (pool sample_started) = Some sample_curl /\
  fbo sample_curl = texture sample_curl /\
  exists s', @step_curl sample_host sample_started = Ok tt s' /\
             pool s' = pool sample_started.
Proof.
  split; [reflexivity|]. split; [reflexivity|]. split; [reflexivity|].
  destruct (@curl_pass sample_host sample_started sample_velocity sample_curl
              eq_refl eq_refl eq_refl) as (s' & E & _ & P & _).
  exists s'. split; [exact E|exact P].
Defined.

Lemma sample_velocity_channels :
  (2 <= GL.channels (GL.img_ifmt (textures (gl sample_started)
                                     (texture (write sample_velocity)))))%nat.
Proof. vm_compute. lia. Defined.

Lemma gradient_subtract_pass_witness :
  velocity (pool sample_started) = Some sample_velocity /\
  pressure (pool sample_started) = Some sample_pressure /\
  fbo (write sample_velocity) = texture (write sample_velocity) /\
  (2 <= GL.channels (GL.img_ifmt (textures (gl sample_started)
                                     (texture (write sample_velocity)))))%nat /\
  exists s', @step_gradient_subtract sample_host sample_started = Ok tt s' /\
             velocity (pool s') = Some (swap sample_velocity).
Proof.
  split; [reflexivity|]. split; [reflexivity|]. split; [reflexivity|].
  split; [exact sample_velocity_channels|].
  destruct (@gradient_subtract_pass sample_host sample_started sample_velocity
              sample_pressure eq_refl eq_refl eq_refl sample_velocity_channels)
    as (s' & E & _ & P & _).
  exists s'. split; [exact E|]. rewrite P. reflexivity.
Defined.

Lemma vorticity_pass_without_curl_witness :
  (forall q, 0 <= @glsl_sqrt sample_host q) /\
  velocity (pool sample_started) = Some sample_velocity /\
  curl (pool sample_started) = Some sample_curl /\
  fbo (write sample_velocity) = texture (write sample_velocity) /\
  (2 <= GL.channels (GL.img_ifmt (textures (gl sample_started)
                                     (texture (write sample_velocity)))))%nat /\
  exists s', @step_vorticity sample_host config sample_step_time sample_started
               = Ok tt s' /\
             velocity (pool s') = Some (swap sample_velocity).
Proof.
  split; [exact sample_sqrt_nonneg|].
  split; [reflexivity|]. split; [reflexivity|]. split; [reflexivity|].
  split; [exact sample_velocity_channels|].
  destruct (@vorticity_pass_without_curl sample_host config sample_step_time
              sample_started sample_velocity sample_curl sample_sqrt_nonneg
              eq_refl eq_refl eq_refl sample_velocity_channels)
    as (s' & E & _ & P & _).
  exists s'. split; [exact E|]. rewrite P. reflexivity.
Defined.

Lemma render_to_canvas_witness :
  dye (pool sample_started) = Some sample_dye /\
  exists s' img, @render sample_host config None sample_started = Ok tt s' /\
                 presented (canvas s') = Some img /\
                 pw (img 0%Z 0%Z) = 1.
Proof.
  split; [reflexivity|].
  destruct (@render_to_canvas sample_host config sample_started sample_dye eq_refl)
    as (s' & img & E & _ & _ & _ & P & _ & _ & I).
  exists s', img. split; [exact E|]. split; [exact P|]. rewrite I. reflexivity.
Defined.

Lemma step_passes_witness :
  pool sample_started =
    pool_of sample_dye sample_velocity sample_divergence sample_curl sample_pressure /\
  exists s', @step sample_host config desktop_ext sample_step_time sample_started
               = Ok tt s' /\
             count is_step (skipn 0 (log s')) = 1%nat.
Proof.
  split; [exact sample_pool|].
  destruct (@step_passes sample_host config desktop_ext sample_step_time
              sample_started sample_dye sample_velocity sample_divergence
              sample_curl sample_pressure sample_pool) as (g & E).
  eexists. split; [exact E|]. vm_compute. reflexivity.
Defined.

Lemma autoSplat_waits_witness :
  autoSplatTimer sample_started + sample_step_time <= 4#10 /\
  exists s', @autoSplat sample_host config sample_step_time sample_started = Ok tt s' /\
             random_calls s' = 0%nat.
Proof.
  assert (T : autoSplatTimer sample_started + sample_step_time <= 4#10)
    by (vm_compute; discriminate).
  split; [exact T|].
  eexists. split; [exact (@autoSplat_waits sample_host config sample_step_time
                            sample_started T)|reflexivity].
Defined.

Lemma autoSplat_fires_witness :
  random_in_range sample_host /\
  pool sample_started =
    pool_of sample_dye sample_velocity sample_divergence sample_curl sample_pressure /\
  4#10 < autoSplatTimer sample_started + (1#2) /\
  exists s', @autoSplat sample_host config (1#2) sample_started = Ok tt s' /\
             autoSplatTimer s' = 0 /\ random_calls s' = 5%nat.
Proof.
  assert (T : 4#10 < autoSplatTimer sample_started + (1#2)) by (vm_compute; reflexivity).
  split; [exact sample_host_in_range|]. split; [exact sample_pool|].
  split; [exact T|].
  destruct (@autoSplat_fires sample_host config (1#2) sample_started sample_dye
              sample_velocity sample_divergence sample_curl sample_pressure
              sample_host_in_range sample_pool T)
    as (g & dx & dy & col & E & _).
  eexists. split; [exact E|]. split; reflexivity.
Defined.

Lemma quiet_tick_witness :
  pool sample_started =
    pool_of sample_dye sample_velocity sample_divergence sample_curl sample_pressure /\
  (width (canvas sample_started), height (canvas sample_started))
    = client_pixels (canvas sample_started) /\
  moved (pointer0 sample_started) = false /\
  autoSplatTimer sample_started + tick_dt 16 sample_started <= 4#10 /\
  exists s', @update sample_host config desktop_ext 16 sample_started = Ok tt s' /\
             lastTime s' = 16%Z /\ random_calls s' = 0%nat.
Proof.
  assert (T : autoSplatTimer sample_started + tick_dt 16 sample_started <= 4#10)
    by (vm_compute; discriminate).
  split; [exact sample_pool|]. split; [reflexivity|]. split; [reflexivity|].
  split; [exact T|].
  destruct (@quiet_tick sample_host config desktop_ext 16 sample_started sample_dye
              sample_velocity sample_divergence sample_curl sample_pressure
              sample_pool eq_refl eq_refl T) as (g & img & E).
  eexists. split; [exact E|]. split; reflexivity.
Defined.

Lemma tick_structure_witness :
  random_in_range sample_host /\ usable desktop_ext /\
  allocated (pool sample_moved) /\
  exists s' tick,
    @update sample_host config desktop_ext 16 sample_moved = Ok tt s' /\
    log s' = log sample_moved ++ tick /\
    count is_step tick = 1%nat /\ splat_count tick = 1%nat.
Proof.
  split; [exact sample_host_in_range|]. split; [exact desktop_usable|].
  split; [exact sample_moved_allocated|].
  destruct (@tick_structure sample_host config desktop_ext 16 sample_moved
              sample_host_in_range desktop_usable sample_moved_allocated)
    as (s' & tick & E & L & C & _ & _ & _ & S & _).
  exists s', tick. split; [exact E|]. split; [exact L|]. split; [exact C|].
  rewrite S. vm_compute. reflexivity.
Defined.

Lemma ambient_splats_are_spaced_witness :
  random_in_range sample_host /\ usable desktop_ext /\
  allocated (pool sample_started) /\
  autoSplatTimer sample_started
    + inject_Z (Z.of_nat (frames_in sample_happenings)) * (16667#1000000) <= 4#10 /\
  frames_in sample_happenings = 23%nat /\
  exists s' l,
    @page sample_host config desktop_ext sample_happenings sample_started = Ok tt s' /\
    log s' = log sample_started ++ l /\ no_ambient_splat l.
Proof.
  assert (B : autoSplatTimer sample_started
              + inject_Z (Z.of_nat (frames_in sample_happenings)) * (16667#1000000)
              <= 4#10) by (vm_compute; discriminate).
  split; [exact sample_host_in_range|]. split; [exact desktop_usable|].
  split; [exact sample_started_allocated|]. split; [exact B|].
  split; [reflexivity|].
  destruct (@ambient_splats_are_spaced sample_host config desktop_ext
              sample_happenings sample_started sample_host_in_range desktop_usable
              sample_started_allocated B) as (s' & l & E & L & N & _).
  exists s', l. split; [exact E|]. split; [exact L|exact N].
Defined.

Lemma bilerp_at_centre_witness :
  let im := textures (gl sample_started) (texture (read sample_dye)) in
  let uv := GL.pixel_uv 1365 1024 3 5 in
  (0 <= 3 < GL.img_w im)%Z /\ (0 <= 5 < GL.img_h im)%Z /\
  vx uv == (inject_Z 3 + (1#2)) / inject_Z (GL.img_w im) /\
  vy uv == (inject_Z 5 + (1#2)) / inject_Z (GL.img_h im) /\
  v4eq (bilerp (GL.texture2D im) uv
          (V2 (1 / inject_Z (GL.img_w im)) (1 / inject_Z (GL.img_h im))))
       (GL.fetch im 3 5).
Proof.
  cbv zeta.
  assert (I : (0 <= 3 < GL.img_w (textures (gl sample_started)
                                     (texture (read sample_dye))))%Z)
    by (vm_compute; split; [discriminate|reflexivity]).
  assert (J : (0 <= 5 < GL.img_h (textures (gl sample_started)
                                     (texture (read sample_dye))))%Z)
    by (vm_compute; split; [discriminate|reflexivity]).
  assert (X : vx (GL.pixel_uv 1365 1024 3 5) ==
              (inject_Z 3 + (1#2)) / inject_Z (GL.img_w (textures (gl sample_started)
                                                   (texture (read sample_dye)))))
    by (vm_compute; reflexivity).
  assert (Y : vy (GL.pixel_uv 1365 1024 3 5) ==
              (inject_Z 5 + (1#2)) / inject_Z (GL.img_h (textures (gl sample_started)
                                                   (texture (read sample_dye)))))
    by (vm_compute; reflexivity).
  split; [exact I|]. split; [exact J|]. split; [exact X|]. split; [exact Y|].
  exact (bilerp_at_centre _ 3 5 _ I J X Y).
Defined.

Lemma sample_nodup :
  NoDup [texture (read sample_velocity); texture (write sample_velocity);
         texture (read sample_dye); texture (write sample_dye)].
Proof. vm_compute. repeat constructor; cbn [In]; intuition discriminate. Defined.

Lemma unfiltered_context :
  getWebGLContext unfiltered =
    Some {| ctx_gl := gl_with_clearColor (V4 0 0 0 1) fresh_gl;
            ctx_ext := unfiltered_ext |}.
Proof. reflexivity. Defined.

Lemma unfiltered_velocity_ok : double_ok (gl sample_unfiltered) sample_velocity 2.
Proof. compute_fields. Defined.
Lemma unfiltered_dye_ok : double_ok (gl sample_unfiltered) sample_dye 3.
Proof. compute_fields. Defined.

Lemma unfiltered_velocity_at_rest :
  at_rest (textures (gl sample_unfiltered) (texture (read sample_velocity))).
Proof. intros x y _ _. vm_compute. split; reflexivity. Defined.

(** The page started without linear filtering: [step] sets the source grid
    of the velocity pass itself. *)
Lemma fluid_at_rest_only_fades_witness :
  velocity (pool sample_unfiltered) = Some sample_velocity /\
  dye (pool sample_unfiltered) = Some sample_dye /\
  double_ok (gl sample_unfiltered) sample_velocity 2 /\
  double_ok (gl sample_unfiltered) sample_dye 3 /\
  NoDup [texture (read sample_velocity); texture (write sample_velocity);
         texture (read sample_dye); texture (write sample_dye)] /\
  texelSizeX sample_velocity = 1 / inject_Z (d_width sample_velocity) /\
  texelSizeY sample_velocity = 1 / inject_Z (d_height sample_velocity) /\
  texelSizeX sample_dye = 1 / inject_Z (d_width sample_dye) /\
  texelSizeY sample_dye = 1 / inject_Z (d_height sample_dye) /\
  ~ vx (velocity_source_grid unfiltered_ext sample_unfiltered sample_velocity) == 0 /\
  ~ vy (velocity_source_grid unfiltered_ext sample_unfiltered sample_velocity) == 0 /\
  at_rest (textures (gl sample_unfiltered) (texture (read sample_velocity))) /\
  ~ 1 + VELOCITY_DISSIPATION config * sample_step_time == 0 /\
  ~ 1 + DENSITY_DISSIPATION config * sample_step_time == 0 /\
  exists s',
    (@step_advect_velocity sample_host config unfiltered_ext sample_step_time ;;
     @step_advect_dye sample_host config)%js sample_unfiltered = Ok tt s' /\
    at_rest (textures (gl s') (texture (read (swap sample_velocity)))).
Proof.
  assert (GX : ~ vx (velocity_source_grid unfiltered_ext sample_unfiltered
                       sample_velocity) == 0) by (vm_compute; discriminate).
  assert (GY : ~ vy (velocity_source_grid unfiltered_ext sample_unfiltered
                       sample_velocity) == 0) by (vm_compute; discriminate).
  assert (KV : ~ 1 + VELOCITY_DISSIPATION config * sample_step_time == 0)
    by (vm_compute; discriminate).
  assert (KD : ~ 1 + DENSITY_DISSIPATION config * sample_step_time == 0)
    by (vm_compute; discriminate).
  split; [reflexivity|]. split; [reflexivity|].
  split; [exact unfiltered_velocity_ok|]. split; [exact unfiltered_dye_ok|].
  split; [exact sample_nodup|].
  split; [reflexivity|]. split; [reflexivity|].
  split; [reflexivity|]. split; [reflexivity|].
  split; [exact GX|]. split; [exact GY|].
  split; [exact unfiltered_velocity_at_rest|]. split; [exact KV|]. split; [exact KD|].
  destruct (@fluid_at_rest_only_fades sample_host config unfiltered_ext
              sample_step_time sample_unfiltered sample_velocity sample_dye
              eq_refl eq_refl unfiltered_velocity_ok unfiltered_dye_ok sample_nodup
              eq_refl eq_refl eq_refl eq_refl GX GY
              unfiltered_velocity_at_rest KV KD)
    as (s' & E & _ & _ & R & _).
  exists s'. split; [exact E|exact R].
Defined.

Lemma dye_advection_follows_new_velocity_witness :
  velocity (pool sample_started) = Some sample_velocity /\
  dye (pool sample_started) = Some sample_dye /\
  fbo (write sample_velocity) = texture (write sample_velocity) /\
  fbo (write sample_dye) = texture (write sample_dye) /\
  texture (read sample_dye) <> texture (write sample_velocity) /\
  exists s1 s2,
    @step_advect_velocity sample_host config desktop_ext sample_step_time
      sample_started = Ok tt s1 /\
    @step_advect_dye sample_host config s1 = Ok tt s2 /\
    dye (pool s2) = Some (swap sample_dye).
Proof.
  assert (N : texture (read sample_dye) <> texture (write sample_velocity))
    by (vm_compute; discriminate).
  split; [reflexivity|]. split; [reflexivity|]. split; [reflexivity|].
  split; [reflexivity|]. split; [exact N|].
  destruct (@dye_advection_follows_new_velocity sample_host config desktop_ext
              sample_step_time sample_started sample_velocity sample_dye
              eq_refl eq_refl eq_refl eq_refl N)
    as (s1 & s2 & E1 & E2 & _ & D & _).
  exists s1, s2. split; [exact E1|]. split; [exact E2|exact D].
Defined.

Lemma main_without_webgl_witness :
  webgl2 no_webgl = false /\ webgl1 no_webgl = false /\
  exists s', @main sample_host config no_webgl sample_canvas 0 16 = Ok tt s' /\
             canvas s' = sample_canvas /\ listeners s' = [].
Proof.
  split; [reflexivity|]. split; [reflexivity|].
  destruct (@main_without_webgl sample_host config no_webgl sample_canvas 0 16
              eq_refl eq_refl) as (_ & s' & E & C & L & _).
  exists s'. split; [exact E|]. split; [exact C|exact L].
Defined.

Lemma startup_page_setup_witness :
  random_in_range sample_host /\
  getWebGLContext desktop = Some desktop_context /\
  formatRGBA (ctx_ext desktop_context) <> None /\
  exists s',
    @module_init sample_host config desktop_ext 0 sample_page = Ok tt s' /\
    (width (canvas s'), height (canvas s')) = (800, 600)%Z /\
    listeners s' = ["pointermove"; "touchmove"]%string /\
    random_calls s' = 20%nat.
Proof.
  assert (F : formatRGBA (ctx_ext desktop_context) <> None) by discriminate.
  split; [exact sample_host_in_range|]. split; [reflexivity|]. split; [exact F|].
  destruct (@startup_page_setup sample_host config desktop sample_canvas 0
              desktop_context sample_host_in_range eq_refl F)
    as (s' & E & SZ & _ & L & _ & _ & _ & _ & RC & _).
  exists s'. split; [exact E|]. split; [exact SZ|]. split; [exact L|exact RC].
Defined.
